(** * PHRIS risk engine: a shallow embedding of the scoring core

    The development follows the Python sources:
    - [risk_engine.py]   : [PersonProfile], [get_profile], [calculate_risk]
    - [zone_utils.py]    : [DANGER_ZONES], [is_person_in_danger_zone]
    - [tracker_utils.py] : [position_history], [calculate_speed]
    - [main.py]          : the critical-alert block of the frame loop

    Conventions of the embedding.
    - Python [int] values (zone risk, posture risk, pixel coordinates,
      scores, counters) are [Z].
    - Python [float] values (wall-clock readings of [time.time()], speeds in
      pixels per second) are rationals [Q]; comparisons with the integer
      thresholds of the code are the comparisons of [Q], which are exact on
      floats as well. Float arithmetic on arguments of a function rounds:
      the subtraction of two speeds, the subtraction of two timestamps
      handed to [calculate_speed] and its division are followed by
      [round_double], the rounding of IEEE 754 binary64 to the nearest
      double, ties to even. The dwell time of the risk engine is the
      difference of two readings that the engine takes itself from one
      wall clock, which double arithmetic computes exactly; it is the exact
      difference here.
    - [collections.deque(maxlen=100)] is a list, oldest entry first, with
      the eviction of [append] written out in [deque_append].
    - The module-level dictionaries [person_profiles] and
      [position_history] are [gmap]s; the insertion-ordered dictionaries
      that are iterated ([DANGER_ZONES], [factors]) are association lists.
    - [time.time()] is an effect: the state carries a clock, a function
      from the number of readings taken so far to the value read. *)

From Stdlib Require Import ZArith QArith Qminmax Qabs Qround Qpower Qreduction.
From Stdlib Require Import Lia Lqa Bool List String.
From stdpp Require Import base option list gmap strings.

Local Open Scope Z_scope.

(** * Part I: the model *)

(** ** Comparisons and arithmetic of Python floats *)

Module Num.

(** [x > y] on floats, as a boolean. *)
Definition Qgtb (x y : Q) : bool := negb (Qle_bool x y).

Definition pow2 (e : Z) : Q := (2 ^ e)%Q.

(** The integer nearest to [x]; halfway between two integers, the even
    one. *)
Definition round_half_even (x : Q) : Z :=
  let f := Qfloor x in
  match (x - inject_Z f ?= 1 # 2)%Q with
  | Lt => f
  | Gt => f + 1
  | Eq => if Z.even f then f else f + 1
  end.

(** For [0 < x], the exponent [k] with [2^k <= x < 2^(k+1)]. *)
Definition floor_log2 (x : Q) : Z :=
  let k0 := Z.log2 (Qnum x) - Z.log2 (Zpos (Qden x)) in
  if Qle_bool (pow2 k0) x then k0 else k0 - 1.

(** The exponent of the unit in the last place of the doubles around
    [0 < x]: 53 significant bits for a normal number, and the fixed
    spacing [2^-1074] of the subnormal numbers below [2^-1022]. *)
Definition ulp_exponent (x : Q) : Z := Z.max (-1074) (floor_log2 x - 52).

(** For [0 < x], the multiple of the unit in the last place nearest to
    [x], ties to the even multiple. *)
Definition round_positive (x : Q) : Q :=
  let e := ulp_exponent x in
  Qred (inject_Z (round_half_even (x / pow2 e)) * pow2 e).

(** The double nearest to the real number [x], ties to even: the result
    of an IEEE 754 binary64 operation whose exact result is [x].
    Rationals have no infinity: the function is the float operation for
    exact results of magnitude at most [double_max]. *)
Definition round_double (x : Q) : Q :=
  match (x ?= 0)%Q with
  | Eq => 0%Q
  | Gt => round_positive x
  | Lt => (- round_positive (- x))%Q
  end.

(** The largest finite double. *)
Definition double_max : Q := (pow2 1024 - pow2 971)%Q.

(** The exact result [x] of an operation is within the range of the
    finite doubles, so that the operation yields [round_double x]. *)
Definition in_double_range (x : Q) : Prop := (Qabs x <= double_max)%Q.

(** [x - y] and [x / y] on floats. *)
Definition float_sub (x y : Q) : Q := round_double (x - y).

Definition float_div (x y : Q) : Q := round_double (x / y).

End Num.

Import Num.

(** ** [collections.deque(maxlen=100)] *)

Module Deque.

Definition maxlen : nat := 100.

(** [d.append(x)]: the new entry goes to the right end; a deque that is
    already full first discards its leftmost (oldest) entry. *)
Definition deque_append {A : Type} (d : list A) (x : A) : list A :=
  if (length d <? maxlen)%nat then d ++ [x] else drop 1 d ++ [x].

(** [list(d)[-k]] for [1 <= k <= len(d)]; [None] stands for IndexError. *)
Definition neg_index {A : Type} (d : list A) (k : nat) : option A :=
  if ((1 <=? k) && (k <=? length d))%nat then d !! (length d - k)%nat else None.

(** [list(d)[-k:]]: the last [k] entries (all of them when fewer). *)
Definition last_slice {A : Type} (d : list A) (k : nat) : list A :=
  drop (length d - k)%nat d.

End Deque.

Import Deque.

(** ** risk_engine.py *)

Module RiskEngine.

Local Open Scope string_scope.
Local Open Scope Z_scope.

(** [class PersonProfile]: the five bounded histories are deques of
    capacity 100; [first_danger_time] is [None] outside every zone. *)
Record PersonProfile : Type := mkProfile {
  person_id : Z;
  times : list Q;
  positions : list (Z * Z);
  zones : list string;
  speeds : list Q;
  risk_scores : list Z;
  first_danger_time : option Q;
  last_update : Q
}.

(** The interpreter state seen by the module: the global dictionary
    [person_profiles] and the wall clock read by [time.time()]. *)
Record World : Type := mkWorld {
  person_profiles : gmap Z PersonProfile;
  clock : nat -> Q;
  ticks : nat
}.

Definition M (A : Type) : Type := World -> A * World.

Definition ret {A : Type} (a : A) : M A := fun w => (a, w).

Definition bind {A B : Type} (m : M A) (k : A -> M B) : M B :=
  fun w => k (fst (m w)) (snd (m w)).

Notation "'do' x <- m ; k" := (bind m (fun x => k))
  (at level 10, x name, m at level 100, k at level 200).
Notation "'do' ' p <- m ; k" := (bind m (fun x => match x with p => k end))
  (at level 10, p pattern, m at level 100, k at level 200).

(** [time.time()]: the next reading of the clock. *)
Definition time_time : M Q :=
  fun w => (clock w (ticks w), mkWorld (person_profiles w) (clock w) (S (ticks w))).

(** [person_profiles[person_id] = profile]. The Python object is mutated
    in place; the embedding writes the updated record back to the store. *)
Definition store_profile (pid : Z) (p : PersonProfile) : M unit :=
  fun w => (tt, mkWorld (<[pid := p]> (person_profiles w)) (clock w) (ticks w)).

(** [PersonProfile(person_id)]: empty deques, no dwell start, and
    [last_update] read from the clock. *)
Definition new_profile (pid : Z) : M PersonProfile :=
  do t <- time_time;
  ret (mkProfile pid [] [] [] [] [] None t).

Definition get_profile (pid : Z) : M PersonProfile :=
  fun w =>
    match person_profiles w !! pid with
    | Some p => (p, w)
    | None => (do p <- new_profile pid;
               do _ <- store_profile pid p;
               ret p) w
    end.

(** FACTOR 1: zone risk. *)
Definition factor_zone (in_danger_zone : bool) (zone_risk : Z) : Z :=
  if in_danger_zone then zone_risk else 0.

(** FACTOR 2: the thresholds on [time_in_zone]. *)
Definition factor_time (time_in_zone : Q) : Z :=
  if Qgtb time_in_zone 5 then 20
  else if Qgtb time_in_zone 3 then 15
  else if Qgtb time_in_zone 1 then 10
  else 0.

(** FACTOR 2, the stateful part: the dwell start is set on entry, kept
    while inside and cleared outside; the result is the new
    [first_danger_time] and the factor. *)
Definition dwell (in_danger_zone : bool) (fdt : option Q) : M (option Q * Z) :=
  if in_danger_zone then
    do start <- match fdt with
                | None => time_time
                | Some t => ret t
                end;
    do now <- time_time;
    let time_in_zone := (now - start)%Q in
    ret (Some start, factor_time time_in_zone)
  else ret (None, 0).

(** FACTOR 3: speed. *)
Definition factor_speed (speed : Q) : Z :=
  if Qgtb speed 200 then 20
  else if Qgtb speed 100 then 15
  else if Qgtb speed 50 then 10
  else if Qgtb speed 20 then 5
  else 0.

(** FACTOR 4: posture. *)
Definition factor_posture (posture_risk : Z) : Z := Z.min 20 posture_risk.

(** FACTOR 5: proximity to the left or right frame edge. *)
Definition factor_proximity (in_danger_zone : bool) (cx : Z) : Z :=
  if in_danger_zone && (cx <? 100) then 10
  else if in_danger_zone && (1180 <? cx) then 10
  else 0.

(** FACTOR 6: acceleration against [list(profile.speeds)[-2]], read
    before the current speed is appended. *)
Definition factor_acceleration (stored : list Q) (speed : Q) : Z :=
  if (2 <=? length stored)%nat then
    match neg_index stored 2 with
    | Some prev_speed =>
        let acceleration := float_sub speed prev_speed in
        if Qgtb acceleration 50 then 10
        else if Qgtb acceleration 25 then 5
        else 0
    | None => 0
    end
  else 0.

(** DETERMINE TREND, on the scores stored so far (the new one included). *)
Definition determine_trend (scores : list Z) : string :=
  if (3 <=? length scores)%nat then
    let recent_scores := last_slice scores 3 in
    match neg_index recent_scores 1, head recent_scores with
    | Some newest, Some oldest =>
        if oldest + 10 <? newest then "↑ INCREASING"
        else if newest <? oldest - 10 then "↓ DECREASING"
        else "→ STABLE"
    | _, _ => "→ STABLE"
    end
  else "STABLE".

(** DETERMINE STATUS: the label and its BGR colour. *)
Definition determine_status (total_risk : Z) : string * (Z * Z * Z) :=
  if total_risk <? 30 then ("SAFE", (0, 255, 0))
  else if total_risk <? 60 then ("WARNING", (0, 255, 255))
  else ("CRITICAL", (0, 0, 255)).

(** [if v > 0: factors[name] = v] on a dictionary that does not hold
    [name] yet: the entry goes to the end of the insertion order. *)
Definition add_factor (name : string) (v : Z) (factors : list (string * Z))
  : list (string * Z) :=
  if 0 <? v then factors ++ [(name, v)] else factors.

(** BUILD FACTORS DICTIONARY. *)
Definition build_factors (fz ft fs fp fx fa : Z) : list (string * Z) :=
  add_factor "Accel" fa
    (add_factor "Proximity" fx
      (add_factor "Posture" fp
        (add_factor "Speed" fs
          (add_factor "Time" ft
            (add_factor "Zone" fz []))))).

Record RiskInfo : Type := mkRiskInfo {
  score : Z;
  factors : list (string * Z);
  trend : string;
  status : string;
  color : Z * Z * Z;
  zone : string
}.

(** [calculate_risk]. The returned ["score"] is [int(total_risk)], the
    identity on an integer total. In [factor_acceleration] and
    [determine_trend] above, the [None] branches of the index lookups
    cannot be reached under the length guards. *)
Definition calculate_risk (pid cx cy : Z) (in_danger_zone : bool)
    (zone_name : string) (zone_risk : Z) (speed : Q)
    (posture : string) (posture_risk : Z) : M RiskInfo :=
  do profile <- get_profile pid;
  do updated <- time_time;
  let f_zone := factor_zone in_danger_zone zone_risk in
  do '(danger_time, f_time) <- dwell in_danger_zone (first_danger_time profile);
  let f_speed := factor_speed speed in
  let f_posture := factor_posture posture_risk in
  let f_proximity := factor_proximity in_danger_zone cx in
  let f_acceleration := factor_acceleration (speeds profile) speed in
  let speeds' := deque_append (speeds profile) speed in
  let total_risk :=
    Z.min 100 (f_zone + f_time + f_speed + f_posture + f_proximity + f_acceleration) in
  let risk_scores' := deque_append (risk_scores profile) total_risk in
  let zones' := deque_append (zones profile) zone_name in
  do stored <- time_time;
  let times' := deque_append (times profile) stored in
  let positions' := deque_append (positions profile) (cx, cy) in
  let trend := determine_trend risk_scores' in
  let '(status, color) := determine_status total_risk in
  let factors :=
    build_factors f_zone f_time f_speed f_posture f_proximity f_acceleration in
  do _ <- store_profile pid
            (mkProfile (person_id profile) times' positions' zones' speeds'
                       risk_scores' danger_time updated);
  ret (mkRiskInfo total_risk factors trend status color zone_name).

(** Reading the returned dictionary: [sum(factors.values())] and
    [factors.get(name, 0)]. *)
Definition factor_sum (factors : list (string * Z)) : Z :=
  foldr (fun kv acc => snd kv + acc) 0 factors.

Fixpoint factor_get (name : string) (factors : list (string * Z)) : Z :=
  match factors with
  | [] => 0
  | (k, v) :: rest => if String.eqb k name then v else factor_get name rest
  end.

(** The loop of [cleanup_old_people] that fills [to_delete]: the keys of
    the profiles whose last update lies more than [max_age] before
    [current_time]. ([map_to_list] enumerates the dictionary in key order,
    Python in insertion order; the set of keys found, their number and
    the dictionary left after deleting them do not depend on the order.) *)
Definition stale_ids (current_time max_age : Q)
    (profiles : gmap Z PersonProfile) : list Z :=
  fst <$> List.filter
            (fun item => Qgtb (current_time - last_update (snd item)) max_age)
            (map_to_list profiles).

(** [cleanup_old_people(max_age)]: one clock reading, the stale profiles
    deleted from [person_profiles], and their number returned. *)
Definition cleanup_old_people (max_age : Q) : M Z :=
  do current_time <- time_time;
  fun w =>
    let to_delete := stale_ids current_time max_age (person_profiles w) in
    (Z.of_nat (length to_delete),
     mkWorld (fold_left (fun profiles pid => delete pid profiles) to_delete
                        (person_profiles w))
             (clock w) (ticks w)).

(** A factor that is positive is listed under its name with its value;
    one that is not positive is not listed. *)
Definition listed (f : Z) : Z := if 0 <? f then f else 0.

End RiskEngine.

(** ** Sequences of calls to [calculate_risk] *)

Module Session.

Import RiskEngine.
Local Open Scope string_scope.
Local Open Scope Z_scope.

(** The arguments of one call [calculate_risk(person_id, cx, cy, ...)]. *)
Record Call : Type := mkCall {
  arg_person_id : Z;
  arg_cx : Z;
  arg_cy : Z;
  arg_in_danger_zone : bool;
  arg_zone_name : string;
  arg_zone_risk : Z;
  arg_speed : Q;
  arg_posture : string;
  arg_posture_risk : Z
}.

Definition call (c : Call) : M RiskInfo :=
  calculate_risk (arg_person_id c) (arg_cx c) (arg_cy c) (arg_in_danger_zone c)
    (arg_zone_name c) (arg_zone_risk c) (arg_speed c) (arg_posture c)
    (arg_posture_risk c).

(** The module as imported: no profile yet, no clock reading taken. *)
Definition fresh (clk : nat -> Q) : World := mkWorld ∅ clk 0.

(** The state after the calls [cs], made one after the other. *)
Definition run (cs : list Call) (w : World) : World :=
  fold_left (fun w c => snd (call c w)) cs w.

(** The results of the calls [cs], in call order. *)
Fixpoint results (cs : list Call) (w : World) : list RiskInfo :=
  match cs with
  | [] => []
  | c :: cs' => fst (call c w) :: results cs' (snd (call c w))
  end.

(** The calls of [cs] made for the identity [pid]. *)
Definition calls_of (pid : Z) (cs : list Call) : list Call :=
  filter (fun c => arg_person_id c = pid) cs.

(** The profile of [pid] in the store, if any. *)
Definition profile_of (pid : Z) (w : World) : option PersonProfile :=
  person_profiles w !! pid.

(** What one call records in the five histories of its identity: the
    timestamp read last in the call, the position, the zone label, the
    speed and the returned score. *)
Record Observation : Type := mkObservation {
  obs_time : Q;
  obs_position : Z * Z;
  obs_zone : string;
  obs_speed : Q;
  obs_score : Z
}.

Definition observe (c : Call) (w : World) : Observation :=
  mkObservation (clock w (pred (ticks (snd (call c w)))))
                (arg_cx c, arg_cy c) (arg_zone_name c) (arg_speed c)
                (score (fst (call c w))).

(** The observations recorded for [pid] by the calls [cs], oldest first. *)
Fixpoint observations (pid : Z) (cs : list Call) (w : World) : list Observation :=
  match cs with
  | [] => []
  | c :: cs' =>
      if decide (arg_person_id c = pid)
      then observe c w :: observations pid cs' (snd (call c w))
      else observations pid cs' (snd (call c w))
  end.

(** Each history of [p] holds the last [maxlen] observations, oldest first. *)
Definition tracks (p : PersonProfile) (obs : list Observation) : Prop :=
  times p = last_slice (map obs_time obs) maxlen /\
  positions p = last_slice (map obs_position obs) maxlen /\
  zones p = last_slice (map obs_zone obs) maxlen /\
  speeds p = last_slice (map obs_speed obs) maxlen /\
  risk_scores p = last_slice (map obs_score obs) maxlen.

Definition history_lengths (p : PersonProfile) : list nat :=
  [length (times p); length (positions p); length (zones p);
   length (speeds p); length (risk_scores p)].

(** The readings of the clock never go back. *)
Definition nondecreasing (clk : nat -> Q) : Prop :=
  forall i j : nat, (i <= j)%nat -> (clk i <= clk j)%Q.


End Session.

(** ** zone_utils.py *)

Module ZoneUtils.

Local Open Scope string_scope.
Local Open Scope Z_scope.

(** One entry of [DANGER_ZONES]: polygon corners, BGR colour, base risk,
    display name and description. *)
Record ZoneInfo : Type := mkZoneInfo {
  coords : list (Z * Z);
  zone_color : Z * Z * Z;
  risk : Z;
  name : string;
  description : string
}.

(** The dictionary [DANGER_ZONES], in its declaration (= iteration) order. *)
Definition DANGER_ZONES : list (string * ZoneInfo) :=
  [("HEAVY_MACHINERY",
    mkZoneInfo [(300, 200); (900, 200); (900, 600); (300, 600)] (0, 0, 255) 40
      "HEAVY MACHINERY AREA" "Industrial machinery - highest danger");
   ("ELECTRICAL",
    mkZoneInfo [(500, 150); (700, 150); (700, 400); (500, 400)] (0, 165, 255) 35
      "ELECTRICAL AREA" "High voltage equipment");
   ("CHEMICAL",
    mkZoneInfo [(100, 100); (250, 100); (250, 300); (100, 300)] (0, 255, 255) 30
      "CHEMICAL STORAGE" "Hazardous materials area")].

(** The point lies in the bounding box of the polygon: some corner is at
    or to the left of it, some at or to the right, some at or above, some
    at or below. *)
Definition in_bounding_box (poly : list (Z * Z)) (p : Z * Z) : bool :=
  existsb (fun v => fst v <=? fst p) poly && existsb (fun v => fst p <=? fst v) poly
  && existsb (fun v => snd v <=? snd p) poly && existsb (fun v => snd p <=? snd v) poly.

(** The dictionary returned by [get_zone_info]: the entry of a danger zone
    with the key ["is_safe"] added, or the three keys ["is_safe"],
    ["name"] and ["risk"] of the safe area. *)
Inductive ZoneReport : Type :=
| danger_report (zone_info : ZoneInfo) (is_safe : bool)
| safe_report (is_safe : bool) (area_name : string) (area_risk : Z).

(** [info["is_safe"]], [info["risk"]] and [info["name"]]. *)
Definition report_is_safe (info : ZoneReport) : bool :=
  match info with
  | danger_report _ is_safe => is_safe
  | safe_report is_safe _ _ => is_safe
  end.

Definition report_risk (info : ZoneReport) : Z :=
  match info with
  | danger_report zone_info _ => risk zone_info
  | safe_report _ _ area_risk => area_risk
  end.

Definition report_name (info : ZoneReport) : string :=
  match info with
  | danger_report zone_info _ => name zone_info
  | safe_report _ area_name _ => area_name
  end.

Section Classification.

(** [cv2.pointPolygonTest(coords, point, False)] of OpenCV: positive
    when the point is inside the polygon, 0 when it is on an edge,
    negative when it is outside. *)
Variable pointPolygonTest : list (Z * Z) -> Z * Z -> Z.

(** The loop of [is_person_in_danger_zone] over the items of a zone
    dictionary. *)
Fixpoint classify (zones : list (string * ZoneInfo)) (point : Z * Z)
  : bool * string * Z :=
  match zones with
  | [] => (false, "SAFE", 0)
  | (zone_name, zone_info) :: rest =>
      let result := pointPolygonTest (coords zone_info) point in
      if 0 <=? result then (true, zone_name, risk zone_info)
      else classify rest point
  end.

Definition is_person_in_danger_zone (cx cy : Z) : bool * string * Z :=
  classify DANGER_ZONES (cx, cy).

(** [DANGER_ZONES[zone_name]] on a zone dictionary; [None] stands for
    KeyError. *)
Fixpoint zone_lookup (zone_name : string) (zones : list (string * ZoneInfo))
  : option ZoneInfo :=
  match zones with
  | [] => None
  | (key, zone_info) :: rest =>
      if String.eqb key zone_name then Some zone_info
      else zone_lookup zone_name rest
  end.

(** The body of [get_zone_info] on a zone dictionary: a copy of the entry
    of the zone with ["is_safe"] set to False, or the dictionary of the
    safe area; [None] when the lookup raises. *)
Definition zone_report (zones : list (string * ZoneInfo)) (cx cy : Z)
  : option ZoneReport :=
  let '(in_danger, zone_name, _) := classify zones (cx, cy) in
  if in_danger then
    match zone_lookup zone_name zones with
    | Some info => Some (danger_report info false)
    | None => None
    end
  else Some (safe_report true "SAFE AREA" 0).

Definition get_zone_info (cx cy : Z) : option ZoneReport :=
  zone_report DANGER_ZONES cx cy.

(** The point is outside the polygon of the zone entry [z]. *)
Definition outside (point : Z * Z) (z : string * ZoneInfo) : Prop :=
  pointPolygonTest (coords (snd z)) point < 0.

End Classification.

(** *** A point-in-polygon test for concrete evaluations

    The crossing-number rule on integer coordinates with the return
    convention of OpenCV: 0 on an edge, otherwise 1 for an odd number of
    crossings of the ray to the right of the point and -1 for an even
    number. The theorems below hold for every test function; this one is
    used to run the classification on concrete points. *)

Definition cross (a b p : Z * Z) : Z :=
  (fst b - fst a) * (snd p - snd a) - (snd b - snd a) * (fst p - fst a).

Definition on_edge (a b p : Z * Z) : bool :=
  (cross a b p =? 0)
  && (Z.min (fst a) (fst b) <=? fst p) && (fst p <=? Z.max (fst a) (fst b))
  && (Z.min (snd a) (snd b) <=? snd p) && (snd p <=? Z.max (snd a) (snd b)).

Definition crosses_ray (a b p : Z * Z) : bool :=
  ((snd a <=? snd p) && (snd p <? snd b) && (0 <? cross a b p))
  || ((snd b <=? snd p) && (snd p <? snd a) && (cross a b p <? 0)).

(** The edges of the closed polygon: each corner with its successor. *)
Definition edges (poly : list (Z * Z)) : list ((Z * Z) * (Z * Z)) :=
  match poly with
  | [] => []
  | v :: rest => zip poly (rest ++ [v])
  end.

Definition crossing_test (poly : list (Z * Z)) (p : Z * Z) : Z :=
  if existsb (fun e => on_edge (fst e) (snd e) p) (edges poly) then 0
  else if Nat.odd (length (List.filter (fun e => crosses_ray (fst e) (snd e) p)
                                       (edges poly)))
       then 1 else -1.

End ZoneUtils.

(** ** tracker_utils.py *)

Module TrackerUtils.

Local Open Scope Z_scope.

(** The per-identity entry of [position_history]: the dictionary with the
    keys 'positions', 'times' and 'speed'. *)
Record History : Type := mkHistory {
  positions : list (Z * Z);
  times : list Q;
  speed : Q
}.

(** [get_person_center]: the centre of a bounding box, with the floor
    division [//] of Python. *)
Definition get_person_center (x1 y1 x2 y2 : Z) : Z * Z :=
  ((x1 + x2) / 2, (y1 + y2) / 2).

(** The entry created for an identity seen for the first time. *)
Definition empty_history : History := mkHistory [] [] 0%Q.

(** [x / y] on floats: the quotient rounded to the nearest double. A zero
    divisor has no value in the model. *)
Definition truediv (x y : Q) : option Q :=
  if Qeq_bool y 0 then None else Some (float_div x y).

(** [if len(l) > 10: l.pop(0)] *)
Definition keep_last_10 {A : Type} (l : list A) (too_long : bool) : list A :=
  if too_long then drop 1 l else l.

Section Speed.

(** [numpy.sqrt] on the sum of squares, a Python [int]: the float that
    numpy returns, or [None] where numpy raises [TypeError], which it does
    for an integer that fits no 64-bit integer type (from [2**64] on). *)
Variable np_sqrt : Z -> option Q.

(** [calculate_speed(person_id, cx, cy, current_time)] on the global
    [position_history]; the result is the returned speed and the updated
    dictionary, or [None] when an exception is raised (an index out of
    range, the [TypeError] of [numpy.sqrt], a division by zero). The
    distance is computed before the elapsed time is looked at. *)
Definition calculate_speed (person_id cx cy : Z) (current_time : Q)
    (position_history : gmap Z History) : option (Q * gmap Z History) :=
  let hist := default empty_history (position_history !! person_id) in
  let appended := positions hist ++ [(cx, cy)] in
  let too_long := (10 <? length appended)%nat in
  let positions' := keep_last_10 appended too_long in
  let times' := keep_last_10 (times hist ++ [current_time]) too_long in
  let speed' :=
    if (2 <=? length positions')%nat then
      match neg_index positions' 2, neg_index positions' 1 with
      | Some (prev_x, prev_y), Some (curr_x, curr_y) =>
          match np_sqrt ((curr_x - prev_x) ^ 2 + (curr_y - prev_y) ^ 2) with
          | Some distance =>
              match neg_index times' 1, neg_index times' 2 with
              | Some t_curr, Some t_prev =>
                  let time_diff := float_sub t_curr t_prev in
                  if Qgtb time_diff 0 then truediv distance time_diff
                  else Some 0%Q
              | _, _ => None
              end
          | None => None
          end
      | _, _ => None
      end
    else Some 0%Q in
  match speed' with
  | Some s => Some (s, <[person_id := mkHistory positions' times' s]> position_history)
  | None => None
  end.

End Speed.

(** One call [calculate_speed(person_id, cx, cy, current_time)]. *)
Record Sighting : Type := mkSighting {
  seen_id : Z;
  seen_x : Z;
  seen_y : Z;
  seen_time : Q
}.

Section SpeedRuns.

Variable np_sqrt : Z -> option Q.

(** The dictionary after one more call; [None] once a call has raised. *)
Definition speed_step (state : option (gmap Z History)) (c : Sighting)
  : option (gmap Z History) :=
  match state with
  | Some position_history =>
      snd <$> calculate_speed np_sqrt (seen_id c) (seen_x c) (seen_y c)
                (seen_time c) position_history
  | None => None
  end.

(** The dictionary after the calls [cs], starting from the empty
    [position_history] of the freshly imported module. *)
Definition speed_run (cs : list Sighting) : option (gmap Z History) :=
  fold_left speed_step cs (Some ∅).

End SpeedRuns.

(** The calls of [cs] made for [person_id]. *)
Definition sightings_of (person_id : Z) (cs : list Sighting) : list Sighting :=
  filter (fun c => seen_id c = person_id) cs.

(** Every entry has as many timestamps as positions. *)
Definition well_formed (position_history : gmap Z History) : Prop :=
  forall (person_id : Z) (hist : History),
    position_history !! person_id = Some hist ->
    length (times hist) = length (positions hist).

(** [numpy.sqrt] returns on the integers that fit a 64-bit integer type
    and are not negative. *)
Definition sqrt_defined (np_sqrt : Z -> option Q) : Prop :=
  forall z : Z, 0 <= z < 2 ^ 64 -> is_Some (np_sqrt z).

(** Pixel coordinates of magnitude at most [2**30]: between two such
    positions the squared distance stays below [2**64]. *)
Definition pixel_range : Z := 2 ^ 30.

Definition in_pixel_range (position : Z * Z) : Prop :=
  Z.abs (fst position) <= pixel_range /\ Z.abs (snd position) <= pixel_range.

(** Every stored position is in the pixel range. *)
Definition bounded_history (position_history : gmap Z History) : Prop :=
  forall (person_id : Z) (hist : History),
    position_history !! person_id = Some hist ->
    Forall in_pixel_range (positions hist).

(** The calls are made with positions in the pixel range. *)
Definition sightings_in_range (cs : list Sighting) : Prop :=
  Forall (fun c => in_pixel_range (seen_x c, seen_y c)) cs.

End TrackerUtils.

(** ** main.py: the critical-alert block of the frame loop *)

Module Main.

Local Open Scope Z_scope.

(** The statistics mutated by the block: [total_alerts] and
    [last_alert_time], both 0 before the loop starts. *)
Record AlertState : Type := mkAlertState {
  total_alerts : Z;
  last_alert_time : Q
}.

Definition initial : AlertState := mkAlertState 0 0%Q.

(** One iteration of the loop, as far as the block is concerned: the
    frame's [current_time] and the [(track_id, risk_score)] pairs of the
    tracked identities, in track order. *)
Record Frame : Type := mkFrame {
  current_time : Q;
  scored : list (Z * Z)
}.

(** STEP 8: [if risk_score > 70: critical_people.append(...)]. *)
Definition critical_people (scored : list (Z * Z)) : list (Z * Z) :=
  List.filter (fun person => 70 <? snd person) scored.

(** HANDLE CRITICAL ALERTS: the counter and the timestamp. *)
Definition handle_critical_alerts (critical : list (Z * Z)) (current_time : Q)
    (st : AlertState) : AlertState :=
  match critical with
  | [] => st
  | _ :: _ =>
      if Qgtb (current_time - last_alert_time st) 1
      then mkAlertState (total_alerts st + 1) current_time
      else st
  end.

Definition frame_step (st : AlertState) (f : Frame) : AlertState :=
  handle_critical_alerts (critical_people (scored f)) (current_time f) st.

(** The statistics after the frames [fs]. *)
Definition run_frames (fs : list Frame) (st : AlertState) : AlertState :=
  fold_left frame_step fs st.

(** Whether the frame made the counter move. *)
Definition alert_emitted (st : AlertState) (f : Frame) : bool :=
  negb (total_alerts (frame_step st f) =? total_alerts st).

(** The timestamps of the frames of [fs] that emitted an alert. *)
Fixpoint alert_times (fs : list Frame) (st : AlertState) : list Q :=
  match fs with
  | [] => []
  | f :: fs' =>
      if alert_emitted st f
      then current_time f :: alert_times fs' (frame_step st f)
      else alert_times fs' (frame_step st f)
  end.

(** Each timestamp is more than one second after the one before it,
    starting from [prev]. *)
Fixpoint spaced (prev : Q) (ts : list Q) : Prop :=
  match ts with
  | [] => True
  | t :: ts' => (1 < t - prev)%Q /\ spaced t ts'
  end.

(** The condition under which the block emits an alert. *)
Definition due (st : AlertState) (f : Frame) : Prop :=
  critical_people (scored f) <> [] /\ (1 < current_time f - last_alert_time st)%Q.

End Main.

(** ** pose_utils.py *)

Module PoseUtils.

Local Open Scope string_scope.
Local Open Scope Z_scope.

Section Posture.

(** The keypoints object handed over by the pose model, and the value of
    [abs(a - b)] on it. Their operations belong to the tensor library; an
    operation that raises has the value [None]. *)
Variable Keypoints : Type.
Variable Distance : Type.

(** [len(keypoints)] *)
Variable len : Keypoints -> nat.
(** The truth value of [keypoints == 0]. *)
Variable is_zero : Keypoints -> option bool.
(** [abs(a - b)] *)
Variable abs_diff : Keypoints -> Keypoints -> option Distance.
(** The truth values of [d < n] and [d > n]. *)
Variable less : Distance -> Z -> option bool.
Variable greater : Distance -> Z -> option bool.

(** [a or b] and [a and b] on truth values whose evaluation may raise:
    the second operand is evaluated only when the first does not decide. *)
Definition py_or (a : option bool) (b : option bool) : option bool :=
  match a with
  | Some true => Some true
  | Some false => b
  | None => None
  end.

Definition py_and (a : option bool) (b : option bool) : option bool :=
  match a with
  | Some true => b
  | Some false => Some false
  | None => None
  end.

(** The body of the [try] block of [analyze_posture]; [None] when an
    exception is raised. All six joints are bound to [keypoints] itself. *)
Definition analyze_posture_try (keypoints : Keypoints) : option (string * Z) :=
  let left_shoulder := keypoints in
  let left_hip := keypoints in
  let left_ankle := keypoints in
  match py_or (is_zero left_shoulder) (is_zero left_hip) with
  | None => None
  | Some true => Some ("UNKNOWN", 0)
  | Some false =>
      match abs_diff left_shoulder left_hip, abs_diff left_hip left_ankle with
      | Some shoulder_to_hip_dist, Some hip_to_ankle_dist =>
          match less shoulder_to_hip_dist 40 with
          | None => None
          | Some true => Some ("BENDING", 25)
          | Some false =>
              match less hip_to_ankle_dist 30 with
              | None => None
              | Some true => Some ("LYING", 50)
              | Some false =>
                  match py_and (greater shoulder_to_hip_dist 100)
                               (less hip_to_ankle_dist 40) with
                  | None => None
                  | Some true => Some ("KNEELING", 15)
                  | Some false => Some ("STANDING", 0)
                  end
              end
          end
      | _, _ => None
      end
  end.

(** [analyze_posture(keypoints)]; Python's [None] is [None], and the bare
    [except] turns every exception of the block into ("UNKNOWN", 0). *)
Definition analyze_posture (keypoints : option Keypoints) : string * Z :=
  match keypoints with
  | None => ("UNKNOWN", 0)
  | Some k =>
      if (len k <? 17)%nat then ("UNKNOWN", 0)
      else default ("UNKNOWN", 0) (analyze_posture_try k)
  end.

(** [enumerate(poses)], counting from [start]. *)
Fixpoint enumerate_from {A : Type} (start : nat) (l : list A) : list (nat * A) :=
  match l with
  | [] => []
  | x :: rest => (start, x) :: enumerate_from (S start) rest
  end.

(** [get_pose_risk(poses)]: the dictionary from the index of a pose to its
    posture and risk. *)
Definition get_pose_risk (poses : list (option Keypoints)) : gmap nat (string * Z) :=
  fold_left (fun pose_risks item =>
               <[fst item := analyze_posture (snd item)]> pose_risks)
            (enumerate_from 0 poses) ∅.

End Posture.

End PoseUtils.

(** ** main.py: one iteration of the frame loop *)

Module FrameLoop.

Import RiskEngine ZoneUtils Main.
Local Open Scope string_scope.
Local Open Scope Z_scope.

(** A confirmed track as returned by [track_people]. *)
Record Track : Type := mkTrack {
  track_id : Z;
  box_x1 : Z;
  box_y1 : Z;
  box_x2 : Z;
  box_y2 : Z
}.

(** What the loop knows about a person after STEP 6. *)
Record Assessment : Type := mkAssessment {
  who : Z;
  risk_info : RiskInfo;
  speed_px : Q
}.

(** The state the loop works on: the risk engine (with the wall clock),
    the tracker's [position_history], the alert statistics and
    [frame_count]. *)
Record LoopState : Type := mkLoopState {
  engine : World;
  position_history : gmap Z TrackerUtils.History;
  alert : AlertState;
  frame_count : Z
}.

Section Frame.

Variable pointPolygonTest : list (Z * Z) -> Z * Z -> Z.
Variable np_sqrt : Z -> option Q.

(** The posture of a track: the entry of [pose_risks] at the index of
    the track, STANDING with risk 0 when there is none. *)
Definition posture_of (pose_risks : gmap nat (string * Z)) (track_idx : nat)
  : string * Z :=
  match pose_risks !! track_idx with
  | Some entry => entry
  | None => ("STANDING", 0)
  end.

(** STEP 5 and STEP 6 for one track; [None] when [calculate_speed] raises. *)
Definition analyze_person (pose_risks : gmap nat (string * Z)) (current_time : Q)
    (track_idx : nat) (t : Track)
    (state : World * gmap Z TrackerUtils.History)
  : option (Assessment * (World * gmap Z TrackerUtils.History)) :=
  let '(cx, cy) :=
    TrackerUtils.get_person_center (box_x1 t) (box_y1 t) (box_x2 t) (box_y2 t) in
  let '(in_danger, zone_name, zone_risk) :=
    is_person_in_danger_zone pointPolygonTest cx cy in
  match TrackerUtils.calculate_speed np_sqrt (track_id t) cx cy current_time
          (snd state) with
  | None => None
  | Some (speed, history') =>
      let '(posture, posture_risk) := posture_of pose_risks track_idx in
      let scored :=
        calculate_risk (track_id t) cx cy in_danger zone_name zone_risk speed
          posture posture_risk (fst state) in
      Some (mkAssessment (track_id t) (fst scored) speed, (snd scored, history'))
  end.

(** The loop [for track_idx, (...) in enumerate(tracks)]. *)
Fixpoint analyze_people (pose_risks : gmap nat (string * Z)) (current_time : Q)
    (items : list (nat * Track))
    (state : World * gmap Z TrackerUtils.History)
  : option (list Assessment * (World * gmap Z TrackerUtils.History)) :=
  match items with
  | [] => Some ([], state)
  | (track_idx, t) :: rest =>
      match analyze_person pose_risks current_time track_idx t state with
      | None => None
      | Some (a, state') =>
          match analyze_people pose_risks current_time rest state' with
          | None => None
          | Some (others, state'') => Some (a :: others, state'')
          end
      end
  end.

(** The [(track_id, risk_score)] pairs of the frame, in track order. *)
Definition scores_of (assessments : list Assessment) : list (Z * Z) :=
  (fun a => (who a, score (risk_info a))) <$> assessments.

(** One iteration of the main loop, from [frame_count += 1] to the
    cleanup every 30 frames, given the confirmed tracks and the pose
    dictionary of the frame. (Detection, drawing and the quit key are left
    out.) The result is the assessments of the frame and its list
    [critical_people]. *)
Definition process_frame (tracks : list Track)
    (pose_risks : gmap nat (string * Z)) (st : LoopState)
  : option (list Assessment * list (Z * Z) * LoopState) :=
  let frame_count' := frame_count st + 1 in
  let '(current_time, w0) := time_time (engine st) in
  match analyze_people pose_risks current_time
          (PoseUtils.enumerate_from 0 tracks) (w0, position_history st) with
  | None => None
  | Some (assessments, (w1, history1)) =>
      let critical := critical_people (scores_of assessments) in
      let alert' := handle_critical_alerts critical current_time (alert st) in
      let w2 :=
        if frame_count' mod 30 =? 0 then snd (cleanup_old_people 60 w1) else w1 in
      Some (assessments, critical, mkLoopState w2 history1 alert' frame_count')
  end.

(** The main loop over the frames of a stream, each given by its tracks
    and its pose dictionary; [None] once an iteration has raised. *)
Definition loop_step (state : option LoopState)
    (frame : list Track * gmap nat (string * Z)) : option LoopState :=
  match state with
  | Some st => snd <$> process_frame (fst frame) (snd frame) st
  | None => None
  end.

Definition loop_run (frames : list (list Track * gmap nat (string * Z)))
    (st : LoopState) : option LoopState :=
  fold_left loop_step frames (Some st).

End Frame.

(** What holds of the assessment [a] of the track [t] found at index
    [track_idx]: it carries the identity of the track; its score is in
    [0,100] when the posture risk of the index is not negative; a score
    above 70 comes with the status CRITICAL; without a pose entry at the
    index the posture contributes nothing; and its risk information is what
    [calculate_risk] returns for the identity of the track, the centre of
    its box, the zone of the centre, the speed of the assessment and the
    posture found at the index. *)
Definition well_assessed (pointPolygonTest : list (Z * Z) -> Z * Z -> Z)
    (pose_risks : gmap nat (string * Z))
    (item : nat * Track) (a : Assessment) : Prop :=
  who a = track_id (snd item) /\
  (0 <= snd (posture_of pose_risks (fst item)) -> 0 <= score (risk_info a) <= 100) /\
  (70 < score (risk_info a) -> status (risk_info a) = "CRITICAL") /\
  (pose_risks !! fst item = None ->
   factor_get "Posture" (factors (risk_info a)) = 0) /\
  (exists w : World,
      let t := snd item in
      let '(cx, cy) :=
        TrackerUtils.get_person_center (box_x1 t) (box_y1 t) (box_x2 t) (box_y2 t) in
      let '(in_danger, zone_name, zone_risk) :=
        is_person_in_danger_zone pointPolygonTest cx cy in
      let '(posture, posture_risk) := posture_of pose_risks (fst item) in
      risk_info a
      = fst (calculate_risk (track_id t) cx cy in_danger zone_name zone_risk
               (speed_px a) posture posture_risk w)).

(** A box whose corner coordinates are in the pixel range. *)
Definition box_in_range (t : Track) : Prop :=
  Z.abs (box_x1 t) <= TrackerUtils.pixel_range /\
  Z.abs (box_y1 t) <= TrackerUtils.pixel_range /\
  Z.abs (box_x2 t) <= TrackerUtils.pixel_range /\
  Z.abs (box_y2 t) <= TrackerUtils.pixel_range.

(** What one pass of the loop body keeps and adds in the two stores. *)
Definition extends (items : list (nat * Track))
    (before after : World * gmap Z TrackerUtils.History) : Prop :=
  clock (fst after) = clock (fst before) /\
  (forall pid, is_Some (person_profiles (fst before) !! pid) ->
               is_Some (person_profiles (fst after) !! pid)) /\
  (forall pid, is_Some (snd before !! pid) -> is_Some (snd after !! pid)) /\
  Forall (fun item =>
            is_Some (person_profiles (fst after) !! track_id (snd item))
            /\ is_Some (snd after !! track_id (snd item))) items.

(** The loop state before the first frame. *)
Definition start (clk : nat -> Q) : LoopState :=
  mkLoopState (mkWorld ∅ clk 0) ∅ initial 0.

End FrameLoop.

(** ** Concrete sessions, zones and frames *)

Module Scenarios.

Import RiskEngine Session ZoneUtils Main TrackerUtils.
Local Open Scope string_scope.
Local Open Scope Z_scope.

(** A clock that reads 0 for the first five readings and 6 afterwards:
    the first call of a session happens at time 0, the next at time 6. *)
Definition clock_0_then_6 (n : nat) : Q := if (n <? 5)%nat then 0%Q else 6%Q.

(** An identity enters HEAVY_MACHINERY (risk 40) next to the left frame
    edge, and six seconds later is seen there again, bending (posture
    risk 25) and moving at 250 px/s. *)
Definition enters_zone : Call :=
  mkCall 7 50 300 true "HEAVY_MACHINERY" 40 0%Q "STANDING" 0.
Definition rushes_bending : Call :=
  mkCall 7 50 300 true "HEAVY_MACHINERY" 40 250%Q "BENDING" 25.

(** A call whose zone risk is negative. *)
Definition negative_zone : Call :=
  mkCall 7 500 300 true "PIT" (-5) 0%Q "STANDING" 0.

(** An observation outside every zone at a given speed. After
    observations at 10 px/s and 100 px/s, one at 70 px/s is +60 against
    the stored speed before last (10) and -30 against the last one. *)
Definition at_speed (v : Q) : Call :=
  mkCall 7 500 50 false "SAFE" 0 v "STANDING" 0.

(** Two speeds as [calculate_speed] returns them: 2 pixels and 77 pixels
    covered in 1.5 seconds, the doubles [2.0 / 1.5] and [77.0 / 1.5]. Their
    exact difference is a little more than 50; the float subtraction
    [77.0 / 1.5 - 2.0 / 1.5] rounds it to 50.0. *)
Definition speed_2px : Q := float_div 2 (3 # 2).

Definition speed_77px : Q := float_div 77 (3 # 2).

(** The scenario of the specification: inside HEAVY_MACHINERY (risk 40),
    standing still, first seen at time 0 and again at time 6. *)
Definition stands_inside : Call :=
  mkCall 7 600 400 true "HEAVY_MACHINERY" 40 0%Q "STANDING" 0.

(** A call whose score is its zone risk: inside a zone, no other
    contribution as long as the clock stands still. *)
Definition zone_only (zr : Z) : Call :=
  mkCall 7 600 400 true "ZONE" zr 0%Q "STANDING" 0.

(** Entry at time 0, exit at time 6, re-entry at time 7. *)
Definition clock_0_6_7 (n : nat) : Q :=
  if (n <? 5)%nat then 0%Q else if (n <? 7)%nat then 6%Q else 7%Q.

(** One identity observed 150 times. *)
Definition observed_150_times : list Call :=
  repeat (mkCall 7 500 50 false "SAFE" 0 30%Q "STANDING" 0) 150.

(** Two identities seen in turn, one of them more often. *)
Definition two_people : list Call :=
  [mkCall 1 600 400 true "HEAVY_MACHINERY" 40 0%Q "STANDING" 0;
   mkCall 2 500 50 false "SAFE" 0 120%Q "STANDING" 0;
   mkCall 1 610 400 true "HEAVY_MACHINERY" 40 60%Q "BENDING" 25].

(** The point (600, 300) lies in both HEAVY_MACHINERY and ELECTRICAL, and
    (500, 300) lies on the left edge of ELECTRICAL. With ELECTRICAL
    (risk 35) declared before HEAVY_MACHINERY (risk 40), both points are
    classified as ELECTRICAL: first match, not maximum risk. *)
Definition electrical_first : list (string * ZoneInfo) :=
  match DANGER_ZONES with
  | heavy :: electrical :: rest => electrical :: heavy :: rest
  | other => other
  end.

(** An instance of [numpy.sqrt] for the scenarios: [TypeError] from
    [2**64] on, and the integer square root below, which is what numpy
    returns on the perfect squares below [2**53]. *)
Definition isqrt (z : Z) : option Q :=
  if (0 <=? z) && (z <? 2 ^ 64) then Some (inject_Z (Z.sqrt z)) else None.

(** One earlier observation of identity 7: at (0, 0), at time 1. *)
Definition seen_once : gmap Z History :=
  <[7 := mkHistory [(0, 0)] [1%Q] 0%Q]> ∅.

(** A frame at time [t] with two identities above 70 and one below. *)
Definition critical_frame (t : Q) : Frame := mkFrame t [(1, 85); (2, 40); (3, 100)].

(** A frame at time [t] without a critical identity: a score of exactly
    70 is not above 70. *)
Definition calm_frame (t : Q) : Frame := mkFrame t [(1, 70); (2, 40)].

(** Identity 1 is seen at time 0 and identity 2 at time 2; the next clock
    reading, taken by the cleanup, is 61. *)
Definition clock_0_2_61 (n : nat) : Q :=
  if (n <? 3)%nat then 0%Q else if (n <? 6)%nat then 2%Q else 61%Q.

Definition seen_at_0_and_2 : list Call :=
  [mkCall 1 500 50 false "SAFE" 0 0%Q "STANDING" 0;
   mkCall 2 500 50 false "SAFE" 0 0%Q "STANDING" 0].

(** Identity 7 is seen inside HEAVY_MACHINERY at time 0, identity 8 is
    scored in between, and identity 7 is seen inside again at time 6. *)
Definition someone_else : list Call :=
  [mkCall 8 500 50 false "SAFE" 0 0%Q "STANDING" 0].

(** A clock that advances by one second at every reading. *)
Definition clock_seconds (n : nat) : Q := inject_Z (Z.of_nat n).

(** Identity 7 seen twelve times, one pixel further to the right every
    second, with identity 8 seen once in between. *)
Definition moving_right (n : nat) : Sighting :=
  mkSighting 7 (Z.of_nat n) 0 (inject_Z (Z.of_nat n)).

Definition twelve_sightings : list Sighting :=
  ((moving_right <$> seq 0 6) ++ [mkSighting 8 100 100 6%Q]
   ++ (moving_right <$> seq 6 6))%list.

(** Keypoints that are plain integers: a length of 17, exact comparisons. *)
Definition scalar_len (k : Z) : nat := 17.
Definition scalar_is_zero (k : Z) : option bool := Some (k =? 0).
Definition scalar_abs_diff (a b : Z) : option Z := Some (Z.abs (a - b)).
Definition scalar_less (d n : Z) : option bool := Some (d <? n).
Definition scalar_greater (d n : Z) : option bool := Some (n <? d).

(** Two tracks: identity 1 in the middle of HEAVY_MACHINERY, identity 2
    outside every zone; a pose entry for the first track only. *)
Definition two_tracks : list FrameLoop.Track :=
  [FrameLoop.mkTrack 1 550 300 650 500; FrameLoop.mkTrack 2 1000 600 1100 700].

Definition one_pose : gmap nat (string * Z) := {[ 0%nat := ("BENDING", 25) ]}.

(** Two frames: the two tracks with the pose entry, then the same tracks
    without any pose. *)
Definition two_frames : list (list FrameLoop.Track * gmap nat (string * Z)) :=
  [(two_tracks, one_pose); (two_tracks, ∅)].

End Scenarios.

Import Scenarios.

(** * Part II: properties *)

(** ** Comparisons *)

Module NumFacts.

Lemma Qgtb_true (x y : Q) : Qgtb x y = true <-> (y < x)%Q.
Proof.
  unfold Qgtb. rewrite negb_true_iff.
  destruct (Qle_bool x y) eqn:E.
  - apply Qle_bool_iff in E. split; [discriminate | intros H; exfalso; lra].
  - split; [intros _ | reflexivity].
    apply Qnot_le_lt. intros H. apply Qle_bool_iff in H. congruence.
Qed.

Lemma Qgtb_false (x y : Q) : Qgtb x y = false <-> (x <= y)%Q.
Proof.
  unfold Qgtb. rewrite negb_false_iff. apply Qle_bool_iff.
Qed.

(** *** Rounding to the nearest double

    [round_double] is monotone and keeps the sign: what the comparisons of
    the code with its thresholds need. *)

Lemma pow2_pos e : (0 < pow2 e)%Q.
Proof. unfold pow2. apply Qpower_0_lt. reflexivity. Qed.

Lemma pow2_plus a b : (pow2 (a + b) == pow2 a * pow2 b)%Q.
Proof. unfold pow2. apply Qpower_plus. discriminate. Qed.

Lemma pow2_le a b : a <= b -> (pow2 a <= pow2 b)%Q.
Proof. intros H. unfold pow2. apply Qpower_le_compat_l; [exact H | discriminate]. Qed.

Lemma pow2_inject e : 0 <= e -> (pow2 e == inject_Z (2 ^ e))%Q.
Proof. intros H. unfold pow2. symmetry. apply (Zpower_Qpower 2 e H). Qed.

Lemma round_half_even_bounds x :
  Qfloor x <= round_half_even x <= Qfloor x + 1.
Proof.
  unfold round_half_even.
  destruct (_ ?= _)%Q; try destruct (Z.even _); lia.
Qed.

Lemma round_half_even_Z n : round_half_even (inject_Z n) = n.
Proof.
  unfold round_half_even. rewrite Qfloor_Z.
  assert (E : (inject_Z n - inject_Z n ?= 1 # 2)%Q = Lt).
  { apply (proj1 (Qlt_alt _ _)). generalize (inject_Z n). intros q. lra. }
  rewrite E. reflexivity.
Qed.

Lemma round_half_even_mono x y :
  (x <= y)%Q -> round_half_even x <= round_half_even y.
Proof.
  intros H. pose proof (Qfloor_resp_le _ _ H) as Hf.
  destruct (Z.eq_dec (Qfloor x) (Qfloor y)) as [E | NE].
  - unfold round_half_even. rewrite <- E.
    set (f := Qfloor x).
    destruct (x - inject_Z f ?= 1 # 2)%Q eqn:Ex;
      destruct (y - inject_Z f ?= 1 # 2)%Q eqn:Ey;
      try destruct (Z.even f); try lia; exfalso;
      first [apply (proj2 (Qeq_alt _ _)) in Ex | apply (proj2 (Qlt_alt _ _)) in Ex
            | apply (proj2 (Qgt_alt _ _)) in Ex];
      first [apply (proj2 (Qeq_alt _ _)) in Ey | apply (proj2 (Qlt_alt _ _)) in Ey
            | apply (proj2 (Qgt_alt _ _)) in Ey];
      lra.
  - pose proof (round_half_even_bounds x). pose proof (round_half_even_bounds y).
    lia.
Qed.

Lemma Qmake_times_den n d : ((n # d) * inject_Z (Zpos d) == inject_Z n)%Q.
Proof. unfold Qeq, Qmult, inject_Z. simpl. lia. Qed.

Lemma floor_log2_spec x :
  (0 < x)%Q -> (pow2 (floor_log2 x) <= x /\ x < pow2 (floor_log2 x + 1))%Q.
Proof.
  intros Hx. destruct x as [n d].
  assert (Hn : 0 < n).
  { unfold Qlt in Hx. simpl in Hx. lia. }
  unfold floor_log2. cbn [Qnum Qden].
  set (a := Z.log2 n). set (b := Z.log2 (Zpos d)).
  pose proof (Z.log2_spec n Hn) as [Ha1 Ha2]. fold a in Ha1, Ha2.
  pose proof (Z.log2_spec (Zpos d) eq_refl) as [Hb1 Hb2]. fold b in Hb1, Hb2.
  assert (Ha0 : 0 <= a) by apply Z.log2_nonneg.
  assert (Hb0 : 0 <= b) by apply Z.log2_nonneg.
  pose proof (Qmake_times_den n d) as Hnd.
  assert (Hq : (0 < n # d)%Q) by exact Hx.
  assert (Hd1 : (inject_Z (2 ^ b) <= inject_Z (Zpos d))%Q).
  { rewrite <- Zle_Qle. exact Hb1. }
  assert (Hd2 : (inject_Z (Zpos d) < inject_Z (2 ^ Z.succ b))%Q).
  { rewrite <- Zlt_Qlt. exact Hb2. }
  assert (Hn1 : (inject_Z (2 ^ a) <= inject_Z n)%Q).
  { rewrite <- Zle_Qle. exact Ha1. }
  assert (Hn2 : (inject_Z n < inject_Z (2 ^ Z.succ a))%Q).
  { rewrite <- Zlt_Qlt. exact Ha2. }
  rewrite <- pow2_inject in Hd1, Hd2, Hn1, Hn2 by lia.
  destruct (Qle_bool (pow2 (a - b)) (n # d)) eqn:E.
  - apply Qle_bool_iff in E. split; [exact E |].
    (* n/d < 2^(a-b+1) *)
    apply (Qmult_lt_r _ _ (pow2 b) (pow2_pos b)).
    rewrite <- pow2_plus.
    replace (a - b + 1 + b) with (Z.succ a) by lia.
    apply Qle_lt_trans with ((n # d) * inject_Z (Zpos d))%Q.
    + apply Qmult_le_l; [exact Hq | exact Hd1].
    + rewrite Hnd. exact Hn2.
  - assert (E' : ~ (pow2 (a - b) <= n # d)%Q).
    { intros H. apply Qle_bool_iff in H. congruence. }
    apply Qnot_le_lt in E'.
    replace (a - b - 1 + 1) with (a - b) by lia.
    split; [| exact E'].
    apply (Qmult_le_r _ _ (pow2 (Z.succ b)) (pow2_pos _)).
    rewrite <- pow2_plus.
    replace (a - b - 1 + Z.succ b) with a by lia.
    apply Qle_trans with ((n # d) * inject_Z (Zpos d))%Q.
    + rewrite Hnd. exact Hn1.
    + apply Qmult_le_l; [exact Hq |]. apply Qlt_le_weak. exact Hd2.
Qed.

Lemma pow2_lt_inv a b : (pow2 a < pow2 b)%Q -> a < b.
Proof.
  intros H. destruct (Z_lt_le_dec a b) as [Hl | Hg]; [exact Hl |].
  apply pow2_le in Hg. exfalso. lra.
Qed.

Lemma floor_log2_mono x y :
  (0 < x)%Q -> (x <= y)%Q -> floor_log2 x <= floor_log2 y.
Proof.
  intros Hx Hxy.
  destruct (floor_log2_spec x Hx) as [Hx1 _].
  destruct (floor_log2_spec y) as [_ Hy2]; [lra |].
  assert (H : (pow2 (floor_log2 x) < pow2 (floor_log2 y + 1))%Q) by lra.
  apply pow2_lt_inv in H. lia.
Qed.

Lemma ulp_exponent_mono x y :
  (0 < x)%Q -> (x <= y)%Q -> ulp_exponent x <= ulp_exponent y.
Proof.
  intros Hx Hxy. pose proof (floor_log2_mono x y Hx Hxy). unfold ulp_exponent. lia.
Qed.

Lemma ulp_exponent_upper x :
  (0 < x)%Q -> (x < pow2 (ulp_exponent x + 53))%Q.
Proof.
  intros Hx. destruct (floor_log2_spec x Hx) as [_ H].
  apply Qlt_le_trans with (1 := H). apply pow2_le. unfold ulp_exponent. lia.
Qed.

Lemma ulp_exponent_lower x :
  (0 < x)%Q -> -1074 < ulp_exponent x -> (pow2 (ulp_exponent x + 52) <= x)%Q.
Proof.
  intros Hx He. destruct (floor_log2_spec x Hx) as [H _].
  replace (ulp_exponent x + 52) with (floor_log2 x); [exact H |].
  unfold ulp_exponent in *. lia.
Qed.

Lemma round_positive_eq x :
  (round_positive x
   == inject_Z (round_half_even (x / pow2 (ulp_exponent x))) * pow2 (ulp_exponent x))%Q.
Proof. unfold round_positive. apply Qred_correct. Qed.

Lemma round_positive_nonneg x : (0 < x)%Q -> (0 <= round_positive x)%Q.
Proof.
  intros Hx. rewrite round_positive_eq.
  apply Qmult_le_0_compat; [| apply Qlt_le_weak, pow2_pos].
  change 0%Q with (inject_Z 0). rewrite <- Zle_Qle.
  rewrite <- (round_half_even_Z 0) at 1. apply round_half_even_mono.
  apply Qle_shift_div_l; [apply pow2_pos |].
  change (inject_Z 0) with 0%Q. lra.
Qed.

Lemma round_positive_upper x :
  (0 < x)%Q -> (round_positive x <= pow2 (ulp_exponent x + 53))%Q.
Proof.
  intros Hx. rewrite round_positive_eq.
  set (e := ulp_exponent x).
  rewrite Z.add_comm, pow2_plus.
  apply Qmult_le_r; [apply pow2_pos |].
  rewrite (pow2_inject 53) by lia. rewrite <- Zle_Qle.
  rewrite <- (round_half_even_Z (2 ^ 53)). apply round_half_even_mono.
  rewrite <- (pow2_inject 53) by lia.
  apply Qle_shift_div_r; [apply pow2_pos |].
  rewrite <- pow2_plus. rewrite Z.add_comm.
  apply Qlt_le_weak. apply ulp_exponent_upper. exact Hx.
Qed.

Lemma round_positive_lower x :
  (0 < x)%Q -> -1074 < ulp_exponent x ->
  (pow2 (ulp_exponent x + 52) <= round_positive x)%Q.
Proof.
  intros Hx He. rewrite round_positive_eq.
  pose proof (ulp_exponent_lower x Hx He) as Hl. revert Hl.
  set (e := ulp_exponent x). intros Hl.
  rewrite Z.add_comm, pow2_plus.
  apply Qmult_le_r; [apply pow2_pos |].
  rewrite (pow2_inject 52) by lia. rewrite <- Zle_Qle.
  rewrite <- (round_half_even_Z (2 ^ 52)) at 1. apply round_half_even_mono.
  rewrite <- (pow2_inject 52) by lia.
  apply Qle_shift_div_l; [apply pow2_pos |].
  rewrite <- pow2_plus. rewrite Z.add_comm. exact Hl.
Qed.

Lemma round_positive_mono x y :
  (0 < x)%Q -> (x <= y)%Q -> (round_positive x <= round_positive y)%Q.
Proof.
  intros Hx Hxy. assert (Hy : (0 < y)%Q) by lra.
  pose proof (ulp_exponent_mono x y Hx Hxy) as He.
  destruct (Z.eq_dec (ulp_exponent x) (ulp_exponent y)) as [E | NE].
  - rewrite !round_positive_eq. rewrite E.
    apply Qmult_le_r; [apply pow2_pos |].
    rewrite <- Zle_Qle. apply round_half_even_mono.
    apply Qmult_le_r; [apply Qinv_lt_0_compat, pow2_pos | exact Hxy].
  - apply Qle_trans with (pow2 (ulp_exponent x + 53)).
    + apply round_positive_upper. exact Hx.
    + apply Qle_trans with (pow2 (ulp_exponent y + 52)).
      * apply pow2_le. lia.
      * apply round_positive_lower; [exact Hy |].
        assert (-1074 <= ulp_exponent x) by (unfold ulp_exponent; lia). lia.
Qed.

Lemma round_double_pos x : (0 < x)%Q -> round_double x = round_positive x.
Proof.
  intros H. unfold round_double. apply (proj1 (Qgt_alt _ _)) in H. rewrite H. reflexivity.
Qed.

Lemma round_double_neg x : (x < 0)%Q -> round_double x = (- round_positive (- x))%Q.
Proof.
  intros H. unfold round_double. apply (proj1 (Qlt_alt _ _)) in H. rewrite H. reflexivity.
Qed.

Lemma round_double_zero x : (x == 0)%Q -> round_double x = 0%Q.
Proof.
  intros H. unfold round_double. apply (proj1 (Qeq_alt _ _)) in H. rewrite H. reflexivity.
Qed.

Lemma round_double_nonneg x : (0 <= x)%Q -> (0 <= round_double x)%Q.
Proof.
  intros H. destruct (Qlt_le_dec 0 x) as [Hp | Hz].
  - rewrite round_double_pos by exact Hp. apply round_positive_nonneg. exact Hp.
  - rewrite round_double_zero by lra. lra.
Qed.

Lemma round_double_nonpos x : (x <= 0)%Q -> (round_double x <= 0)%Q.
Proof.
  intros H. destruct (Qlt_le_dec x 0) as [Hn | Hz].
  - rewrite round_double_neg by exact Hn.
    assert (0 <= round_positive (- x))%Q by (apply round_positive_nonneg; lra). lra.
  - rewrite round_double_zero by lra. lra.
Qed.

Lemma round_double_mono x y : (x <= y)%Q -> (round_double x <= round_double y)%Q.
Proof.
  intros H. destruct (Qlt_le_dec 0 x) as [Hx | Hx].
  - rewrite (round_double_pos x Hx). rewrite (round_double_pos y) by lra.
    apply round_positive_mono; assumption.
  - destruct (Qlt_le_dec y 0) as [Hy | Hy].
    + rewrite (round_double_neg y Hy). rewrite (round_double_neg x) by lra.
      assert (round_positive (- y) <= round_positive (- x))%Q
        by (apply round_positive_mono; lra).
      lra.
    + apply Qle_trans with 0%Q.
      * apply round_double_nonpos. exact Hx.
      * apply round_double_nonneg. exact Hy.
Qed.

Lemma round_double_proper x y : (x == y)%Q -> (round_double x == round_double y)%Q.
Proof.
  intros H. apply Qle_antisym; apply round_double_mono; lra.
Qed.

End NumFacts.

Import NumFacts.

(** ** Basic facts about the deque model *)

Module DequeFacts.

Lemma deque_append_length {A : Type} (d : list A) (x : A) :
  (length d <= maxlen)%nat ->
  length (deque_append d x) = Nat.min (S (length d)) maxlen.
Proof.
  intros Hd. unfold deque_append.
  destruct (Nat.ltb_spec (length d) maxlen) as [Hlt | Hge].
  - rewrite length_app. cbn [length]. lia.
  - rewrite length_app, length_drop. cbn [length]. unfold maxlen in *. lia.
Qed.

Lemma deque_append_last {A : Type} (d : list A) (x : A) :
  last (deque_append d x) = Some x.
Proof.
  unfold deque_append.
  destruct (length d <? maxlen)%nat; apply last_snoc.
Qed.

Lemma last_slice_length {A : Type} (l : list A) (k : nat) :
  length (last_slice l k) = Nat.min (length l) k.
Proof. unfold last_slice. rewrite length_drop. lia. Qed.

(** Appending to the deque keeps it equal to the last [maxlen] entries of
    everything appended so far: the oldest entry is the one evicted. *)
Lemma last_slice_snoc {A : Type} (l : list A) (x : A) :
  last_slice (l ++ [x]) maxlen = deque_append (last_slice l maxlen) x.
Proof.
  unfold deque_append. rewrite last_slice_length.
  unfold last_slice. rewrite length_app. cbn [length].
  destruct (Nat.ltb_spec (Nat.min (length l) maxlen) maxlen) as [Hlt | Hge].
  - replace (length l + 1 - maxlen)%nat with 0%nat by lia.
    replace (length l - maxlen)%nat with 0%nat by lia.
    reflexivity.
  - rewrite drop_drop.
    replace (length l - maxlen + 1)%nat with (length l + 1 - maxlen)%nat by lia.
    apply drop_app_le. unfold maxlen. lia.
Qed.

Lemma neg_index_snoc2 {A : Type} (l : list A) (a b : A) :
  neg_index (l ++ [a; b]) 2 = Some a.
Proof.
  unfold neg_index. rewrite length_app. cbn [length].
  destruct (Nat.leb_spec 2 (length l + 2)) as [_ | Hlt]; [| lia].
  cbn [Nat.leb andb].
  replace (length l + 2 - 2)%nat with (length l + 0)%nat by lia.
  rewrite lookup_app_r by lia.
  replace (length l + 0 - length l)%nat with 0%nat by lia.
  reflexivity.
Qed.

End DequeFacts.

(** ** Facts about the risk engine *)

Module RiskFacts.

Import RiskEngine Session NumFacts DequeFacts.
Local Open Scope string_scope.
Local Open Scope Z_scope.

(** *** The clock and the store across the primitive operations *)

Lemma get_profile_hit pid p w :
  person_profiles w !! pid = Some p -> get_profile pid w = (p, w).
Proof. intros H. unfold get_profile. rewrite H. reflexivity. Qed.

Lemma get_profile_miss pid w :
  person_profiles w !! pid = None ->
  get_profile pid w =
    (mkProfile pid [] [] [] [] [] None (clock w (ticks w)),
     mkWorld (<[pid := mkProfile pid [] [] [] [] [] None (clock w (ticks w))]>
                (person_profiles w))
             (clock w) (S (ticks w))).
Proof. intros H. unfold get_profile. rewrite H. reflexivity. Qed.

Lemma get_profile_clock pid w : clock (snd (get_profile pid w)) = clock w.
Proof. unfold get_profile. destruct (person_profiles w !! pid); reflexivity. Qed.

Lemma get_profile_other pid pid' w :
  pid' <> pid ->
  person_profiles (snd (get_profile pid w)) !! pid' = person_profiles w !! pid'.
Proof.
  intros Hne. unfold get_profile.
  destruct (person_profiles w !! pid); simpl; [reflexivity |].
  apply lookup_insert_ne. congruence.
Qed.

Lemma dwell_outside fdt w : dwell false fdt w = (None, 0, w).
Proof. reflexivity. Qed.

Lemma dwell_entering w :
  dwell true None w =
    (Some (clock w (ticks w)),
     factor_time (clock w (S (ticks w)) - clock w (ticks w))%Q,
     mkWorld (person_profiles w) (clock w) (S (S (ticks w)))).
Proof. reflexivity. Qed.

Lemma dwell_staying t w :
  dwell true (Some t) w =
    (Some t, factor_time (clock w (ticks w) - t)%Q,
     mkWorld (person_profiles w) (clock w) (S (ticks w))).
Proof. reflexivity. Qed.

Lemma dwell_clock idz fdt w : clock (snd (dwell idz fdt w)) = clock w.
Proof. destruct idz, fdt; reflexivity. Qed.

Lemma dwell_profiles idz fdt w :
  person_profiles (snd (dwell idz fdt w)) = person_profiles w.
Proof. destruct idz, fdt; reflexivity. Qed.

Lemma dwell_start idz fdt w :
  is_Some (fst (fst (dwell idz fdt w))) <-> idz = true.
Proof.
  destruct idz, fdt; simpl; split; intros H; try reflexivity; eauto;
    try (destruct H; discriminate); discriminate.
Qed.

(** *** Ranges of the factors *)

Lemma factor_time_range t :
  factor_time t = 0 \/ factor_time t = 10 \/ factor_time t = 15 \/ factor_time t = 20.
Proof.
  unfold factor_time.
  destruct (Qgtb t 5); [tauto |].
  destruct (Qgtb t 3); [tauto |].
  destruct (Qgtb t 1); tauto.
Qed.

Lemma dwell_factor_range idz fdt w :
  let ft := snd (fst (dwell idz fdt w)) in
  ft = 0 \/ ft = 10 \/ ft = 15 \/ ft = 20.
Proof.
  destruct idz; [| left; reflexivity].
  destruct fdt; simpl; apply factor_time_range.
Qed.

Lemma factor_speed_range s :
  factor_speed s = 0 \/ factor_speed s = 5 \/ factor_speed s = 10
  \/ factor_speed s = 15 \/ factor_speed s = 20.
Proof.
  unfold factor_speed.
  destruct (Qgtb s 200); [tauto |].
  destruct (Qgtb s 100); [tauto |].
  destruct (Qgtb s 50); [tauto |].
  destruct (Qgtb s 20); tauto.
Qed.

Lemma factor_proximity_range idz cx :
  factor_proximity idz cx = 0 \/ factor_proximity idz cx = 10.
Proof.
  unfold factor_proximity.
  destruct (idz && (cx <? 100)); [tauto |].
  destruct (idz && (1180 <? cx)); tauto.
Qed.

Lemma factor_acceleration_range stored s :
  factor_acceleration stored s = 0 \/ factor_acceleration stored s = 5
  \/ factor_acceleration stored s = 10.
Proof.
  unfold factor_acceleration.
  destruct (2 <=? length stored)%nat; [| tauto].
  destruct (neg_index stored 2) as [prev |]; [| tauto].
  destruct (Qgtb (float_sub s prev) 50); [tauto |].
  destruct (Qgtb (float_sub s prev) 25); tauto.
Qed.

(** *** The factors dictionary *)

Lemma factor_sum_app l1 l2 : factor_sum (l1 ++ l2) = factor_sum l1 + factor_sum l2.
Proof.
  induction l1 as [| [k v] l1 IH]; simpl; [reflexivity |].
  unfold factor_sum in *. simpl. rewrite IH. lia.
Qed.

Lemma factor_sum_add name v l :
  0 <= v -> factor_sum (add_factor name v l) = factor_sum l + v.
Proof.
  intros Hv. unfold add_factor.
  destruct (Z.ltb_spec 0 v) as [Hpos | Hzero].
  - rewrite factor_sum_app. unfold factor_sum. simpl. lia.
  - lia.
Qed.

Lemma build_factors_sum fz ft fs fp fx fa :
  0 <= fz -> 0 <= ft -> 0 <= fs -> 0 <= fp -> 0 <= fx -> 0 <= fa ->
  factor_sum (build_factors fz ft fs fp fx fa) = fz + ft + fs + fp + fx + fa.
Proof.
  intros. unfold build_factors.
  rewrite !factor_sum_add by assumption. reflexivity.
Qed.

Lemma add_factor_positive name v l :
  Forall (fun kv => 0 < snd kv) l ->
  Forall (fun kv => 0 < snd kv) (add_factor name v l).
Proof.
  intros Hl. unfold add_factor.
  destruct (Z.ltb_spec 0 v) as [Hpos | Hzero]; [| exact Hl].
  apply Forall_app. split; [exact Hl |]. constructor; [exact Hpos | constructor].
Qed.

Lemma build_factors_positive fz ft fs fp fx fa :
  Forall (fun kv => 0 < snd kv) (build_factors fz ft fs fp fx fa).
Proof.
  unfold build_factors. repeat apply add_factor_positive. constructor.
Qed.

Lemma listed_nonneg f : 0 <= f -> listed f = f.
Proof. intros H. unfold listed. destruct (Z.ltb_spec 0 f); lia. Qed.

Lemma build_factors_get fz ft fs fp fx fa :
  let fs' := build_factors fz ft fs fp fx fa in
  factor_get "Zone" fs' = listed fz /\
  factor_get "Time" fs' = listed ft /\
  factor_get "Speed" fs' = listed fs /\
  factor_get "Posture" fs' = listed fp /\
  factor_get "Proximity" fs' = listed fx /\
  factor_get "Accel" fs' = listed fa.
Proof.
  unfold build_factors, add_factor, listed.
  destruct (0 <? fz), (0 <? ft), (0 <? fs), (0 <? fp), (0 <? fx), (0 <? fa);
    cbv; repeat split.
Qed.

(** *** Acceleration, trend and status *)

Lemma factor_acceleration_short stored sp :
  (length stored < 2)%nat -> factor_acceleration stored sp = 0.
Proof.
  intros H. unfold factor_acceleration.
  destruct (Nat.leb_spec 2 (length stored)); [lia | reflexivity].
Qed.

Lemma factor_acceleration_snoc2 l a b sp :
  factor_acceleration (l ++ [a; b]) sp =
    if Qgtb (float_sub sp a) 50 then 10
    else if Qgtb (float_sub sp a) 25 then 5 else 0.
Proof.
  unfold factor_acceleration. rewrite neg_index_snoc2.
  rewrite length_app. cbn [length].
  destruct (Nat.leb_spec 2 (length l + 2)); [reflexivity | lia].
Qed.

Lemma determine_trend_short scores :
  (length scores < 3)%nat -> determine_trend scores = "STABLE".
Proof.
  intros H. unfold determine_trend.
  destruct (Nat.leb_spec 3 (length scores)); [lia | reflexivity].
Qed.

Lemma determine_trend_snoc3 l oldest mid newest :
  determine_trend (l ++ [oldest; mid; newest]) =
    if oldest + 10 <? newest then "↑ INCREASING"
    else if newest <? oldest - 10 then "↓ DECREASING"
    else "→ STABLE".
Proof.
  unfold determine_trend, last_slice. rewrite length_app. cbn [length].
  destruct (Nat.leb_spec 3 (length l + 3)); [| lia].
  replace (length l + 3 - 3)%nat with (length l) by lia.
  rewrite drop_app_length. reflexivity.
Qed.

Lemma determine_status_cases total :
  (total < 30 -> determine_status total = ("SAFE", (0, 255, 0))) /\
  (30 <= total < 60 -> determine_status total = ("WARNING", (0, 255, 255))) /\
  (60 <= total -> determine_status total = ("CRITICAL", (0, 0, 255))).
Proof.
  unfold determine_status.
  destruct (Z.ltb_spec total 30), (Z.ltb_spec total 60);
    repeat split; intros; try reflexivity; lia.
Qed.

Lemma determine_trend_labels scores :
  determine_trend scores = "STABLE" \/ determine_trend scores = "→ STABLE"
  \/ determine_trend scores = "↑ INCREASING"
  \/ determine_trend scores = "↓ DECREASING".
Proof.
  unfold determine_trend.
  destruct (3 <=? length scores)%nat; [| tauto].
  destruct (neg_index _ 1) as [newest |]; [| tauto].
  destruct (head _) as [oldest |]; [| tauto].
  destruct (oldest + 10 <? newest); [tauto |].
  destruct (newest <? oldest - 10); tauto.
Qed.

(** *** One call, written out

    [calculate_risk] works on the profile returned by [get_profile] (the
    stored one, or a new empty one), reads the clock for [last_update],
    runs the dwell block, and reads the clock once more for the stored
    timestamp. *)

Section OneCall.

Variables (pid cx cy : Z) (idz : bool) (zn : string) (zr : Z) (sp : Q)
          (po : string) (pr : Z) (w : World).

Let p0 : PersonProfile := fst (get_profile pid w).
Let w0 : World := snd (get_profile pid w).
Let d : option Q * Z * World :=
  dwell idz (first_danger_time p0) (snd (time_time w0)).
Let total : Z :=
  Z.min 100 (factor_zone idz zr + snd (fst d) + factor_speed sp
             + factor_posture pr + factor_proximity idz cx
             + factor_acceleration (speeds p0) sp).

Lemma calculate_risk_eq :
  calculate_risk pid cx cy idz zn zr sp po pr w =
    (mkRiskInfo total
       (build_factors (factor_zone idz zr) (snd (fst d)) (factor_speed sp)
          (factor_posture pr) (factor_proximity idz cx)
          (factor_acceleration (speeds p0) sp))
       (determine_trend (deque_append (risk_scores p0) total))
       (fst (determine_status total)) (snd (determine_status total)) zn,
     mkWorld
       (<[pid := mkProfile (person_id p0)
                   (deque_append (times p0) (clock w (ticks (snd d))))
                   (deque_append (positions p0) (cx, cy))
                   (deque_append (zones p0) zn)
                   (deque_append (speeds p0) sp)
                   (deque_append (risk_scores p0) total)
                   (fst (fst d))
                   (clock w (ticks w0))]> (person_profiles w0))
       (clock w) (S (ticks (snd d)))).
Proof.
  unfold calculate_risk, bind. simpl.
  fold p0 w0. change (mkWorld (person_profiles w0) (clock w0) (S (ticks w0)))
    with (snd (time_time w0)).
  fold d.
  pose proof (dwell_clock idz (first_danger_time p0) (snd (time_time w0))) as Hc.
  pose proof (dwell_profiles idz (first_danger_time p0) (snd (time_time w0))) as Hp.
  fold d in Hc, Hp. simpl in Hc, Hp.
  assert (Hw0 : clock w0 = clock w) by apply get_profile_clock.
  destruct d as [[fdt ft] w1] eqn:Ed. simpl in *.
  fold total.
  destruct (determine_status total) as [st col]. simpl.
  unfold ret. rewrite Hc, Hp, Hw0. reflexivity.
Qed.

(** The profile left in the store by the call. *)
Lemma calculate_risk_stored :
  let r := fst (calculate_risk pid cx cy idz zn zr sp po pr w) in
  let w' := snd (calculate_risk pid cx cy idz zn zr sp po pr w) in
  exists p',
    person_profiles w' !! pid = Some p' /\
    times p' = deque_append (times p0) (clock w (pred (ticks w'))) /\
    positions p' = deque_append (positions p0) (cx, cy) /\
    zones p' = deque_append (zones p0) zn /\
    speeds p' = deque_append (speeds p0) sp /\
    risk_scores p' = deque_append (risk_scores p0) (score r) /\
    first_danger_time p' = fst (fst d).
Proof.
  rewrite calculate_risk_eq. cbn [fst snd person_profiles ticks score pred].
  eexists. split; [apply lookup_insert_eq |].
  cbn. repeat split.
Qed.

Lemma calculate_risk_other pid' :
  pid' <> pid ->
  person_profiles (snd (calculate_risk pid cx cy idz zn zr sp po pr w)) !! pid'
  = person_profiles w !! pid'.
Proof.
  intros Hne. rewrite calculate_risk_eq. cbn [snd person_profiles].
  rewrite lookup_insert_ne by congruence.
  apply get_profile_other. exact Hne.
Qed.

(** The dwell-time factor is listed under "Time" whenever it is not 0. *)
Lemma calculate_risk_time_factor :
  factor_get "Time" (factors (fst (calculate_risk pid cx cy idz zn zr sp po pr w)))
  = snd (fst d).
Proof.
  rewrite calculate_risk_eq. cbn [fst factors].
  match goal with
  | |- context [build_factors ?a ?b ?c ?e ?f ?g] =>
      destruct (build_factors_get a b c e f g) as (_ & Gt & _)
  end.
  rewrite Gt. apply listed_nonneg.
  pose proof (dwell_factor_range idz (first_danger_time p0) (snd (time_time w0))) as R.
  cbv zeta in R. fold d in R. lia.
Qed.

Lemma calculate_risk_clock :
  clock (snd (calculate_risk pid cx cy idz zn zr sp po pr w)) = clock w.
Proof. rewrite calculate_risk_eq. reflexivity. Qed.

End OneCall.

End RiskFacts.

(** ** Properties of a single call to [calculate_risk] *)

Module RiskScore.

Import RiskEngine Session DequeFacts RiskFacts.
Local Open Scope string_scope.
Local Open Scope Z_scope.

(** C1, as stated, fails. With all inputs in their documented ranges the
    six factors can add up to more than 100: the score is then capped at
    100 while the returned mapping lists the uncapped contributions
    (110 here). And the total has no lower clamp: a negative zone risk
    gives a negative score although the posture risk is in [0,50]. *)
Lemma C1_counterexample :
  let r := fst (call rushes_bending (run [enters_zone] (fresh clock_0_then_6))) in
  let r' := fst (call negative_zone (fresh clock_0_then_6)) in
  (0 <= arg_posture_risk rushes_bending <= 50 /\
   score r = 100 /\ factor_sum (factors r) = 110 /\
   score r <> factor_sum (factors r)) /\
  (0 <= arg_posture_risk negative_zone <= 50 /\ score r' = -5 /\ ~ 0 <= score r').
Proof. vm_compute. repeat split; congruence. Qed.

(** C1 (amended): for every call with a non-negative zone risk and a
    posture risk in [0,50], the score is an integer in [0,100]; it is the
    sum of the six factors (zone, dwell time, speed, posture, proximity,
    acceleration) capped at 100; the returned mapping lists exactly the
    positive factors, so the score is the minimum of 100 and the sum of
    the listed contributions, and equals that sum whenever it does not
    exceed 100. *)
Theorem C1_score_capped_sum_of_factors
    (pid cx cy : Z) (idz : bool) (zn : string) (zr : Z) (sp : Q)
    (po : string) (pr : Z) (w : World) :
  0 <= zr -> 0 <= pr <= 50 ->
  let r := fst (calculate_risk pid cx cy idz zn zr sp po pr w) in
  let fs := factors r in
  0 <= score r <= 100 /\
  score r = Z.min 100 (factor_sum fs) /\
  (factor_sum fs <= 100 -> score r = factor_sum fs) /\
  factor_sum fs =
    factor_get "Zone" fs + factor_get "Time" fs + factor_get "Speed" fs
    + factor_get "Posture" fs + factor_get "Proximity" fs + factor_get "Accel" fs /\
  factor_get "Zone" fs = factor_zone idz zr /\
  (factor_get "Time" fs = 0 \/ factor_get "Time" fs = 10
   \/ factor_get "Time" fs = 15 \/ factor_get "Time" fs = 20) /\
  factor_get "Speed" fs = factor_speed sp /\
  factor_get "Posture" fs = Z.min 20 pr /\
  factor_get "Proximity" fs = factor_proximity idz cx /\
  factor_get "Accel" fs = factor_acceleration (speeds (fst (get_profile pid w))) sp /\
  Forall (fun kv => 0 < snd kv) fs.
Proof.
  intros Hzr Hpr r fs. subst fs r.
  rewrite calculate_risk_eq. cbn [fst score factors].
  set (p0 := fst (get_profile pid w)).
  set (d := dwell idz _ _).
  pose proof (dwell_factor_range idz (first_danger_time p0)
                (snd (time_time (snd (get_profile pid w))))) as Hft.
  cbv zeta in Hft. fold p0 in Hft. fold d in Hft.
  set (ft := snd (fst d)) in *.
  pose proof (factor_speed_range sp) as Hfs.
  pose proof (factor_proximity_range idz cx) as Hfx.
  pose proof (factor_acceleration_range (speeds p0) sp) as Hfa.
  assert (Hfz : 0 <= factor_zone idz zr) by (destruct idz; simpl; lia).
  assert (Hfp : 0 <= factor_posture pr) by (unfold factor_posture; lia).
  destruct (build_factors_get (factor_zone idz zr) ft (factor_speed sp)
              (factor_posture pr) (factor_proximity idz cx)
              (factor_acceleration (speeds p0) sp))
    as (Gz & Gt & Gs & Gp & Gx & Ga).
  rewrite Gz, Gt, Gs, Gp, Gx, Ga.
  rewrite !listed_nonneg by lia.
  rewrite build_factors_sum by lia.
  unfold factor_posture in *.
  repeat split; try lia.
  apply build_factors_positive.
Qed.

Lemma C1_score_capped_sum_of_factors_witness :
  let r := fst (call rushes_bending (run [enters_zone] (fresh clock_0_then_6))) in
  score r = Z.min 100 (factor_sum (factors r)).
Proof.
  apply (C1_score_capped_sum_of_factors 7 50 300 true "HEAVY_MACHINERY" 40 250%Q
           "BENDING" 25 (run [enters_zone] (fresh clock_0_then_6)));
    lia.
Defined.

(** C3: when the profile already holds at least two stored speeds
    [.. a; b], the acceleration delta is the current speed minus [a], the
    stored speed before last ([profile.speeds[-2]] read before the append),
    as the float subtraction computes it (the difference rounded to the
    nearest double), and the factor is 10 if the delta exceeds 50, 5 if it
    exceeds 25, else 0; the current speed is appended afterwards. With
    fewer than two stored speeds the factor is 0. *)
Theorem C3_acceleration_lookback
    (pid cx cy : Z) (idz : bool) (zn : string) (zr : Z) (sp : Q)
    (po : string) (pr : Z) (w : World) :
  let r := fst (calculate_risk pid cx cy idz zn zr sp po pr w) in
  let w' := snd (calculate_risk pid cx cy idz zn zr sp po pr w) in
  (forall (p : PersonProfile) (l : list Q) (a b : Q),
      person_profiles w !! pid = Some p -> speeds p = (l ++ [a; b])%list ->
      let delta := float_sub sp a in
      ((50 < delta)%Q -> factor_get "Accel" (factors r) = 10) /\
      ((25 < delta)%Q -> (delta <= 50)%Q -> factor_get "Accel" (factors r) = 5) /\
      ((delta <= 25)%Q -> factor_get "Accel" (factors r) = 0) /\
      exists p', person_profiles w' !! pid = Some p' /\
                 speeds p' = deque_append (l ++ [a; b])%list sp) /\
  ((length (speeds (fst (get_profile pid w))) < 2)%nat ->
   factor_get "Accel" (factors r) = 0).
Proof.
  intros r w'.
  assert (Hget : factor_get "Accel" (factors r)
                 = factor_acceleration (speeds (fst (get_profile pid w))) sp).
  { subst r. rewrite calculate_risk_eq. cbn [fst factors].
    match goal with
    | |- context [build_factors ?a ?b ?c ?e ?f ?g] =>
        destruct (build_factors_get a b c e f g) as (_ & _ & _ & _ & _ & Ga)
    end.
    rewrite Ga. apply listed_nonneg.
    destruct (factor_acceleration_range (speeds (fst (get_profile pid w))) sp)
      as [E | [E | E]]; rewrite E; lia. }
  split.
  - intros p l a b Hp Hs delta.
    rewrite Hget, (get_profile_hit _ _ _ Hp). cbn [fst].
    rewrite Hs, factor_acceleration_snoc2. fold delta.
    repeat split.
    + intros H. apply Qgtb_true in H. rewrite H. reflexivity.
    + intros H1 H2. apply Qgtb_true in H1. apply Qgtb_false in H2.
      rewrite H2, H1. reflexivity.
    + intros H.
      assert (H50 : (delta <= 50)%Q) by lra.
      apply Qgtb_false in H, H50. rewrite H50, H. reflexivity.
    + destruct (calculate_risk_stored pid cx cy idz zn zr sp po pr w)
        as (p' & Hp' & _ & _ & _ & Hsp & _).
      exists p'. split; [exact Hp' |].
      rewrite Hsp, (get_profile_hit _ _ _ Hp). cbn [fst]. rewrite Hs. reflexivity.
  - intros Hlen. rewrite Hget. apply factor_acceleration_short. exact Hlen.
Qed.

(** After 10 px/s and 100 px/s, 70 px/s is 60 above the stored speed
    before last: factor 10. After [2.0 / 1.5] and 100 px/s, the speed
    [77.0 / 1.5] exceeds the stored speed before last by more than 50 as a
    rational, and by the double 50.0 as the code computes the difference:
    the factor is 5. *)
Lemma C3_acceleration_lookback_witness :
  (let w := run [at_speed 10; at_speed 100] (fresh clock_0_then_6) in
   factor_get "Accel" (factors (fst (call (at_speed 70) w))) = 10) /\
  (let w := run [at_speed speed_2px; at_speed 100] (fresh clock_0_then_6) in
   (50 < speed_77px - speed_2px)%Q /\
   (float_sub speed_77px speed_2px == 50)%Q /\
   factor_get "Accel" (factors (fst (call (at_speed speed_77px) w))) = 5).
Proof.
  split.
  - intros w.
    apply (C3_acceleration_lookback 7 500 50 false "SAFE" 0 70%Q "STANDING" 0 w)
      with (p := mkProfile 7 [0%Q; 0%Q] [(500, 50); (500, 50)] ["SAFE"; "SAFE"]
                   [10%Q; 100%Q] [0; 10] None 0%Q)
           (l := []) (a := 10%Q) (b := 100%Q).
    + vm_compute. reflexivity.
    + reflexivity.
    + vm_compute. reflexivity.
  - intros w.
    split; [vm_compute; reflexivity |].
    split; [vm_compute; reflexivity |].
    apply (C3_acceleration_lookback 7 500 50 false "SAFE" 0 speed_77px
             "STANDING" 0 w)
      with (p := mkProfile 7 [0%Q; 0%Q] [(500, 50); (500, 50)] ["SAFE"; "SAFE"]
                   [speed_2px; 100%Q] [0; 10] None 0%Q)
           (l := []) (a := speed_2px) (b := 100%Q).
    + vm_compute. reflexivity.
    + reflexivity.
    + vm_compute. reflexivity.
    + vm_compute. discriminate.
Defined.

(** C4: the status is SAFE when the (capped) score is below 30, WARNING
    when it is at least 30 and below 60, CRITICAL from 60 on; a score of
    exactly 60 is CRITICAL. An identity whose dwell start [t0] in a
    risk-40 zone lies more than 5 seconds before the dwell reading of the
    call, with posture risk 0 and no speed, proximity or acceleration
    contribution, scores 40 + 20 = 60 and is CRITICAL. *)
Theorem C4_status_thresholds
    (pid cx cy : Z) (idz : bool) (zn : string) (zr : Z) (sp : Q)
    (po : string) (pr : Z) (w : World) :
  let r := fst (calculate_risk pid cx cy idz zn zr sp po pr w) in
  (score r < 30 -> status r = "SAFE") /\
  (30 <= score r < 60 -> status r = "WARNING") /\
  (60 <= score r -> status r = "CRITICAL") /\
  (score r = 60 -> status r = "CRITICAL") /\
  (forall (p : PersonProfile) (t0 : Q),
      person_profiles w !! pid = Some p -> first_danger_time p = Some t0 ->
      idz = true -> zr = 40 ->
      (5 < clock w (S (ticks w)) - t0)%Q ->
      pr = 0 -> factor_speed sp = 0 -> factor_proximity idz cx = 0 ->
      factor_acceleration (speeds p) sp = 0 ->
      score r = 60 /\ status r = "CRITICAL"
      /\ factors r = [("Zone", 40); ("Time", 20)]).
Proof.
  intros r.
  assert (Hst : status r = fst (determine_status (score r))).
  { subst r. rewrite calculate_risk_eq. reflexivity. }
  destruct (determine_status_cases (score r)) as (Hsafe & Hwarn & Hcrit).
  split; [intros H; rewrite Hst, (Hsafe H); reflexivity |].
  split; [intros H; rewrite Hst, (Hwarn H); reflexivity |].
  split; [intros H; rewrite Hst, (Hcrit H); reflexivity |].
  split; [intros H; rewrite Hst, Hcrit by lia; reflexivity |].
  intros p t0 Hp Hstart -> -> Hdwell -> Hs Hx Ha.
  apply Qgtb_true in Hdwell.
  subst r. rewrite calculate_risk_eq. cbn [fst score status factors].
  rewrite (get_profile_hit _ _ _ Hp). cbn [fst snd].
  rewrite Hstart, dwell_staying. cbn [fst snd time_time clock ticks].
  rewrite Hs, Hx, Ha. unfold factor_time. rewrite Hdwell.
  repeat split.
Qed.

Lemma C4_status_thresholds_witness :
  let r := fst (call stands_inside (run [stands_inside] (fresh clock_0_then_6))) in
  score r = 60 /\ status r = "CRITICAL" /\ factors r = [("Zone", 40); ("Time", 20)].
Proof.
  intros r.
  refine (proj2 (proj2 (proj2 (proj2
    (C4_status_thresholds 7 600 400 true "HEAVY_MACHINERY" 40 0%Q "STANDING" 0
       (run [stands_inside] (fresh clock_0_then_6))))))
    (mkProfile 7 [0%Q] [(600, 400)] ["HEAVY_MACHINERY"] [0%Q] [40] (Some 0%Q) 0%Q)
    0%Q _ _ _ _ _ _ _ _ _);
    try reflexivity.
Defined.

(** C9: the trend is decided on the stored scores after the new score has
    been appended. With fewer than three stored scores it is "STABLE";
    otherwise, with [oldest] and [newest] the first and last of the three
    most recent stored scores ([newest] being the score just returned), it
    is the INCREASING label when [newest > oldest + 10], the DECREASING
    label when [newest < oldest - 10], and the STABLE label otherwise. *)
Theorem C9_trend_of_recent_scores
    (pid cx cy : Z) (idz : bool) (zn : string) (zr : Z) (sp : Q)
    (po : string) (pr : Z) (w : World) :
  let r := fst (calculate_risk pid cx cy idz zn zr sp po pr w) in
  let w' := snd (calculate_risk pid cx cy idz zn zr sp po pr w) in
  exists p',
    person_profiles w' !! pid = Some p' /\
    last (risk_scores p') = Some (score r) /\
    ((length (risk_scores p') < 3)%nat -> trend r = "STABLE") /\
    (forall (l : list Z) (oldest mid newest : Z),
        risk_scores p' = (l ++ [oldest; mid; newest])%list ->
        newest = score r /\
        (oldest + 10 < newest -> trend r = "↑ INCREASING") /\
        (newest < oldest - 10 -> trend r = "↓ DECREASING") /\
        (oldest - 10 <= newest <= oldest + 10 -> trend r = "→ STABLE")) /\
    (trend r = "STABLE" \/ trend r = "→ STABLE"
     \/ trend r = "↑ INCREASING" \/ trend r = "↓ DECREASING").
Proof.
  intros r w'.
  destruct (calculate_risk_stored pid cx cy idz zn zr sp po pr w)
    as (p' & Hp' & _ & _ & _ & _ & Hrs & _).
  fold r in Hrs. fold w' in Hp'.
  assert (Htr : trend r = determine_trend (risk_scores p')).
  { rewrite Hrs. subst r. rewrite calculate_risk_eq. reflexivity. }
  exists p'. split; [exact Hp' |].
  split; [rewrite Hrs; apply deque_append_last |].
  split; [intros Hlen; rewrite Htr; apply determine_trend_short; exact Hlen |].
  split; [| rewrite Htr; apply determine_trend_labels].
  intros l oldest mid newest Hl.
  assert (Hnew : newest = score r).
  { pose proof (deque_append_last (risk_scores (fst (get_profile pid w))) (score r)) as HL.
    rewrite <- Hrs, Hl in HL.
    change (l ++ [oldest; mid; newest])%list
      with (l ++ [oldest; mid] ++ [newest])%list in HL.
    rewrite app_assoc, last_snoc in HL. congruence. }
  split; [exact Hnew |].
  rewrite Htr, Hl, determine_trend_snoc3.
  repeat split; intros H.
  - destruct (Z.ltb_spec (oldest + 10) newest); [reflexivity | lia].
  - destruct (Z.ltb_spec (oldest + 10) newest); [lia |].
    destruct (Z.ltb_spec newest (oldest - 10)); [reflexivity | lia].
  - destruct (Z.ltb_spec (oldest + 10) newest); [lia |].
    destruct (Z.ltb_spec newest (oldest - 10)); [lia | reflexivity].
Qed.

Lemma C9_trend_of_recent_scores_witness :
  trend (fst (call (zone_only 40)
                (run [zone_only 20; zone_only 25] (fresh (fun _ => 0%Q)))))
    = "↑ INCREASING"
  /\ trend (fst (call (zone_only 35)
                   (run [zone_only 40; zone_only 38] (fresh (fun _ => 0%Q)))))
    = "→ STABLE".
Proof.
  split.
  - destruct (C9_trend_of_recent_scores 7 600 400 true "ZONE" 40 0%Q "STANDING" 0
                (run [zone_only 20; zone_only 25] (fresh (fun _ => 0%Q))))
      as (p' & Hp' & _ & _ & Hthree & _).
    vm_compute in Hp'. injection Hp' as Hp'.
    refine (proj1 (proj2 (Hthree [] 20 25 40 _)) _).
    + rewrite <- Hp'. reflexivity.
    + lia.
  - destruct (C9_trend_of_recent_scores 7 600 400 true "ZONE" 35 0%Q "STANDING" 0
                (run [zone_only 40; zone_only 38] (fresh (fun _ => 0%Q))))
      as (p' & Hp' & _ & _ & Hthree & _).
    vm_compute in Hp'. injection Hp' as Hp'.
    refine (proj2 (proj2 (proj2 (Hthree [] 40 38 35 _))) _).
    + rewrite <- Hp'. reflexivity.
    + lia.
Defined.

End RiskScore.

(** ** The dwell timer *)

Module RiskDwell.

Import RiskEngine Session DequeFacts RiskFacts.
Local Open Scope string_scope.
Local Open Scope Z_scope.

(** C7: after every call the dwell start [first_danger_time] of the
    identity's profile is set exactly when the call was made with
    [in_danger_zone] true. A call outside every zone clears it, so on a
    re-entry right after an exit the dwell start is the clock reading
    [t_enter] taken during the re-entry call, and the elapsed dwell time is
    the difference between the next reading [t_dwell] of that same call
    and [t_enter]: it does not depend on any earlier entry. *)
Theorem C7_dwell_start_tracks_zone (pid : Z) :
  (forall (cx cy : Z) (idz : bool) (zn : string) (zr : Z) (sp : Q)
          (po : string) (pr : Z) (w : World),
      exists p',
        person_profiles (snd (calculate_risk pid cx cy idz zn zr sp po pr w)) !! pid
          = Some p' /\
        (first_danger_time p' <> None <-> idz = true)) /\
  (forall (cx1 cy1 : Z) (zn1 : string) (zr1 : Z) (sp1 : Q) (po1 : string) (pr1 : Z)
          (cx2 cy2 : Z) (zn2 : string) (zr2 : Z) (sp2 : Q) (po2 : string) (pr2 : Z)
          (w : World),
      let w1 := snd (calculate_risk pid cx1 cy1 false zn1 zr1 sp1 po1 pr1 w) in
      let r2 := fst (calculate_risk pid cx2 cy2 true zn2 zr2 sp2 po2 pr2 w1) in
      let w2 := snd (calculate_risk pid cx2 cy2 true zn2 zr2 sp2 po2 pr2 w1) in
      let t_enter := clock w (S (ticks w1)) in
      let t_dwell := clock w (S (S (ticks w1))) in
      (exists p1, person_profiles w1 !! pid = Some p1 /\ first_danger_time p1 = None) /\
      (exists p2, person_profiles w2 !! pid = Some p2
                  /\ first_danger_time p2 = Some t_enter) /\
      factor_get "Time" (factors r2) = factor_time (t_dwell - t_enter)%Q /\
      ((t_dwell - t_enter <= 1)%Q -> factor_get "Time" (factors r2) = 0)).
Proof.
  split.
  - intros cx cy idz zn zr sp po pr w.
    destruct (calculate_risk_stored pid cx cy idz zn zr sp po pr w)
      as (p' & Hp' & _ & _ & _ & _ & _ & Hfdt).
    exists p'. split; [exact Hp' |].
    rewrite Hfdt. rewrite <- dwell_start.
    split; [intros H | intros [t Ht]; rewrite Ht; discriminate].
    destruct (fst (fst (dwell _ _ _))); [eauto | congruence].
  - intros cx1 cy1 zn1 zr1 sp1 po1 pr1 cx2 cy2 zn2 zr2 sp2 po2 pr2 w
           w1 r2 w2 t_enter t_dwell.
    destruct (calculate_risk_stored pid cx1 cy1 false zn1 zr1 sp1 po1 pr1 w)
      as (p1 & Hp1 & _ & _ & _ & _ & _ & Hfdt1).
    fold w1 in Hp1. rewrite dwell_outside in Hfdt1. cbn [fst] in Hfdt1.
    assert (Hclk : clock w1 = clock w) by apply calculate_risk_clock.
    assert (Htime : factor_get "Time" (factors r2)
                    = factor_time (t_dwell - t_enter)%Q).
    { subst r2. rewrite calculate_risk_time_factor.
      rewrite (get_profile_hit _ _ _ Hp1). cbn [fst snd].
      rewrite Hfdt1, dwell_entering. cbn [fst snd time_time clock ticks].
      rewrite Hclk. reflexivity. }
    split; [exists p1; split; assumption |].
    split.
    + destruct (calculate_risk_stored pid cx2 cy2 true zn2 zr2 sp2 po2 pr2 w1)
        as (p2 & Hp2 & _ & _ & _ & _ & _ & Hfdt2).
      exists p2. split; [exact Hp2 |].
      rewrite Hfdt2, (get_profile_hit _ _ _ Hp1). cbn [fst snd].
      rewrite Hfdt1, dwell_entering. cbn [fst snd time_time clock ticks].
      rewrite Hclk. reflexivity.
    + split; [exact Htime |].
      intros Hshort. rewrite Htime. unfold factor_time.
      assert (H3 : (t_dwell - t_enter <= 3)%Q) by lra.
      assert (H5 : (t_dwell - t_enter <= 5)%Q) by lra.
      apply Qgtb_false in Hshort, H3, H5.
      rewrite H5, H3, Hshort. reflexivity.
Qed.

Lemma C7_dwell_start_tracks_zone_witness :
  let w := run [stands_inside] (fresh clock_0_6_7) in
  let w1 := snd (calculate_risk 7 600 50 false "SAFE" 0 0%Q "STANDING" 0 w) in
  factor_get "Time"
    (factors (fst (calculate_risk 7 600 400 true "HEAVY_MACHINERY" 40 0%Q "STANDING" 0 w1)))
  = 0.
Proof.
  intros w w1.
  refine (proj2 (proj2 (proj2 (proj2 (C7_dwell_start_tracks_zone 7)
            600 50 "SAFE" 0 0%Q "STANDING" 0
            600 400 "HEAVY_MACHINERY" 40 0%Q "STANDING" 0 w))) _).
  vm_compute. discriminate.
Defined.

End RiskDwell.

(** ** The bounded histories over a session *)

Module RiskHistory.

Import RiskEngine Session DequeFacts RiskFacts.
Local Open Scope string_scope.
Local Open Scope Z_scope.

Lemma run_snoc cs c w : run (cs ++ [c]) w = snd (call c (run cs w)).
Proof. unfold run. rewrite fold_left_app. reflexivity. Qed.

Lemma observations_snoc pid cs c w :
  observations pid (cs ++ [c]) w =
    (observations pid cs w
     ++ if decide (arg_person_id c = pid) then [observe c (run cs w)] else [])%list.
Proof.
  revert w. induction cs as [| c0 cs IH]; intros w; simpl.
  - destruct (decide (arg_person_id c = pid)); reflexivity.
  - rewrite IH. destruct (decide (arg_person_id c0 = pid)); reflexivity.
Qed.

Lemma observations_length pid cs w :
  length (observations pid cs w) = length (calls_of pid cs).
Proof.
  revert w. unfold calls_of. induction cs as [| c cs IH]; intros w; simpl.
  - reflexivity.
  - rewrite filter_cons.
    destruct (decide (arg_person_id c = pid)); simpl; rewrite IH; reflexivity.
Qed.

Lemma tracks_new pid t : tracks (mkProfile pid [] [] [] [] [] None t) [].
Proof. repeat split. Qed.

(** One more call for the same identity appends its observation. *)
Lemma tracks_call c w obs :
  tracks (fst (get_profile (arg_person_id c) w)) obs ->
  exists p', profile_of (arg_person_id c) (snd (call c w)) = Some p'
             /\ tracks p' (obs ++ [observe c w]).
Proof.
  intros (Ht & Hp & Hz & Hs & Hr).
  destruct (calculate_risk_stored (arg_person_id c) (arg_cx c) (arg_cy c)
              (arg_in_danger_zone c) (arg_zone_name c) (arg_zone_risk c)
              (arg_speed c) (arg_posture c) (arg_posture_risk c) w)
    as (p' & Hp' & Et & Ep & Ez & Es & Er & _).
  exists p'. split; [exact Hp' |].
  unfold tracks. rewrite !map_app. cbn [map observe obs_time obs_position
    obs_zone obs_speed obs_score].
  rewrite !last_slice_snoc, <- Ht, <- Hp, <- Hz, <- Hs, <- Hr.
  repeat split; assumption.
Qed.

(** The invariant of a session that starts with an empty store. *)
Lemma run_tracks clk cs pid :
  match profile_of pid (run cs (fresh clk)) with
  | Some p => tracks p (observations pid cs (fresh clk))
  | None => observations pid cs (fresh clk) = []
  end.
Proof.
  induction cs as [| c cs IH] using rev_ind.
  - reflexivity.
  - rewrite run_snoc, observations_snoc.
    set (w := run cs (fresh clk)) in *.
    destruct (decide (arg_person_id c = pid)) as [<- | Hne].
    + assert (Hentry : tracks (fst (get_profile (arg_person_id c) w))
                         (observations (arg_person_id c) cs (fresh clk))).
      { unfold profile_of in IH.
        destruct (person_profiles w !! arg_person_id c) as [p |] eqn:E.
        - rewrite (get_profile_hit _ _ _ E). exact IH.
        - rewrite (get_profile_miss _ _ E), IH. apply tracks_new. }
      destruct (tracks_call c w _ Hentry) as (p' & Hp' & Ht).
      rewrite Hp'. exact Ht.
    + unfold profile_of, call.
      rewrite calculate_risk_other by congruence.
      rewrite app_nil_r. exact IH.
Qed.

Lemma tracks_lengths p obs :
  tracks p obs ->
  history_lengths p = repeat (Nat.min (length obs) maxlen) 5.
Proof.
  intros (Ht & Hp & Hz & Hs & Hr). unfold history_lengths.
  rewrite Ht, Hp, Hz, Hs, Hr, !last_slice_length, !length_map. reflexivity.
Qed.

Lemma last_slice_last {A : Type} (l : list A) (x : A) :
  last (last_slice (l ++ [x]) maxlen) = Some x.
Proof. rewrite last_slice_snoc. apply deque_append_last. Qed.

Lemma tracks_latest p obs o :
  tracks p (obs ++ [o]) ->
  last (times p) = Some (obs_time o) /\
  last (positions p) = Some (obs_position o) /\
  last (zones p) = Some (obs_zone o) /\
  last (speeds p) = Some (obs_speed o) /\
  last (risk_scores p) = Some (obs_score o).
Proof.
  intros (Ht & Hp & Hz & Hs & Hr).
  rewrite Ht, Hp, Hz, Hs, Hr, !map_app. cbn [map].
  rewrite !last_slice_last. repeat split.
Qed.

(** C6: in every session that starts with an empty store, each of the
    five bounded histories of a profile (timestamps, positions, zone
    labels, speeds, risk scores) holds the last 100 observations recorded
    for that identity, oldest first: it never exceeds 100 entries, on
    overflow the oldest entry is the one dropped, and the most recent
    observation is the last entry. After 150 observations for one
    identity each history holds exactly 100 entries. *)
Theorem C6_histories_bounded
    (clk : nat -> Q) (cs : list Call) (pid : Z) (p : PersonProfile) :
  profile_of pid (run cs (fresh clk)) = Some p ->
  let obs := observations pid cs (fresh clk) in
  let n := length (calls_of pid cs) in
  length obs = n /\
  tracks p obs /\
  history_lengths p = repeat (Nat.min n 100) 5 /\
  Forall (fun k => (k <= 100)%nat) (history_lengths p) /\
  (n = 150%nat -> history_lengths p = repeat 100%nat 5) /\
  (forall o : Observation,
      last obs = Some o ->
      last (times p) = Some (obs_time o) /\
      last (positions p) = Some (obs_position o) /\
      last (zones p) = Some (obs_zone o) /\
      last (speeds p) = Some (obs_speed o) /\
      last (risk_scores p) = Some (obs_score o)).
Proof.
  intros Hp obs n.
  pose proof (run_tracks clk cs pid) as Htr. rewrite Hp in Htr. fold obs in Htr.
  assert (Hn : length obs = n) by apply observations_length.
  assert (Hlen : history_lengths p = repeat (Nat.min n 100) 5).
  { rewrite (tracks_lengths _ _ Htr), Hn. reflexivity. }
  split; [exact Hn |]. split; [exact Htr |]. split; [exact Hlen |].
  split; [| split].
  - rewrite Hlen. cbn [repeat]. repeat (constructor; [lia |]). constructor.
  - intros H150. rewrite Hlen, H150. reflexivity.
  - intros o Hlast. apply last_Some in Hlast as [obs' Hobs].
    apply (tracks_latest p obs'). rewrite <- Hobs. exact Htr.
Qed.

Lemma C6_histories_bounded_witness :
  exists p,
    profile_of 7 (run observed_150_times (fresh (fun _ => 0%Q))) = Some p /\
    history_lengths p = repeat 100%nat 5.
Proof.
  destruct (profile_of 7 (run observed_150_times (fresh (fun _ => 0%Q))))
    as [p |] eqn:E; [| vm_compute in E; discriminate].
  exists p. split; [reflexivity |].
  apply (C6_histories_bounded (fun _ => 0%Q) observed_150_times 7 p E).
  vm_compute. reflexivity.
Defined.

(** C10: in every session that starts with an empty store, the five
    histories of a profile have the same length after every call: a call
    appends exactly one entry to each of the five deques of its identity,
    and the deques share one capacity, so they also evict together. *)
Theorem C10_histories_equal_length :
  (forall (clk : nat -> Q) (cs : list Call) (pid : Z) (p : PersonProfile),
      profile_of pid (run cs (fresh clk)) = Some p ->
      length (times p) = length (positions p) /\
      length (positions p) = length (zones p) /\
      length (zones p) = length (speeds p) /\
      length (speeds p) = length (risk_scores p)) /\
  (forall (c : Call) (w : World),
      let p0 := fst (get_profile (arg_person_id c) w) in
      exists (p' : PersonProfile) (t : Q),
        profile_of (arg_person_id c) (snd (call c w)) = Some p' /\
        times p' = deque_append (times p0) t /\
        positions p' = deque_append (positions p0) (arg_cx c, arg_cy c) /\
        zones p' = deque_append (zones p0) (arg_zone_name c) /\
        speeds p' = deque_append (speeds p0) (arg_speed c) /\
        risk_scores p' = deque_append (risk_scores p0) (score (fst (call c w)))).
Proof.
  split.
  - intros clk cs pid p Hp.
    pose proof (run_tracks clk cs pid) as Htr. rewrite Hp in Htr.
    pose proof (tracks_lengths _ _ Htr) as Hlen.
    unfold history_lengths in Hlen. cbn [repeat] in Hlen.
    injection Hlen as -> -> -> -> ->. repeat split.
  - intros c w p0.
    destruct (calculate_risk_stored (arg_person_id c) (arg_cx c) (arg_cy c)
                (arg_in_danger_zone c) (arg_zone_name c) (arg_zone_risk c)
                (arg_speed c) (arg_posture c) (arg_posture_risk c) w)
      as (p' & Hp' & Et & Ep & Ez & Es & Er & _).
    exists p'. eexists. split; [exact Hp' |].
    split; [exact Et |]. repeat split; assumption.
Qed.

Lemma C10_histories_equal_length_witness :
  exists p,
    profile_of 1 (run two_people (fresh (fun _ => 0%Q))) = Some p /\
    length (times p) = length (positions p) /\
    length (positions p) = length (zones p) /\
    length (zones p) = length (speeds p) /\
    length (speeds p) = length (risk_scores p).
Proof.
  eexists. split; [vm_compute; reflexivity |].
  apply (proj1 C10_histories_equal_length (fun _ => 0%Q) two_people 1).
  vm_compute. reflexivity.
Defined.

End RiskHistory.

(** ** Zone classification *)

Module ZoneClassification.

Import ZoneUtils.
Local Open Scope string_scope.
Local Open Scope Z_scope.

Section FirstMatch.

Variable pointPolygonTest : list (Z * Z) -> Z * Z -> Z.

Lemma classify_skip before rest point :
  Forall (outside pointPolygonTest point) before ->
  classify pointPolygonTest (before ++ rest) point
  = classify pointPolygonTest rest point.
Proof.
  induction 1 as [| [zone_name zone_info] before Hout _ IH]; [reflexivity |].
  unfold outside in Hout. simpl in *.
  destruct (Z.leb_spec 0 (pointPolygonTest (coords zone_info) point)); [lia |].
  exact IH.
Qed.

Lemma classify_none zones point :
  Forall (outside pointPolygonTest point) zones ->
  classify pointPolygonTest zones point = (false, "SAFE", 0).
Proof.
  intros H. rewrite <- (app_nil_r zones). rewrite classify_skip by exact H.
  reflexivity.
Qed.

End FirstMatch.

(** C2: the zones are tested in declaration order and a point on the
    boundary of a polygon (test result 0) counts as inside; the result is
    (True, name, base risk) of the first zone whose polygon contains the
    point, whatever zones are declared after it and whatever their risk;
    when no zone contains the point the result is (False, "SAFE", 0). *)
Theorem C2_first_matching_zone
    (pointPolygonTest : list (Z * Z) -> Z * Z -> Z)
    (zones : list (string * ZoneInfo)) (cx cy : Z) :
  (forall (before after : list (string * ZoneInfo))
          (zone_name : string) (zone_info : ZoneInfo),
      zones = (before ++ (zone_name, zone_info) :: after)%list ->
      Forall (outside pointPolygonTest (cx, cy)) before ->
      0 <= pointPolygonTest (coords zone_info) (cx, cy) ->
      classify pointPolygonTest zones (cx, cy) = (true, zone_name, risk zone_info)) /\
  (Forall (outside pointPolygonTest (cx, cy)) zones ->
   classify pointPolygonTest zones (cx, cy) = (false, "SAFE", 0)) /\
  is_person_in_danger_zone pointPolygonTest cx cy
  = classify pointPolygonTest DANGER_ZONES (cx, cy).
Proof.
  split; [| split; [apply classify_none | reflexivity]].
  intros before after zone_name zone_info -> Hbefore Hin.
  rewrite classify_skip by exact Hbefore. simpl.
  destruct (Z.leb_spec 0 (pointPolygonTest (coords zone_info) (cx, cy)));
    [reflexivity | lia].
Qed.

Lemma C2_first_matching_zone_witness :
  is_person_in_danger_zone crossing_test 600 300 = (true, "HEAVY_MACHINERY", 40) /\
  classify crossing_test electrical_first (600, 300) = (true, "ELECTRICAL", 35) /\
  classify crossing_test electrical_first (500, 300) = (true, "ELECTRICAL", 35) /\
  is_person_in_danger_zone crossing_test 50 50 = (false, "SAFE", 0).
Proof.
  split; [| split; [| split]].
  - refine (proj1 (C2_first_matching_zone crossing_test DANGER_ZONES 600 300)
              [] _ "HEAVY_MACHINERY" _ eq_refl _ _).
    + constructor.
    + vm_compute. discriminate.
  - refine (proj1 (C2_first_matching_zone crossing_test electrical_first 600 300)
              [] _ "ELECTRICAL" _ eq_refl _ _).
    + constructor.
    + vm_compute. discriminate.
  - refine (proj1 (C2_first_matching_zone crossing_test electrical_first 500 300)
              [] _ "ELECTRICAL" _ eq_refl _ _).
    + constructor.
    + vm_compute. discriminate.
  - refine (proj1 (proj2 (C2_first_matching_zone crossing_test DANGER_ZONES 50 50)) _).
    repeat constructor.
Defined.

(** The configured zones on a few points: inside one zone, in the overlap
    of two, on a corner, on an edge, and outside all. *)
Example classify_configured_zones :
  is_person_in_danger_zone crossing_test 600 160 = (true, "ELECTRICAL", 35) /\
  is_person_in_danger_zone crossing_test 600 300 = (true, "HEAVY_MACHINERY", 40) /\
  is_person_in_danger_zone crossing_test 300 200 = (true, "HEAVY_MACHINERY", 40) /\
  is_person_in_danger_zone crossing_test 100 200 = (true, "CHEMICAL", 30) /\
  is_person_in_danger_zone crossing_test 250 300 = (true, "CHEMICAL", 30) /\
  is_person_in_danger_zone crossing_test 299 200 = (false, "SAFE", 0) /\
  is_person_in_danger_zone crossing_test 1100 200 = (false, "SAFE", 0).
Proof. vm_compute. repeat split. Qed.

End ZoneClassification.

(** ** The speed estimate *)

Module SpeedEstimate.

Import TrackerUtils DequeFacts.
Local Open Scope Z_scope.

Lemma neg_index_snoc1 {A : Type} (l : list A) (a : A) :
  neg_index (l ++ [a]) 1 = Some a.
Proof.
  unfold neg_index. rewrite length_app. cbn [length].
  destruct (Nat.leb_spec 1 (length l + 1)) as [_ | Hlt]; [| lia].
  cbn [Nat.leb andb].
  replace (length l + 1 - 1)%nat with (length l + 0)%nat by lia.
  rewrite lookup_app_r by lia.
  replace (length l + 0 - length l)%nat with 0%nat by lia.
  reflexivity.
Qed.

(** Dropping the oldest entry of a list that is too long keeps its last
    two entries. *)
Lemma keep_last_10_snoc2 {A : Type} (l : list A) (a b : A) (too_long : bool) :
  (too_long = true -> l <> []) ->
  exists l', keep_last_10 (l ++ [a; b]) too_long = l' ++ [a; b].
Proof.
  intros Hne. destruct too_long; simpl.
  - destruct l as [| x l]; [exfalso; apply Hne; reflexivity |].
    exists l. reflexivity.
  - exists l. reflexivity.
Qed.

Lemma keep_last_10_length {A : Type} (l : list A) (too_long : bool) :
  length (keep_last_10 l too_long)
  = if too_long then (length l - 1)%nat else length l.
Proof. destruct too_long; simpl; [apply length_drop | reflexivity]. Qed.

Lemma truediv_positive (x y : Q) : (0 < y)%Q -> truediv x y = Some (float_div x y).
Proof.
  intros Hy. unfold truediv.
  destruct (Qeq_bool y 0) eqn:E; [| reflexivity].
  apply Qeq_bool_iff in E. rewrite E in Hy. exfalso. revert Hy. apply Qlt_irrefl.
Qed.

Lemma well_formed_insert ph person_id hist :
  well_formed ph -> length (times hist) = length (positions hist) ->
  well_formed (<[person_id := hist]> ph).
Proof.
  intros Hwf Hlen pid h Hlook.
  destruct (decide (person_id = pid)) as [-> | Hne].
  - rewrite lookup_insert_eq in Hlook. injection Hlook as <-. exact Hlen.
  - rewrite lookup_insert_ne in Hlook by exact Hne. exact (Hwf pid h Hlook).
Qed.

Lemma well_formed_default ph person_id :
  well_formed ph ->
  length (times (default empty_history (ph !! person_id)))
  = length (positions (default empty_history (ph !! person_id))).
Proof.
  intros Hwf. destruct (ph !! person_id) as [h |] eqn:E; simpl.
  - exact (Hwf person_id h E).
  - reflexivity.
Qed.

(** The speed of an identity with an earlier observation, once the two
    position lookups are done: [numpy.sqrt] first, then the guard on the
    elapsed time. *)
Lemma calculate_speed_snoc (np_sqrt : Z -> option Q) (person_id cx cy : Z)
    (current_time : Q) (position_history : gmap Z History)
    (ps : list (Z * Z)) (prev_x prev_y : Z) (ts : list Q) (prev_time : Q) :
  let hist := default empty_history (position_history !! person_id) in
  let too_long := (10 <? length (positions hist ++ [(cx, cy)]))%nat in
  positions hist = ps ++ [(prev_x, prev_y)] ->
  times hist = ts ++ [prev_time] ->
  length ts = length ps ->
  calculate_speed np_sqrt person_id cx cy current_time position_history
  = match np_sqrt ((cx - prev_x) ^ 2 + (cy - prev_y) ^ 2) with
    | Some distance =>
        match (if Qgtb (float_sub current_time prev_time) 0
               then truediv distance (float_sub current_time prev_time)
               else Some 0%Q) with
        | Some s =>
            Some (s, <[person_id :=
                         mkHistory
                           (keep_last_10 (positions hist ++ [(cx, cy)]) too_long)
                           (keep_last_10 (times hist ++ [current_time]) too_long)
                           s]> position_history)
        | None => None
        end
    | None => None
    end.
Proof.
  intros hist too_long Eps Ets Hlen.
  unfold calculate_speed. fold hist. fold too_long.
  revert too_long. rewrite Eps, Ets. intros too_long.
  assert (Hne : too_long = true -> ps <> [] /\ ts <> []).
  { subst too_long. rewrite !length_app. cbn [length]. intros H.
    apply Nat.ltb_lt in H.
    split; intros ->; cbn [length] in *; lia. }
  rewrite <- !app_assoc. cbn [app].
  destruct (keep_last_10_snoc2 ps (prev_x, prev_y) (cx, cy) too_long)
    as [ps' Hps']; [intros H; apply (Hne H) |].
  destruct (keep_last_10_snoc2 ts prev_time current_time too_long)
    as [ts' Hts']; [intros H; apply (Hne H) |].
  rewrite Hps', Hts'.
  rewrite !neg_index_snoc2.
  change (ps' ++ [(prev_x, prev_y); (cx, cy)])
    with (ps' ++ [(prev_x, prev_y)] ++ [(cx, cy)]).
  change (ts' ++ [prev_time; current_time])
    with (ts' ++ [prev_time] ++ [current_time]).
  rewrite !app_assoc, !neg_index_snoc1, !length_app. cbn [length].
  destruct (Nat.leb_spec 2 (length ps' + 1 + 1)) as [_ | Hlt]; [| lia].
  destruct (np_sqrt ((cx - prev_x) ^ 2 + (cy - prev_y) ^ 2)); reflexivity.
Qed.

(** The guarded division: a value in every case, the rounded quotient
    under the guard and 0 otherwise. *)
Lemma guarded_division (distance time_diff : Q) :
  exists s : Q,
    (if Qgtb time_diff 0 then truediv distance time_diff else Some 0%Q) = Some s /\
    ((0 < time_diff)%Q -> s = float_div distance time_diff) /\
    ((time_diff <= 0)%Q -> s = 0%Q).
Proof.
  destruct (Qgtb time_diff 0) eqn:Eg.
  - apply Qgtb_true in Eg. exists (float_div distance time_diff).
    split; [apply truediv_positive; exact Eg |].
    split; [reflexivity | intros Hle; exfalso; lra].
  - apply Qgtb_false in Eg. exists 0%Q.
    split; [reflexivity |].
    split; [intros Hlt; exfalso; lra | reflexivity].
Qed.

(** C5, as stated, fails: the distance is computed before the elapsed time
    is looked at, and [numpy.sqrt] raises on a squared distance of [2**64]
    or more. Identity 7 was seen at (0, 0) at time 1; seen again at
    (4294967296, 0) with the same timestamp, the elapsed time is 0 and the
    call does not return 0: it raises. *)
Lemma C5_counterexample :
  seen_once !! 7 = Some (mkHistory [(0, 0)] [1%Q] 0%Q) /\
  (float_sub 1 1 <= 0)%Q /\
  (4294967296 - 0) ^ 2 + (0 - 0) ^ 2 = 2 ^ 64 /\
  isqrt (2 ^ 64) = None /\
  calculate_speed isqrt 7 4294967296 0 1%Q seen_once = None /\
  calculate_speed isqrt 7 4294967296 0 1%Q seen_once
  <> Some (0%Q, <[7 := mkHistory [(0, 0); (4294967296, 0)] [1%Q; 1%Q] 0%Q]> seen_once).
Proof.
  split; [reflexivity |].
  split; [vm_compute; discriminate |].
  split; [reflexivity |].
  split; [reflexivity |].
  split; [vm_compute; reflexivity | vm_compute; discriminate].
Qed.

(** C5 (amended): the call appends the observation to the identity's
    position history (keeping the last 10). For an identity without an
    earlier observation it returns 0. Otherwise it first takes
    [numpy.sqrt] of the squared distance between the previous and the new
    position: where numpy raises (a squared distance of [2**64] or more)
    the call raises, whatever the elapsed time; where numpy returns the
    distance, the call returns, and the speed is 0 when the elapsed time
    (the float difference of the two timestamps) is zero or negative, and
    the float quotient of the distance by the elapsed time when it is
    positive, the difference and the quotient being within the range of
    the doubles. The division is reached only under the guard
    [time_diff > 0]. *)
Theorem C5_speed_division_guarded
    (np_sqrt : Z -> option Q) (person_id cx cy : Z) (current_time : Q)
    (position_history : gmap Z History) :
  well_formed position_history ->
  let hist := default empty_history (position_history !! person_id) in
  let too_long := (10 <? length (positions hist ++ [(cx, cy)]))%nat in
  let positions' := keep_last_10 (positions hist ++ [(cx, cy)]) too_long in
  let times' := keep_last_10 (times hist ++ [current_time]) too_long in
  let returns (s : Q) :=
    calculate_speed np_sqrt person_id cx cy current_time position_history
    = Some (s, <[person_id := mkHistory positions' times' s]> position_history) in
  last positions' = Some (cx, cy) /\
  last times' = Some current_time /\
  (forall s : Q,
      well_formed (<[person_id := mkHistory positions' times' s]> position_history)) /\
  (positions hist = [] -> returns 0%Q) /\
  (forall (prev_x prev_y : Z) (prev_time : Q),
      last (positions hist) = Some (prev_x, prev_y) ->
      last (times hist) = Some prev_time ->
      let squared := (cx - prev_x) ^ 2 + (cy - prev_y) ^ 2 in
      let time_diff := float_sub current_time prev_time in
      (np_sqrt squared = None ->
       calculate_speed np_sqrt person_id cx cy current_time position_history = None) /\
      (forall distance : Q,
          np_sqrt squared = Some distance ->
          exists s : Q,
            returns s /\
            ((0 < time_diff)%Q ->
             in_double_range (current_time - prev_time) ->
             in_double_range (distance / time_diff) ->
             s = float_div distance time_diff) /\
            ((time_diff <= 0)%Q -> s = 0%Q) /\
            ((current_time <= prev_time)%Q -> s = 0%Q))).
Proof.
  intros Hwf hist too_long positions' times' returns.
  pose proof (well_formed_default _ person_id Hwf) as Hlen. fold hist in Hlen.
  assert (Hlen' : length times' = length positions').
  { subst positions' times'. rewrite !keep_last_10_length, !length_app, Hlen.
    reflexivity. }
  assert (Hlast : last positions' = Some (cx, cy) /\ last times' = Some current_time).
  { subst positions' times' too_long.
    destruct (positions hist) as [| p0 ps0] eqn:Eps using rev_ind.
    - destruct (times hist) as [| t0 ts0]; [| discriminate Hlen].
      split; reflexivity.
    - clear IHps0.
      destruct (times hist) as [| t0 ts0] eqn:Ets using rev_ind.
      { rewrite length_app in Hlen. cbn [length] in Hlen. lia. }
      clear IHts0.
      rewrite !length_app in Hlen. cbn [length] in Hlen.
      set (too_long := (10 <? _)%nat).
      assert (Hne : too_long = true -> ps0 <> [] /\ ts0 <> []).
      { subst too_long. rewrite !length_app. cbn [length]. intros H.
        apply Nat.ltb_lt in H.
        split; intros ->; cbn [length] in *; lia. }
      rewrite <- !app_assoc. cbn [app].
      destruct (keep_last_10_snoc2 ps0 p0 (cx, cy) too_long) as [ps' ->];
        [intros H; apply (Hne H) |].
      destruct (keep_last_10_snoc2 ts0 t0 current_time too_long) as [ts' ->];
        [intros H; apply (Hne H) |].
      change (ps' ++ [p0; (cx, cy)]) with (ps' ++ [p0] ++ [(cx, cy)]).
      change (ts' ++ [t0; current_time]) with (ts' ++ [t0] ++ [current_time]).
      rewrite !app_assoc, !last_snoc. split; reflexivity. }
  destruct Hlast as [Hlp Hlt].
  split; [exact Hlp |]. split; [exact Hlt |].
  split.
  { intros s. apply well_formed_insert; [exact Hwf | exact Hlen']. }
  split.
  - (* first observation of the identity *)
    intros Hnil. subst returns positions' times' too_long. cbv beta.
    unfold calculate_speed. fold hist. rewrite Hnil.
    destruct (times hist) as [| t0 ts0]; [| rewrite Hnil in Hlen; discriminate Hlen].
    reflexivity.
  - intros prev_x prev_y prev_time Hp Ht squared time_diff.
    destruct (positions hist) as [| p0 ps] eqn:Eps using rev_ind;
      [discriminate Hp |]. clear IHps.
    destruct (times hist) as [| t0 ts] eqn:Ets using rev_ind;
      [discriminate Ht |]. clear IHts.
    rewrite last_snoc in Hp. rewrite last_snoc in Ht.
    injection Hp as ->. injection Ht as ->.
    rewrite !length_app in Hlen. cbn [length] in Hlen.
    pose proof (calculate_speed_snoc np_sqrt person_id cx cy current_time
                  position_history ps prev_x prev_y ts prev_time) as Hcall.
    cbv zeta in Hcall. fold hist in Hcall. rewrite Eps, Ets in Hcall.
    specialize (Hcall eq_refl eq_refl ltac:(lia)).
    fold squared time_diff in Hcall.
    split.
    + intros Hnone. rewrite Hcall, Hnone. reflexivity.
    + intros distance Hsome. rewrite Hsome in Hcall.
      destruct (guarded_division distance time_diff) as (s & Hs & Hpos & Hnonpos).
      rewrite Hs in Hcall.
      exists s. split; [exact Hcall |].
      split; [intros H _ _; exact (Hpos H) |].
      split; [exact Hnonpos |].
      intros Hle. apply Hnonpos. subst time_diff. unfold float_sub.
      apply round_double_nonpos. lra.
Qed.

Lemma seen_once_well_formed : well_formed seen_once.
Proof.
  apply well_formed_insert; [| reflexivity].
  intros pid h H. rewrite lookup_empty in H. discriminate H.
Qed.

(** Identity 7 was seen at (0, 0) at time 1. Seen next at (3, 4) at time
    2.5: 5 pixels in 1.5 seconds, the double [5.0 / 1.5], which is not the
    rational 10/3. Seen instead with a timestamp that did not advance:
    speed 0. *)
Lemma C5_speed_division_guarded_witness :
  (exists s ph, calculate_speed isqrt 7 3 4 (5 # 2) seen_once = Some (s, ph)
                /\ s = float_div 5 (3 # 2) /\ ~ (s == 10 # 3)%Q) /\
  (exists s ph, calculate_speed isqrt 7 3 4 1%Q seen_once = Some (s, ph)
                /\ s = 0%Q).
Proof.
  split.
  - destruct (C5_speed_division_guarded isqrt 7 3 4 (5 # 2)%Q seen_once
                seen_once_well_formed)
      as (_ & _ & _ & _ & Hprev).
    destruct (Hprev 0 0 1%Q eq_refl eq_refl) as [_ Hsome].
    destruct (Hsome 5%Q eq_refl) as (s & Hcall & Hpos & _).
    exists s. eexists. split; [exact Hcall |].
    assert (Hs : s = float_div 5 (3 # 2)).
    { apply Hpos.
      - vm_compute. reflexivity.
      - vm_compute. discriminate.
      - vm_compute. discriminate. }
    split; [exact Hs |].
    rewrite Hs. vm_compute. discriminate.
  - destruct (C5_speed_division_guarded isqrt 7 3 4 1%Q seen_once
                seen_once_well_formed)
      as (_ & _ & _ & _ & Hprev).
    destruct (Hprev 0 0 1%Q eq_refl eq_refl) as [_ Hsome].
    destruct (Hsome 5%Q eq_refl) as (s & Hcall & _ & Hzero & _).
    exists s. eexists. split; [exact Hcall |].
    apply Hzero. vm_compute. discriminate.
Defined.

End SpeedEstimate.

(** ** The alert throttle *)

Module AlertThrottle.

Import Main.
Local Open Scope Z_scope.

Lemma frame_step_due st f :
  due st f ->
  frame_step st f = mkAlertState (total_alerts st + 1) (current_time f).
Proof.
  intros [Hcrit Hcool]. unfold frame_step, handle_critical_alerts.
  destruct (critical_people (scored f)); [congruence |].
  apply Qgtb_true in Hcool. rewrite Hcool. reflexivity.
Qed.

Lemma frame_step_not_due st f : ~ due st f -> frame_step st f = st.
Proof.
  intros Hnot. unfold frame_step, handle_critical_alerts.
  destruct (critical_people (scored f)) as [| person rest] eqn:Ec; [reflexivity |].
  destruct (Qgtb (current_time f - last_alert_time st) 1) eqn:Eg; [| reflexivity].
  exfalso. apply Hnot. split; [rewrite Ec; discriminate |].
  apply Qgtb_true. exact Eg.
Qed.

Lemma due_dec st f : due st f \/ ~ due st f.
Proof.
  unfold due.
  destruct (critical_people (scored f)) as [| person rest].
  - right. intros [H _]. congruence.
  - destruct (Qlt_le_dec 1 (current_time f - last_alert_time st)) as [H | H].
    + left. split; [discriminate | exact H].
    + right. intros [_ H']. lra.
Qed.

Lemma alert_emitted_due st f : alert_emitted st f = true <-> due st f.
Proof.
  unfold alert_emitted. split.
  - intros Hem. destruct (due_dec st f) as [Hd | Hn]; [exact Hd |].
    rewrite (frame_step_not_due _ _ Hn), Z.eqb_refl in Hem. discriminate Hem.
  - intros Hd. rewrite (frame_step_due _ _ Hd). cbn [total_alerts].
    destruct (Z.eqb_spec (total_alerts st + 1) (total_alerts st)); [lia | reflexivity].
Qed.

Lemma alert_not_emitted st f : alert_emitted st f = false -> frame_step st f = st.
Proof.
  intros Hem. apply frame_step_not_due. intros Hd.
  apply alert_emitted_due in Hd. congruence.
Qed.

Lemma run_frames_cons f fs st :
  run_frames (f :: fs) st = run_frames fs (frame_step st f).
Proof. reflexivity. Qed.

(** The counter counts the emitted alerts, and each alert comes more
    than one second after the alert before it. *)
Lemma run_frames_alerts fs st :
  total_alerts (run_frames fs st)
  = total_alerts st + Z.of_nat (length (alert_times fs st))
  /\ spaced (last_alert_time st) (alert_times fs st).
Proof.
  revert st. induction fs as [| f fs IH]; intros st.
  - simpl. split; [lia | exact I].
  - rewrite run_frames_cons. cbn [alert_times].
    destruct (IH (frame_step st f)) as [Hcount Hspaced].
    destruct (alert_emitted st f) eqn:Hem.
    + apply alert_emitted_due in Hem.
      rewrite (frame_step_due _ _ Hem) in *. cbn [total_alerts last_alert_time] in *.
      split.
      * rewrite Hcount. cbn [length]. lia.
      * split; [apply Hem | exact Hspaced].
    + rewrite (alert_not_emitted _ _ Hem) in *.
      split; assumption.
Qed.

Lemma spaced_lookup prev ts j tj :
  spaced prev ts -> ts !! j = Some tj -> (1 < tj - prev)%Q.
Proof.
  revert prev j. induction ts as [| t ts IH]; intros prev j Hsp Hj.
  - discriminate Hj.
  - destruct Hsp as [Ht Hsp]. destruct j as [| j]; simpl in Hj.
    + injection Hj as <-. exact Ht.
    + pose proof (IH t j Hsp Hj). lra.
Qed.

Lemma spaced_pairwise prev ts i j ti tj :
  spaced prev ts -> (i < j)%nat -> ts !! i = Some ti -> ts !! j = Some tj ->
  (1 < tj - ti)%Q.
Proof.
  revert prev i j. induction ts as [| t ts IH]; intros prev i j Hsp Hij Hi Hj.
  - discriminate Hi.
  - destruct Hsp as [Ht Hsp]. destruct j as [| j]; [lia |].
    destruct i as [| i]; simpl in Hi, Hj.
    + injection Hi as <-. exact (spaced_lookup _ _ _ _ Hsp Hj).
    + apply (IH t i j Hsp); [lia | assumption | assumption].
Qed.

(** [critical_people] holds the pairs of the frame whose score is above
    70, and only them. *)
Lemma critical_people_spec (scored : list (Z * Z)) (person : Z * Z) :
  person ∈ critical_people scored <-> person ∈ scored /\ 70 < snd person.
Proof.
  unfold critical_people.
  rewrite !list_elem_of_In, filter_In, Z.ltb_lt. reflexivity.
Qed.

Lemma critical_people_nonempty (scored : list (Z * Z)) :
  critical_people scored <> []
  <-> exists person : Z * Z, person ∈ scored /\ 70 < snd person.
Proof.
  split.
  - intros Hne. destruct (critical_people scored) as [| person rest] eqn:E;
      [congruence |].
    exists person. apply critical_people_spec. rewrite E. left.
  - intros (person & Hin) Hnil. apply critical_people_spec in Hin.
    rewrite Hnil in Hin. inversion Hin.
Qed.

(** C8: [critical_people] is the list of the identities of the frame
    with a score above 70. A frame emits a new alert (counter incremented
    by one, timestamp recorded) exactly when some identity of the frame
    has a score above 70 and more than one second has passed since the
    recorded alert timestamp, however many identities qualify; otherwise,
    and in particular when every score of the frame is at most 70, the
    statistics are unchanged. Over any sequence of frames the counter
    counts the emitted alerts and any two of them are more than one second
    apart. After a critical frame that emits an alert, a critical frame
    0.3 s later does not increment the counter and a critical frame 1.2 s
    after the first does. *)
Theorem C8_alert_throttle :
  (forall (scored : list (Z * Z)) (person : Z * Z),
      person ∈ critical_people scored <-> person ∈ scored /\ 70 < snd person) /\
  (forall (st : AlertState) (f : Frame),
      (alert_emitted st f = true <->
       (exists person : Z * Z, person ∈ scored f /\ 70 < snd person)
       /\ (1 < current_time f - last_alert_time st)%Q) /\
      (alert_emitted st f = true ->
       frame_step st f = mkAlertState (total_alerts st + 1) (current_time f)) /\
      (alert_emitted st f = false -> frame_step st f = st) /\
      ((forall person : Z * Z, person ∈ scored f -> snd person <= 70) ->
       alert_emitted st f = false)) /\
  (forall (fs : list Frame) (st : AlertState),
      total_alerts (run_frames fs st)
      = total_alerts st + Z.of_nat (length (alert_times fs st)) /\
      forall (i j : nat) (ti tj : Q),
        (i < j)%nat ->
        alert_times fs st !! i = Some ti -> alert_times fs st !! j = Some tj ->
        (1 < tj - ti)%Q) /\
  (forall (st : AlertState) (f1 f2 f3 : Frame),
      (exists person : Z * Z, person ∈ scored f1 /\ 70 < snd person) ->
      (exists person : Z * Z, person ∈ scored f2 /\ 70 < snd person) ->
      (exists person : Z * Z, person ∈ scored f3 /\ 70 < snd person) ->
      (1 < current_time f1 - last_alert_time st)%Q ->
      (current_time f2 == current_time f1 + (3 # 10))%Q ->
      (current_time f3 == current_time f1 + (12 # 10))%Q ->
      total_alerts (run_frames [f1] st) = total_alerts st + 1 /\
      total_alerts (run_frames [f1; f2] st) = total_alerts st + 1 /\
      total_alerts (run_frames [f1; f2; f3] st) = total_alerts st + 2).
Proof.
  split; [exact critical_people_spec |].
  split; [| split].
  - intros st f.
    assert (Hiff : alert_emitted st f = true <->
                   (exists person : Z * Z, person ∈ scored f /\ 70 < snd person)
                   /\ (1 < current_time f - last_alert_time st)%Q).
    { rewrite alert_emitted_due. unfold due.
      rewrite critical_people_nonempty. reflexivity. }
    split; [exact Hiff |]. split; [| split].
    + intros Hem. apply frame_step_due, alert_emitted_due. exact Hem.
    + apply alert_not_emitted.
    + intros Hlow. destruct (alert_emitted st f) eqn:Hem; [| reflexivity].
      destruct (proj1 Hiff eq_refl) as [(person & Hin & Hgt) _].
      specialize (Hlow person Hin). lia.
  - intros fs st. destruct (run_frames_alerts fs st) as [Hcount Hspaced].
    split; [exact Hcount |].
    intros i j ti tj. apply (spaced_pairwise _ _ _ _ _ _ Hspaced).
  - intros st f1 f2 f3 Hc1 Hc2 Hc3 Hcool H2 H3.
    apply critical_people_nonempty in Hc1, Hc2, Hc3.
    unfold run_frames. cbn [fold_left].
    assert (E1 : frame_step st f1
                 = mkAlertState (total_alerts st + 1) (current_time f1)).
    { apply frame_step_due. split; assumption. }
    rewrite E1.
    assert (E2 : frame_step (mkAlertState (total_alerts st + 1) (current_time f1)) f2
                 = mkAlertState (total_alerts st + 1) (current_time f1)).
    { apply frame_step_not_due. intros [_ H]. cbn [last_alert_time] in H.
      rewrite H2 in H. revert H. apply Qle_not_lt.
      ring_simplify (current_time f1 + (3 # 10) - current_time f1)%Q.
      discriminate. }
    rewrite E2.
    assert (E3 : frame_step (mkAlertState (total_alerts st + 1) (current_time f1)) f3
                 = mkAlertState (total_alerts st + 1 + 1) (current_time f3)).
    { apply frame_step_due. split; [exact Hc3 |]. cbn [last_alert_time].
      rewrite H3.
      ring_simplify (current_time f1 + (12 # 10) - current_time f1)%Q.
      reflexivity. }
    rewrite E3. cbn [total_alerts]. repeat split; lia.
Qed.

Lemma critical_frame_has_critical (t : Q) :
  exists person : Z * Z, person ∈ scored (critical_frame t) /\ 70 < snd person.
Proof. exists (1, 85). split; [left | reflexivity]. Qed.

Lemma calm_frame_has_none (t : Q) (person : Z * Z) :
  person ∈ scored (calm_frame t) -> snd person <= 70.
Proof.
  cbn [scored calm_frame]. intros H.
  repeat (apply elem_of_cons in H as [-> | H]; [cbn; lia |]).
  inversion H.
Qed.

(** Identities 1 and 3 are above 70 at time 1000: one alert. The critical
    frame 0.3 s later adds none, the one 1.2 s after the first adds one.
    A frame whose highest score is exactly 70 emits no alert, although the
    cooldown has long elapsed. *)
Lemma C8_alert_throttle_witness :
  (total_alerts (run_frames [critical_frame 1000] initial) = 1 /\
   total_alerts (run_frames [critical_frame 1000; critical_frame (10003 # 10)] initial) = 1 /\
   total_alerts (run_frames [critical_frame 1000; critical_frame (10003 # 10);
                             critical_frame (10012 # 10)] initial) = 2) /\
  alert_emitted initial (calm_frame 1000) = false /\
  (1 < current_time (calm_frame 1000) - last_alert_time initial)%Q /\
  ((2, 40) ∈ critical_people (scored (critical_frame 1000)) -> False).
Proof.
  destruct C8_alert_throttle as (Hfilter & Hframe & _ & Hscenario).
  split; [| split; [| split]].
  - apply (Hscenario initial (critical_frame 1000) (critical_frame (10003 # 10))
             (critical_frame (10012 # 10)));
      try apply critical_frame_has_critical; vm_compute; congruence.
  - apply (Hframe initial (calm_frame 1000)). apply calm_frame_has_none.
  - vm_compute. reflexivity.
  - intros H. apply Hfilter in H. destruct H as [_ H]. cbn in H. lia.
Defined.

End AlertThrottle.

(** ** Eviction of stale profiles *)

Module RiskCleanup.

Import RiskEngine Session DequeFacts RiskFacts.
Local Open Scope string_scope.
Local Open Scope Z_scope.

Lemma lookup_delete_all (ks : list Z) (m : gmap Z PersonProfile) (k : Z) :
  fold_left (fun profiles pid => delete pid profiles) ks m !! k
  = if decide (k ∈ ks) then None else m !! k.
Proof.
  revert m. induction ks as [| k0 ks IH]; intros m; simpl.
  - destruct (decide (k ∈ [])) as [H | _]; [| reflexivity].
    apply elem_of_nil in H. destruct H.
  - rewrite IH. destruct (decide (k ∈ ks)) as [Hin | Hout].
    + rewrite decide_True by (right; exact Hin). reflexivity.
    + destruct (decide (k = k0)) as [-> | Hne].
      * rewrite decide_True by left. apply lookup_delete_eq.
      * rewrite decide_False.
        -- apply lookup_delete_ne. congruence.
        -- intros H. apply elem_of_cons in H as [H | H]; [congruence | exact (Hout H)].
Qed.

Lemma size_delete_all (ks : list Z) (m : gmap Z PersonProfile) :
  NoDup ks -> (forall k, k ∈ ks -> is_Some (m !! k)) ->
  (size (fold_left (fun profiles pid => delete pid profiles) ks m) + length ks
   = size m)%nat.
Proof.
  revert m. induction ks as [| k0 ks IH]; intros m Hnd Hin; simpl.
  - lia.
  - apply NoDup_cons in Hnd as [Hk0 Hnd].
    destruct (Hin k0) as [p Hp]; [left |].
    assert (Hrest : forall k, k ∈ ks -> is_Some (delete k0 m !! k)).
    { intros k Hk. rewrite lookup_delete_ne.
      - apply Hin. right. exact Hk.
      - intros ->. exact (Hk0 Hk). }
    pose proof (IH (delete k0 m) Hnd Hrest) as Hsize.
    pose proof (map_size_delete_Some k0 m (ex_intro _ p Hp)) as Hs.
    pose proof (map_size_ne_0_lookup_2 m k0 (ex_intro _ p Hp)) as Hpos.
    cbn [length]. lia.
Qed.

Lemma elem_of_stale_ids t max_age (m : gmap Z PersonProfile) k :
  k ∈ stale_ids t max_age m <->
  exists p, m !! k = Some p /\ Qgtb (t - last_update p) max_age = true.
Proof.
  unfold stale_ids. rewrite list_elem_of_fmap. split.
  - intros ([k' p] & -> & Hin). apply list_elem_of_In, filter_In in Hin as [Hin Hst].
    apply list_elem_of_In, elem_of_map_to_list in Hin. exists p. split; assumption.
  - intros (p & Hp & Hst). exists (k, p). split; [reflexivity |].
    apply list_elem_of_In, filter_In. split; [| exact Hst].
    apply list_elem_of_In, elem_of_map_to_list. exact Hp.
Qed.

Lemma NoDup_stale_ids t max_age (m : gmap Z PersonProfile) :
  NoDup (stale_ids t max_age m).
Proof.
  unfold stale_ids.
  pose proof (NoDup_fst_map_to_list m) as Hnd.
  induction (map_to_list m) as [| [k p] l IH]; simpl; [constructor |].
  apply NoDup_cons in Hnd as [Hk Hnd].
  destruct (Qgtb (t - last_update p) max_age); simpl; [| exact (IH Hnd)].
  apply NoDup_cons. split; [| exact (IH Hnd)].
  intros Hin. apply Hk. apply list_elem_of_fmap in Hin as ([k' p'] & -> & Hin).
  apply list_elem_of_fmap. exists (k', p'). split; [reflexivity |].
  apply list_elem_of_In, filter_In in Hin as [Hin _]. apply list_elem_of_In. exact Hin.
Qed.

(** A call for an identity that has no stored profile. *)
Lemma calculate_risk_new pid cx cy idz zn zr sp po pr w :
  person_profiles w !! pid = None ->
  let r := fst (calculate_risk pid cx cy idz zn zr sp po pr w) in
  let w' := snd (calculate_risk pid cx cy idz zn zr sp po pr w) in
  trend r = "STABLE" /\ factor_get "Accel" (factors r) = 0 /\
  exists p', person_profiles w' !! pid = Some p' /\
             history_lengths p' = [1; 1; 1; 1; 1]%nat /\
             risk_scores p' = [score r] /\ speeds p' = [sp] /\
             positions p' = [(cx, cy)] /\ zones p' = [zn].
Proof.
  intros Hnone r w'.
  destruct (calculate_risk_stored pid cx cy idz zn zr sp po pr w)
    as (p' & Hp' & Et & Ep & Ez & Es & Er & _).
  fold r in Er. fold w' in Hp', Et.
  rewrite (get_profile_miss _ _ Hnone) in Et, Ep, Ez, Es, Er. cbn in Et, Ep, Ez, Es, Er.
  assert (Htrend : trend r = "STABLE").
  { subst r. rewrite calculate_risk_eq. cbn [fst trend].
    rewrite (get_profile_miss _ _ Hnone). reflexivity. }
  assert (Haccel : factor_get "Accel" (factors r) = 0).
  { subst r. rewrite calculate_risk_eq. cbn [fst factors].
    match goal with
    | |- context [build_factors ?a ?b ?c ?e ?f ?g] =>
        destruct (build_factors_get a b c e f g) as (_ & _ & _ & _ & _ & Ga)
    end.
    rewrite Ga, (get_profile_miss _ _ Hnone). reflexivity. }
  split; [exact Htrend |]. split; [exact Haccel |].
  exists p'. split; [exact Hp' |].
  unfold history_lengths. rewrite Et, Ep, Ez, Es, Er. repeat split.
Qed.

(** X1: [cleanup_old_people] evicts exactly the stale profiles. With
    [now] the clock reading it takes, a profile is in the store afterwards
    exactly when it was there before, unchanged, and its last update is at
    most [max_age] before [now]; the returned count is the number of
    profiles removed. *)
Theorem cleanup_evicts_exactly_the_stale (max_age : Q) (w : World) :
  let now := clock w (ticks w) in
  let count := fst (cleanup_old_people max_age w) in
  let w' := snd (cleanup_old_people max_age w) in
  (forall (pid : Z) (p : PersonProfile),
      person_profiles w' !! pid = Some p <->
      person_profiles w !! pid = Some p /\ (now - last_update p <= max_age)%Q) /\
  Z.of_nat (size (person_profiles w')) + count = Z.of_nat (size (person_profiles w)) /\
  0 <= count.
Proof.
  intros now count w'.
  unfold cleanup_old_people, bind, time_time in count, w'. cbn in count, w'.
  fold now in count, w'.
  split; [| split].
  - intros pid p. subst w'. cbn [person_profiles]. rewrite lookup_delete_all.
    destruct (decide (pid ∈ stale_ids now max_age (person_profiles w))) as [Hin | Hout].
    + apply elem_of_stale_ids in Hin as (q & Hq & Hst). apply Qgtb_true in Hst.
      split; [discriminate |]. intros [Hp Hle].
      rewrite Hq in Hp. injection Hp as ->. exfalso. lra.
    + split.
      * intros Hp. split; [exact Hp |].
        apply Qgtb_false. destruct (Qgtb (now - last_update p) max_age) eqn:E;
          [| reflexivity].
        exfalso. apply Hout. apply elem_of_stale_ids. exists p. split; assumption.
      * intros [Hp _]. exact Hp.
  - subst w' count. cbn [person_profiles].
    pose proof (size_delete_all (stale_ids now max_age (person_profiles w))
                  (person_profiles w) (NoDup_stale_ids _ _ _)) as Hsize.
    rewrite <- Hsize; [lia |].
    intros k Hk. apply elem_of_stale_ids in Hk as (q & Hq & _). eauto.
  - subst count. lia.
Qed.

Lemma cleanup_evicts_exactly_the_stale_witness :
  let w := run seen_at_0_and_2 (fresh clock_0_2_61) in
  let w' := snd (cleanup_old_people 60 w) in
  fst (cleanup_old_people 60 w) = 1 /\
  person_profiles w' !! 1 = None /\
  person_profiles w' !! 2 = person_profiles w !! 2 /\
  is_Some (person_profiles w' !! 2).
Proof.
  intros w w'.
  destruct (cleanup_evicts_exactly_the_stale 60 w) as (Hkeep & Hcount & _).
  fold w' in Hkeep, Hcount.
  assert (H2 : exists p, person_profiles w !! 2 = Some p
                         /\ (clock w (ticks w) - last_update p <= 60)%Q).
  { eexists. split; [vm_compute; reflexivity | vm_compute; discriminate]. }
  destruct H2 as (p & Hp & Hle).
  pose proof (proj2 (Hkeep 2 p) (conj Hp Hle)) as Hkept.
  split; [vm_compute; reflexivity |].
  split; [vm_compute; reflexivity |].
  split; [rewrite Hkept, Hp; reflexivity | rewrite Hkept; eauto].
Defined.

(** X2: eviction forgets the history. When a stale profile has been
    evicted, the next call for that identity is computed as for a new
    identity: the trend is "STABLE", there is no acceleration factor, and
    each history holds the single new observation. *)
Theorem eviction_forgets_history
    (max_age : Q) (w : World) (pid cx cy : Z) (idz : bool) (zn : string)
    (zr : Z) (sp : Q) (po : string) (pr : Z) (p : PersonProfile) :
  person_profiles w !! pid = Some p ->
  (max_age < clock w (ticks w) - last_update p)%Q ->
  let w1 := snd (cleanup_old_people max_age w) in
  let r := fst (calculate_risk pid cx cy idz zn zr sp po pr w1) in
  let w2 := snd (calculate_risk pid cx cy idz zn zr sp po pr w1) in
  person_profiles w1 !! pid = None /\
  trend r = "STABLE" /\ factor_get "Accel" (factors r) = 0 /\
  exists p2, person_profiles w2 !! pid = Some p2 /\
             history_lengths p2 = [1; 1; 1; 1; 1]%nat /\
             risk_scores p2 = [score r] /\ speeds p2 = [sp].
Proof.
  intros Hp Hstale w1 r w2.
  assert (Hgone : person_profiles w1 !! pid = None).
  { subst w1. unfold cleanup_old_people, bind, time_time. cbn.
    rewrite lookup_delete_all, decide_True; [reflexivity |].
    apply elem_of_stale_ids. exists p. split; [exact Hp |].
    apply Qgtb_true. exact Hstale. }
  split; [exact Hgone |].
  destruct (calculate_risk_new pid cx cy idz zn zr sp po pr w1 Hgone)
    as (Ht & Ha & p2 & Hp2 & Hlen & Hrs & Hsp & _).
  split; [exact Ht |]. split; [exact Ha |].
  exists p2. repeat split; assumption.
Qed.

Lemma eviction_forgets_history_witness :
  let w := run seen_at_0_and_2 (fresh clock_0_2_61) in
  let w1 := snd (cleanup_old_people 60 w) in
  trend (fst (calculate_risk 1 500 50 false "SAFE" 0 300%Q "STANDING" 0 w1)) = "STABLE".
Proof.
  intros w w1.
  refine (proj1 (proj2 (eviction_forgets_history 60 w 1 500 50 false "SAFE" 0 300%Q
                          "STANDING" 0
                          (mkProfile 1 [0%Q] [(500, 50)] ["SAFE"] [0%Q] [0] None 0%Q)
                          _ _))).
  - vm_compute. reflexivity.
  - vm_compute. reflexivity.
Defined.

End RiskCleanup.

(** ** Sessions with several identities *)

Module RiskSession.

Import RiskEngine Session DequeFacts RiskFacts RiskHistory.
Local Open Scope string_scope.
Local Open Scope Z_scope.

Lemma call_clock c w : clock (snd (call c w)) = clock w.
Proof. apply calculate_risk_clock. Qed.

Lemma call_ticks c w : (ticks w < ticks (snd (call c w)))%nat.
Proof.
  unfold call. rewrite calculate_risk_eq. cbn [snd ticks].
  set (pid := arg_person_id c).
  assert (H0 : (ticks w <= ticks (snd (get_profile pid w)))%nat).
  { unfold get_profile. destruct (person_profiles w !! pid); cbn; lia. }
  destruct (arg_in_danger_zone c); [| cbn; lia].
  destruct (first_danger_time (fst (get_profile pid w))); cbn; lia.
Qed.

Lemma run_clock cs w : clock (run cs w) = clock w.
Proof.
  induction cs as [| c cs IH] using rev_ind; [reflexivity |].
  rewrite run_snoc, call_clock. exact IH.
Qed.

Lemma run_ticks cs w : (ticks w <= ticks (run cs w))%nat.
Proof.
  induction cs as [| c cs IH] using rev_ind; [reflexivity |].
  rewrite run_snoc. pose proof (call_ticks c (run cs w)). lia.
Qed.

Lemma run_others pid cs w :
  Forall (fun c => arg_person_id c <> pid) cs ->
  person_profiles (run cs w) !! pid = person_profiles w !! pid.
Proof.
  induction cs as [| c cs IH] using rev_ind; intros Hall; [reflexivity |].
  apply Forall_app in Hall as [Hcs Hc]. apply Forall_cons in Hc as [Hc _].
  rewrite run_snoc. unfold call. rewrite calculate_risk_other by congruence.
  apply IH. exact Hcs.
Qed.

Lemma factor_time_monotone (t1 t2 : Q) :
  (t1 <= t2)%Q -> factor_time t1 <= factor_time t2.
Proof.
  intros Hle. unfold factor_time.
  destruct (Qgtb t1 5) eqn:A5; destruct (Qgtb t2 5) eqn:B5;
  destruct (Qgtb t1 3) eqn:A3; destruct (Qgtb t2 3) eqn:B3;
  destruct (Qgtb t1 1) eqn:A1; destruct (Qgtb t2 1) eqn:B1;
    try lia;
    repeat match goal with
           | H : Qgtb _ _ = true |- _ => apply Qgtb_true in H
           | H : Qgtb _ _ = false |- _ => apply Qgtb_false in H
           end; exfalso; lra.
Qed.

Lemma factor_speed_monotone (s1 s2 : Q) :
  (s1 <= s2)%Q -> factor_speed s1 <= factor_speed s2.
Proof.
  intros Hle. unfold factor_speed.
  destruct (Qgtb s1 200) eqn:A1; destruct (Qgtb s2 200) eqn:B1;
  destruct (Qgtb s1 100) eqn:A2; destruct (Qgtb s2 100) eqn:B2;
  destruct (Qgtb s1 50) eqn:A3; destruct (Qgtb s2 50) eqn:B3;
  destruct (Qgtb s1 20) eqn:A4; destruct (Qgtb s2 20) eqn:B4;
    try lia;
    repeat match goal with
           | H : Qgtb _ _ = true |- _ => apply Qgtb_true in H
           | H : Qgtb _ _ = false |- _ => apply Qgtb_false in H
           end; exfalso; lra.
Qed.

Lemma factor_acceleration_monotone (stored : list Q) (s1 s2 : Q) :
  (s1 <= s2)%Q -> factor_acceleration stored s1 <= factor_acceleration stored s2.
Proof.
  intros Hle. unfold factor_acceleration.
  destruct (2 <=? length stored)%nat; [| lia].
  destruct (neg_index stored 2) as [prev |]; [| lia].
  assert (Hsub : (float_sub s1 prev <= float_sub s2 prev)%Q).
  { apply round_double_mono. lra. }
  revert Hsub.
  generalize (float_sub s1 prev), (float_sub s2 prev). intros d1 d2 Hsub.
  destruct (Qgtb d1 50) eqn:A1; destruct (Qgtb d2 50) eqn:B1;
  destruct (Qgtb d1 25) eqn:A2; destruct (Qgtb d2 25) eqn:B2;
    try lia;
    repeat match goal with
           | H : Qgtb _ _ = true |- _ => apply Qgtb_true in H
           | H : Qgtb _ _ = false |- _ => apply Qgtb_false in H
           end; exfalso; lra.
Qed.

Lemma calculate_risk_accel_factor pid cx cy idz zn zr sp po pr w :
  factor_get "Accel" (factors (fst (calculate_risk pid cx cy idz zn zr sp po pr w)))
  = factor_acceleration (speeds (fst (get_profile pid w))) sp.
Proof.
  rewrite calculate_risk_eq. cbn [fst factors].
  match goal with
  | |- context [build_factors ?a ?b ?c ?e ?f ?g] =>
      destruct (build_factors_get a b c e f g) as (_ & _ & _ & _ & _ & Ga)
  end.
  rewrite Ga. apply listed_nonneg.
  destruct (factor_acceleration_range (speeds (fst (get_profile pid w))) sp)
    as [E | [E | E]]; rewrite E; lia.
Qed.

(** The profile a call works on holds the observations made so far. *)
Lemma entry_tracks clk cs pid :
  tracks (fst (get_profile pid (run cs (fresh clk))))
         (observations pid cs (fresh clk)).
Proof.
  pose proof (run_tracks clk cs pid) as H. unfold profile_of in H.
  destruct (person_profiles (run cs (fresh clk)) !! pid) as [p |] eqn:E.
  - rewrite (get_profile_hit _ _ _ E). exact H.
  - rewrite (get_profile_miss _ _ E), H. apply tracks_new.
Qed.

(** X3: a sequence of calls made for other identities leaves the stored
    profile of an identity exactly as it was. *)
Theorem calls_leave_other_identities_alone
    (pid : Z) (cs : list Call) (w : World) :
  Forall (fun c => arg_person_id c <> pid) cs ->
  profile_of pid (run cs w) = profile_of pid w.
Proof.
  unfold profile_of.
  induction cs as [| c cs IH] using rev_ind; intros Hall; [reflexivity |].
  apply Forall_app in Hall as [Hcs Hc]. apply Forall_cons in Hc as [Hc _].
  rewrite run_snoc. unfold call.
  rewrite calculate_risk_other by congruence.
  exact (IH Hcs).
Qed.

Lemma calls_leave_other_identities_alone_witness :
  profile_of 7 (run someone_else (run [stands_inside] (fresh clock_0_then_6)))
  = profile_of 7 (run [stands_inside] (fresh clock_0_then_6)).
Proof.
  apply (calls_leave_other_identities_alone 7 someone_else).
  repeat constructor. vm_compute. discriminate.
Defined.

(** X4: with the same stored state and otherwise equal arguments, a
    larger zone risk, a larger speed and a larger posture risk never give
    a smaller score. *)
Theorem score_monotone
    (pid cx cy : Z) (idz : bool) (zn po : string) (w : World)
    (zr1 zr2 : Z) (sp1 sp2 : Q) (pr1 pr2 : Z) :
  zr1 <= zr2 -> (sp1 <= sp2)%Q -> pr1 <= pr2 ->
  score (fst (calculate_risk pid cx cy idz zn zr1 sp1 po pr1 w))
  <= score (fst (calculate_risk pid cx cy idz zn zr2 sp2 po pr2 w)).
Proof.
  intros Hzr Hsp Hpr. rewrite !calculate_risk_eq. cbn [fst score].
  pose proof (factor_speed_monotone sp1 sp2 Hsp).
  pose proof (factor_acceleration_monotone
                (speeds (fst (get_profile pid w))) sp1 sp2 Hsp).
  assert (factor_zone idz zr1 <= factor_zone idz zr2) by (destruct idz; simpl; lia).
  assert (factor_posture pr1 <= factor_posture pr2) by (unfold factor_posture; lia).
  lia.
Qed.

Lemma score_monotone_witness :
  score (fst (calculate_risk 7 600 400 true "HEAVY_MACHINERY" 30 10%Q "STANDING" 0
                (fresh clock_0_then_6)))
  <= score (fst (calculate_risk 7 600 400 true "HEAVY_MACHINERY" 40 250%Q "STANDING" 25
                   (fresh clock_0_then_6))).
Proof.
  apply score_monotone; [lia | vm_compute; discriminate | lia].
Defined.

(** X5: while an identity stays inside a zone its dwell start is kept, also
    across calls made for other identities in between, and with a clock
    that never goes back the dwell-time factor of the later call is at
    least that of the earlier one. *)
Theorem dwell_grows_while_inside
    (pid : Z) (w : World) (others : list Call)
    (cx1 cy1 : Z) (zn1 : string) (zr1 : Z) (sp1 : Q) (po1 : string) (pr1 : Z)
    (cx2 cy2 : Z) (zn2 : string) (zr2 : Z) (sp2 : Q) (po2 : string) (pr2 : Z) :
  Forall (fun c => arg_person_id c <> pid) others ->
  nondecreasing (clock w) ->
  let r1 := fst (calculate_risk pid cx1 cy1 true zn1 zr1 sp1 po1 pr1 w) in
  let w1 := run others (snd (calculate_risk pid cx1 cy1 true zn1 zr1 sp1 po1 pr1 w)) in
  let r2 := fst (calculate_risk pid cx2 cy2 true zn2 zr2 sp2 po2 pr2 w1) in
  let w2 := snd (calculate_risk pid cx2 cy2 true zn2 zr2 sp2 po2 pr2 w1) in
  (exists (start : Q) (p1 p2 : PersonProfile),
      person_profiles w1 !! pid = Some p1 /\ first_danger_time p1 = Some start /\
      person_profiles w2 !! pid = Some p2 /\ first_danger_time p2 = Some start) /\
  factor_get "Time" (factors r1) <= factor_get "Time" (factors r2).
Proof.
  intros Hothers Hclk r1 w1 r2 w2.
  set (wa := snd (calculate_risk pid cx1 cy1 true zn1 zr1 sp1 po1 pr1 w)) in *.
  destruct (calculate_risk_stored pid cx1 cy1 true zn1 zr1 sp1 po1 pr1 w)
    as (p1 & Hp1 & _ & _ & _ & _ & _ & Hfdt1).
  fold wa in Hp1.
  assert (Hp1' : person_profiles w1 !! pid = Some p1).
  { subst w1. rewrite run_others by exact Hothers. exact Hp1. }
  assert (Hclk1 : clock w1 = clock w).
  { subst w1 wa. rewrite run_clock. apply calculate_risk_clock. }
  assert (Hticks : (ticks wa <= ticks w1)%nat) by apply run_ticks.
  (* the first call: its dwell start and the reading it is compared with *)
  assert (Hfirst : exists (start : Q) (k : nat),
             first_danger_time p1 = Some start /\
             (k < ticks wa)%nat /\
             factor_get "Time" (factors r1) = factor_time (clock w k - start)%Q).
  { subst r1. rewrite calculate_risk_time_factor, Hfdt1.
    unfold wa. rewrite calculate_risk_eq. cbn [snd ticks].
    assert (Hc0 : clock (snd (get_profile pid w)) = clock w) by apply get_profile_clock.
    destruct (first_danger_time (fst (get_profile pid w))) as [t |].
    - rewrite dwell_staying. cbn [fst snd time_time clock ticks]. rewrite Hc0.
      exists t, (S (ticks (snd (get_profile pid w)))). repeat split. lia.
    - rewrite dwell_entering. cbn [fst snd time_time clock ticks]. rewrite Hc0.
      eexists _, (S (S (ticks (snd (get_profile pid w))))). repeat split. lia. }
  destruct Hfirst as (start & k & Hstart & Hk & Htime1).
  (* the second call finds the dwell start and keeps it *)
  assert (Htime2 : factor_get "Time" (factors r2)
                   = factor_time (clock w (S (ticks w1)) - start)%Q).
  { subst r2. rewrite calculate_risk_time_factor.
    rewrite (get_profile_hit _ _ _ Hp1'). cbn [fst snd].
    rewrite Hstart, dwell_staying. cbn [fst snd time_time clock ticks].
    rewrite Hclk1. reflexivity. }
  split.
  - destruct (calculate_risk_stored pid cx2 cy2 true zn2 zr2 sp2 po2 pr2 w1)
      as (p2 & Hp2 & _ & _ & _ & _ & _ & Hfdt2).
    exists start, p1, p2. split; [exact Hp1' |]. split; [exact Hstart |].
    split; [exact Hp2 |].
    rewrite Hfdt2, (get_profile_hit _ _ _ Hp1'). cbn [fst snd].
    rewrite Hstart, dwell_staying. reflexivity.
  - rewrite Htime1, Htime2. apply factor_time_monotone.
    assert (Hle : (clock w k <= clock w (S (ticks w1)))%Q) by (apply Hclk; lia).
    lra.
Qed.

Lemma clock_0_then_6_nondecreasing : nondecreasing clock_0_then_6.
Proof.
  intros i j Hij. unfold clock_0_then_6.
  destruct (Nat.ltb_spec i 5), (Nat.ltb_spec j 5); try lia; vm_compute; discriminate.
Qed.

Lemma dwell_grows_while_inside_witness :
  factor_get "Time" (factors (fst (call stands_inside (fresh clock_0_then_6))))
  <= factor_get "Time"
       (factors (fst (call stands_inside
                        (run someone_else
                           (snd (call stands_inside (fresh clock_0_then_6))))))).
Proof.
  refine (proj2 (dwell_grows_while_inside 7 (fresh clock_0_then_6) someone_else
                   600 400 "HEAVY_MACHINERY" 40 0%Q "STANDING" 0
                   600 400 "HEAVY_MACHINERY" 40 0%Q "STANDING" 0 _ _)).
  - repeat constructor. vm_compute. discriminate.
  - exact clock_0_then_6_nondecreasing.
Defined.

(** X6: in a session that starts with an empty store, the first two
    assessments of an identity have the trend "STABLE" and no acceleration
    factor, whatever their scores and speeds. *)
Theorem first_two_assessments_are_stable
    (clk : nat -> Q) (cs : list Call) (c : Call) :
  (length (calls_of (arg_person_id c) cs) < 2)%nat ->
  let r := fst (call c (run cs (fresh clk))) in
  trend r = "STABLE" /\ factor_get "Accel" (factors r) = 0.
Proof.
  intros Hfew r.
  pose proof (entry_tracks clk cs (arg_person_id c)) as Htr.
  pose proof (tracks_lengths _ _ Htr) as Hlen.
  rewrite observations_length in Hlen.
  unfold history_lengths in Hlen. cbn [repeat] in Hlen.
  injection Hlen as _ _ _ Hsp Hrs.
  split.
  - subst r. unfold call. rewrite calculate_risk_eq. cbn [fst trend].
    apply determine_trend_short.
    unfold deque_append. rewrite Hrs.
    destruct (_ <? maxlen)%nat; rewrite length_app, ?length_drop, Hrs;
      cbn [length]; unfold maxlen; lia.
  - subst r. unfold call. rewrite calculate_risk_accel_factor.
    apply factor_acceleration_short. rewrite Hsp. unfold maxlen. lia.
Qed.

Lemma first_two_assessments_are_stable_witness :
  trend (fst (call (zone_only 90) (run [zone_only 10] (fresh (fun _ => 0%Q)))))
  = "STABLE".
Proof.
  apply (first_two_assessments_are_stable (fun _ => 0%Q) [zone_only 10] (zone_only 90)).
  vm_compute. lia.
Defined.

End RiskSession.

(** ** Zone reports *)

Module ZoneReports.

Import ZoneUtils ZoneClassification.
Local Open Scope string_scope.
Local Open Scope Z_scope.

Section Reports.

Variable pointPolygonTest : list (Z * Z) -> Z * Z -> Z.

(** What a positive classification says about the zone dictionary. *)
Lemma classify_inversion zones point zone_name zone_risk :
  classify pointPolygonTest zones point = (true, zone_name, zone_risk) ->
  exists before zone_info after,
    zones = (before ++ (zone_name, zone_info) :: after)%list /\
    Forall (outside pointPolygonTest point) before /\
    0 <= pointPolygonTest (coords zone_info) point /\
    zone_risk = risk zone_info.
Proof.
  induction zones as [| [key info] zones IH]; simpl; [discriminate |].
  destruct (Z.leb_spec 0 (pointPolygonTest (coords info) point)) as [Hin | Hout].
  - intros H. injection H as <- <-.
    exists [], info, zones. repeat split; [constructor | exact Hin].
  - intros H. destruct (IH H) as (before & zi & after & -> & Hb & Hz & Hr).
    exists ((key, info) :: before), zi, after.
    repeat split; [constructor; assumption | exact Hz | exact Hr].
Qed.

Lemma classify_negative zones point flag zone_name zone_risk :
  classify pointPolygonTest zones point = (flag, zone_name, zone_risk) ->
  flag = false ->
  zone_name = "SAFE" /\ zone_risk = 0 /\ Forall (outside pointPolygonTest point) zones.
Proof.
  induction zones as [| [key info] zones IH]; simpl.
  - intros H _. injection H as _ <- <-. repeat split. constructor.
  - destruct (Z.leb_spec 0 (pointPolygonTest (coords info) point)) as [Hin | Hout].
    + intros H ->. discriminate H.
    + intros H Hf. destruct (IH H Hf) as (Hn & Hr & Hall).
      repeat split; [exact Hn | exact Hr |]. constructor; assumption.
Qed.

Lemma zone_lookup_first before key info after :
  key ∉ before.*1 ->
  zone_lookup key (before ++ (key, info) :: after)%list = Some info.
Proof.
  induction before as [| [k i] before IH]; simpl; intros Hnotin.
  - rewrite String.eqb_refl. reflexivity.
  - destruct (String.eqb_spec k key) as [-> | Hne].
    + exfalso. apply Hnotin. left.
    + apply IH. intros Hin. apply Hnotin. right. exact Hin.
Qed.

End Reports.

(** X7: the classification is sound. When it reports a zone, the point
    is inside or on the boundary of that zone's polygon, outside the
    polygon of every zone declared before it, and the reported risk is
    that zone's base risk; when it reports no zone, the name is "SAFE", the
    risk is 0 and the point is outside every polygon. *)
Theorem classification_is_sound
    (pointPolygonTest : list (Z * Z) -> Z * Z -> Z)
    (zones : list (string * ZoneInfo)) (cx cy : Z) :
  let '(in_danger, zone_name, zone_risk) := classify pointPolygonTest zones (cx, cy) in
  if in_danger then
    exists before zone_info after,
      zones = (before ++ (zone_name, zone_info) :: after)%list /\
      Forall (outside pointPolygonTest (cx, cy)) before /\
      0 <= pointPolygonTest (coords zone_info) (cx, cy) /\
      zone_risk = risk zone_info
  else
    zone_name = "SAFE" /\ zone_risk = 0 /\
    Forall (outside pointPolygonTest (cx, cy)) zones.
Proof.
  destruct (classify pointPolygonTest zones (cx, cy)) as [[flag zone_name] zone_risk] eqn:E.
  destruct flag.
  - apply (classify_inversion _ _ _ _ _ E).
  - apply (classify_negative _ _ _ _ _ _ E). reflexivity.
Qed.

(** With the configured zones the reported risk is 0, 30, 35 or 40, and
    it is positive exactly when a zone is reported. *)
Lemma configured_zone_risk (pointPolygonTest : list (Z * Z) -> Z * Z -> Z) (cx cy : Z) :
  let '(in_danger, _, zone_risk) := is_person_in_danger_zone pointPolygonTest cx cy in
  (in_danger = true /\ (zone_risk = 40 \/ zone_risk = 35 \/ zone_risk = 30))
  \/ (in_danger = false /\ zone_risk = 0).
Proof.
  unfold is_person_in_danger_zone, DANGER_ZONES, classify. cbn [coords risk].
  repeat match goal with
         | |- context [0 <=? ?r] => destruct (0 <=? r)
         end; tauto.
Qed.

(** X8: on a zone dictionary (distinct keys) [get_zone_info] never hits a
    missing key, and its report agrees with the classification: the
    risk is the classified risk, ["is_safe"] is the negation of the danger
    flag, and for a danger zone the report is the entry of the first zone
    containing the point. *)
Theorem zone_report_agrees_with_classification
    (pointPolygonTest : list (Z * Z) -> Z * Z -> Z)
    (zones : list (string * ZoneInfo)) (cx cy : Z) :
  NoDup (zones.*1) ->
  exists info : ZoneReport,
    zone_report pointPolygonTest zones cx cy = Some info /\
    let '(in_danger, zone_name, zone_risk) := classify pointPolygonTest zones (cx, cy) in
    report_risk info = zone_risk /\
    report_is_safe info = negb in_danger /\
    (in_danger = true ->
     exists zone_info, (zone_name, zone_info) ∈ zones
                       /\ info = danger_report zone_info false) /\
    (in_danger = false -> info = safe_report true "SAFE AREA" 0).
Proof.
  intros Hnd. unfold zone_report.
  destruct (classify pointPolygonTest zones (cx, cy)) as [[flag zone_name] zone_risk] eqn:E.
  destruct flag.
  - destruct (classify_inversion _ _ _ _ _ E) as (before & zi & after & Hz & _ & _ & Hr).
    assert (Hnotin : zone_name ∉ before.*1).
    { rewrite Hz, fmap_app in Hnd. apply NoDup_app in Hnd as (_ & Hdisj & _).
      intros Hin. apply (Hdisj _ Hin). left. }
    rewrite Hz, (zone_lookup_first _ _ _ _ Hnotin).
    exists (danger_report zi false). split; [reflexivity |].
    split; [symmetry; exact Hr |]. split; [reflexivity |].
    split; [| discriminate].
    intros _. exists zi. split; [| reflexivity].
    apply elem_of_app. right. left.
  - destruct (classify_negative _ _ _ _ _ _ E eq_refl) as (_ & -> & _).
    eexists. split; [reflexivity |]. repeat split. discriminate.
Qed.

Lemma zone_report_agrees_with_classification_witness :
  exists info,
    get_zone_info crossing_test 600 300 = Some info /\
    report_risk info = 40 /\ report_is_safe info = false.
Proof.
  assert (Hnd : NoDup (DANGER_ZONES.*1)).
  { apply (bool_decide_unpack _). vm_compute. exact I. }
  destruct (zone_report_agrees_with_classification crossing_test DANGER_ZONES 600 300 Hnd)
    as (info & Hinfo & Hagree).
  exists info. split; [exact Hinfo |].
  change (classify crossing_test DANGER_ZONES (600, 300))
    with (true, "HEAVY_MACHINERY", 40) in Hagree.
  destruct Hagree as (Hr & Hs & _). split; assumption.
Defined.

Lemma bounding_box_x (poly : list (Z * Z)) (p : Z * Z) (lo hi : Z) :
  in_bounding_box poly p = true ->
  Forall (fun v => lo <= fst v <= hi) poly ->
  lo <= fst p <= hi.
Proof.
  unfold in_bounding_box. intros Hb Hall.
  apply andb_prop in Hb as [Hb _]. apply andb_prop in Hb as [Hb _].
  apply andb_prop in Hb as [Hleft Hright].
  apply existsb_exists in Hleft as (v & Hv & Hle).
  apply existsb_exists in Hright as (u & Hu & Hge).
  apply Z.leb_le in Hle, Hge.
  rewrite Forall_forall in Hall.
  pose proof (Hall v (proj2 (list_elem_of_In _ _) Hv)).
  pose proof (Hall u (proj2 (list_elem_of_In _ _) Hu)).
  lia.
Qed.

(** X19: with the configured zones the proximity factor of
    [calculate_risk] is never applied to a classified point. Whenever the
    point-in-polygon test reports the point inside a configured polygon
    only if it lies in that polygon's bounding box, the classification
    gives a point with 100 <= cx <= 900 or no zone at all, and the
    proximity factor (which needs a zone and cx < 100 or cx > 1180) is 0. *)
Theorem proximity_never_applies
    (pointPolygonTest : list (Z * Z) -> Z * Z -> Z) (cx cy : Z) :
  Forall (fun z => 0 <= pointPolygonTest (coords (snd z)) (cx, cy) ->
                   in_bounding_box (coords (snd z)) (cx, cy) = true) DANGER_ZONES ->
  let '(in_danger, zone_name, zone_risk) := is_person_in_danger_zone pointPolygonTest cx cy in
  (in_danger = true -> 100 <= cx <= 900) /\
  RiskEngine.factor_proximity in_danger cx = 0 /\
  forall pid sp po pr w,
    RiskEngine.factor_get "Proximity"
      (RiskEngine.factors
         (fst (RiskEngine.calculate_risk pid cx cy in_danger zone_name zone_risk
                 sp po pr w))) = 0.
Proof.
  intros Hbox.
  assert (Hx : forall z, z ∈ DANGER_ZONES ->
                         0 <= pointPolygonTest (coords (snd z)) (cx, cy) ->
                         100 <= cx <= 900).
  { intros z Hz Hin. rewrite Forall_forall in Hbox. pose proof (Hbox z Hz Hin) as Hb.
    apply (bounding_box_x _ _ 100 900 Hb).
    unfold DANGER_ZONES in Hz.
    repeat (apply elem_of_cons in Hz as [-> | Hz]);
      [| | | apply elem_of_nil in Hz; destruct Hz];
      cbn [snd coords]; repeat (constructor; [cbn; lia |]); constructor. }
  destruct (is_person_in_danger_zone pointPolygonTest cx cy)
    as [[in_danger zone_name] zone_risk] eqn:E.
  assert (Hrange : in_danger = true -> 100 <= cx <= 900).
  { intros ->. unfold is_person_in_danger_zone in E.
    destruct (classify_inversion _ _ _ _ _ E) as (before & zi & after & Hz & _ & Hin & _).
    apply (Hx (zone_name, zi)); [| exact Hin].
    rewrite Hz. apply elem_of_app. right. left. }
  assert (Hprox : RiskEngine.factor_proximity in_danger cx = 0).
  { unfold RiskEngine.factor_proximity. destruct in_danger; [| reflexivity].
    specialize (Hrange eq_refl). cbn [andb].
    destruct (Z.ltb_spec cx 100); [lia |]. destruct (Z.ltb_spec 1180 cx); [lia | reflexivity]. }
  split; [exact Hrange |]. split; [exact Hprox |].
  intros pid sp po pr w. rewrite RiskFacts.calculate_risk_eq. cbn [fst RiskEngine.factors].
  match goal with
  | |- context [RiskEngine.build_factors ?a ?b ?c ?e ?f ?g] =>
      destruct (RiskFacts.build_factors_get a b c e f g) as (_ & _ & _ & _ & Gx & _)
  end.
  rewrite Gx, Hprox. reflexivity.
Qed.

Lemma proximity_never_applies_witness :
  RiskEngine.factor_proximity
    (fst (fst (is_person_in_danger_zone crossing_test 100 200))) 100 = 0.
Proof.
  refine (proj1 (proj2 (proximity_never_applies crossing_test 100 200 _))).
  repeat constructor; intros H; vm_compute; try reflexivity;
    exfalso; vm_compute in H; apply H; reflexivity.
Defined.

End ZoneReports.

(** ** The tracker's position history over a session *)

Module SpeedSession.

Import TrackerUtils DequeFacts SpeedEstimate Scenarios.
Local Open Scope Z_scope.

Lemma squared_distance_in_range (p q : Z * Z) :
  in_pixel_range p -> in_pixel_range q ->
  0 <= (fst q - fst p) ^ 2 + (snd q - snd p) ^ 2 < 2 ^ 64.
Proof.
  unfold in_pixel_range, pixel_range. intros [Hp1 Hp2] [Hq1 Hq2].
  rewrite !Z.pow_2_r.
  assert (Hsq : forall d : Z, Z.abs d <= 2 ^ 31 -> 0 <= d * d <= 2 ^ 62).
  { intros d Hd. change (2 ^ 62) with (2 ^ 31 * 2 ^ 31).
    pose proof (Z.square_nonneg d). split; [lia |].
    rewrite <- (Z.abs_square d).
    apply Z.mul_le_mono_nonneg; lia. }
  pose proof (Hsq (fst q - fst p) ltac:(change (2 ^ 30) with 1073741824 in *;
                                       change (2 ^ 31) with 2147483648; lia)).
  pose proof (Hsq (snd q - snd p) ltac:(change (2 ^ 30) with 1073741824 in *;
                                       change (2 ^ 31) with 2147483648; lia)).
  change (2 ^ 64) with (4 * 2 ^ 62). lia.
Qed.

Lemma bounded_history_insert ph person_id hist :
  bounded_history ph -> Forall in_pixel_range (positions hist) ->
  bounded_history (<[person_id := hist]> ph).
Proof.
  intros Hb Hh pid h Hlook.
  destruct (decide (person_id = pid)) as [-> | Hne].
  - rewrite lookup_insert_eq in Hlook. injection Hlook as <-. exact Hh.
  - rewrite lookup_insert_ne in Hlook by exact Hne. exact (Hb pid h Hlook).
Qed.

Lemma bounded_history_default ph person_id :
  bounded_history ph ->
  Forall in_pixel_range (positions (default empty_history (ph !! person_id))).
Proof.
  intros Hb. destruct (ph !! person_id) as [h |] eqn:E; simpl.
  - exact (Hb person_id h E).
  - constructor.
Qed.

Lemma keep_last_10_Forall {A : Type} (P : A -> Prop) (l : list A) (too_long : bool) :
  Forall P l -> Forall P (keep_last_10 l too_long).
Proof.
  intros H. destruct too_long; simpl; [apply Forall_drop |]; exact H.
Qed.

Section Runs.

Variable np_sqrt : Z -> option Q.

(** What a returned speed is: 0, or the float quotient of a square root
    by a positive elapsed time. *)
Lemma calculate_speed_value person_id cx cy current_time position_history s ph' :
  length (times (default empty_history (position_history !! person_id)))
  = length (positions (default empty_history (position_history !! person_id))) ->
  calculate_speed np_sqrt person_id cx cy current_time position_history
  = Some (s, ph') ->
  s = 0%Q \/
  exists (d : Z) (r dt : Q),
    0 <= d /\ np_sqrt d = Some r /\ (0 < dt)%Q /\ s = float_div r dt.
Proof.
  set (hist := default empty_history (position_history !! person_id)).
  intros Hlen Hcall.
  destruct (positions hist) as [| p0 ps] eqn:Eps using rev_ind.
  - unfold calculate_speed in Hcall. fold hist in Hcall. rewrite Eps in Hcall.
    destruct (times hist) as [| t0 ts]; [| discriminate Hlen].
    cbn in Hcall. injection Hcall as <- _. left. reflexivity.
  - clear IHps.
    destruct (times hist) as [| t0 ts] eqn:Ets using rev_ind.
    { rewrite length_app in Hlen. cbn [length] in Hlen. lia. }
    clear IHts. rewrite !length_app in Hlen. cbn [length] in Hlen.
    destruct p0 as [prev_x prev_y].
    pose proof (calculate_speed_snoc np_sqrt person_id cx cy current_time
                  position_history ps prev_x prev_y ts t0) as Heq.
    cbv zeta in Heq. fold hist in Heq. rewrite Eps, Ets in Heq.
    specialize (Heq eq_refl eq_refl ltac:(lia)).
    rewrite Heq in Hcall.
    destruct (np_sqrt ((cx - prev_x) ^ 2 + (cy - prev_y) ^ 2)) as [r |] eqn:Er;
      [| discriminate Hcall].
    destruct (Qgtb (float_sub current_time t0) 0) eqn:Eg.
    + apply Qgtb_true in Eg. rewrite (truediv_positive _ _ Eg) in Hcall.
      injection Hcall as <- _. right.
      exists ((cx - prev_x) ^ 2 + (cy - prev_y) ^ 2), r, (float_sub current_time t0).
      split; [| split; [exact Er | split; [exact Eg | reflexivity]]].
      rewrite !Z.pow_2_r.
      pose proof (Z.square_nonneg (cx - prev_x)).
      pose proof (Z.square_nonneg (cy - prev_y)). lia.
    + injection Hcall as <- _. left. reflexivity.
Qed.

(** One call on an entry with as many timestamps as positions, where
    [numpy.sqrt] returns on the squared distance to the previous
    position: it succeeds and stores the last 10 observations. *)
Lemma calculate_speed_result person_id cx cy current_time position_history :
  let hist := default empty_history (position_history !! person_id) in
  let too_long := (10 <? length (positions hist ++ [(cx, cy)]))%nat in
  length (times hist) = length (positions hist) ->
  (forall prev_x prev_y : Z,
      last (positions hist) = Some (prev_x, prev_y) ->
      is_Some (np_sqrt ((cx - prev_x) ^ 2 + (cy - prev_y) ^ 2))) ->
  exists s,
    calculate_speed np_sqrt person_id cx cy current_time position_history
    = Some (s, <[person_id :=
                   mkHistory (keep_last_10 (positions hist ++ [(cx, cy)]) too_long)
                             (keep_last_10 (times hist ++ [current_time]) too_long) s]>
                 position_history).
Proof.
  intros hist too_long Hlen Hsqrt.
  destruct (positions hist) as [| p0 ps] eqn:Eps using rev_ind.
  - unfold calculate_speed. fold hist. subst too_long. rewrite Eps.
    destruct (times hist) as [| t0 ts]; [| discriminate Hlen].
    cbn. exists 0%Q. reflexivity.
  - clear IHps.
    destruct (times hist) as [| t0 ts] eqn:Ets using rev_ind.
    { rewrite length_app in Hlen. cbn [length] in Hlen. lia. }
    clear IHts. rewrite !length_app in Hlen. cbn [length] in Hlen.
    destruct p0 as [prev_x prev_y].
    pose proof (calculate_speed_snoc np_sqrt person_id cx cy current_time
                  position_history ps prev_x prev_y ts t0) as Heq.
    cbv zeta in Heq. fold hist in Heq. rewrite Eps, Ets in Heq.
    specialize (Heq eq_refl eq_refl ltac:(lia)).
    destruct (Hsqrt prev_x prev_y (last_snoc _ _)) as [r Er].
    rewrite Er in Heq.
    destruct (guarded_division r (float_sub current_time t0)) as (s & Hs & _).
    rewrite Hs in Heq. exists s. exact Heq.
Qed.

(** The same for positions in the pixel range. *)
Lemma calculate_speed_in_range person_id cx cy current_time position_history :
  let hist := default empty_history (position_history !! person_id) in
  let too_long := (10 <? length (positions hist ++ [(cx, cy)]))%nat in
  sqrt_defined np_sqrt ->
  well_formed position_history -> bounded_history position_history ->
  in_pixel_range (cx, cy) ->
  exists s ph',
    calculate_speed np_sqrt person_id cx cy current_time position_history
    = Some (s, ph') /\
    ph' = <[person_id :=
              mkHistory (keep_last_10 (positions hist ++ [(cx, cy)]) too_long)
                        (keep_last_10 (times hist ++ [current_time]) too_long) s]>
            position_history /\
    well_formed ph' /\ bounded_history ph'.
Proof.
  intros hist too_long Hsqrt Hwf Hb Hc.
  pose proof (bounded_history_default _ person_id Hb) as Hbh. fold hist in Hbh.
  pose proof (well_formed_default _ person_id Hwf) as Hlen. fold hist in Hlen.
  destruct (calculate_speed_result person_id cx cy current_time position_history Hlen)
    as (s & Hs).
  { intros prev_x prev_y Hlast. apply Hsqrt.
    apply (squared_distance_in_range (prev_x, prev_y) (cx, cy)); [| exact Hc].
    apply last_Some in Hlast. destruct Hlast as [l' Hl'].
    fold hist in Hl'. rewrite Hl' in Hbh.
    apply Forall_app in Hbh. destruct Hbh as [_ Hbh].
    inversion Hbh; assumption. }
  exists s. eexists. split; [exact Hs |]. split; [reflexivity |].
  split.
  - apply well_formed_insert; [exact Hwf |]. cbn [times positions].
    rewrite !keep_last_10_length, !length_app. fold hist. rewrite Hlen. reflexivity.
  - apply bounded_history_insert; [exact Hb |]. cbn [positions].
    apply keep_last_10_Forall. apply Forall_app. split; [exact Hbh |].
    constructor; [exact Hc | constructor].
Qed.

Lemma keep_last_10_bounded {A : Type} (l : list A) (x : A) :
  (length l <= 10)%nat ->
  length (keep_last_10 (l ++ [x]) (10 <? length (l ++ [x]))%nat)
  = Nat.min (S (length l)) 10.
Proof.
  intros Hl. rewrite keep_last_10_length, length_app. cbn [length].
  destruct (Nat.ltb_spec 10 (length l + 1)); lia.
Qed.

Lemma speed_run_snoc cs c :
  speed_run np_sqrt (cs ++ [c]) = speed_step np_sqrt (speed_run np_sqrt cs) c.
Proof. unfold speed_run. rewrite fold_left_app. reflexivity. Qed.

(** The invariant of a session with positions in the pixel range: no call
    raises, and the entry of an identity holds its last 10 observations. *)
Lemma speed_run_invariant cs :
  sqrt_defined np_sqrt -> sightings_in_range cs ->
  exists ph,
    speed_run np_sqrt cs = Some ph /\
    well_formed ph /\ bounded_history ph /\
    forall pid,
      let n := length (sightings_of pid cs) in
      match ph !! pid with
      | Some h => length (positions h) = Nat.min n 10
                  /\ length (times h) = Nat.min n 10 /\ (0 < n)%nat
      | None => n = 0%nat
      end.
Proof.
  intros Hsqrt.
  induction cs as [| c cs IH] using rev_ind; intros Hrange.
  - exists ∅. split; [reflexivity |].
    split; [intros pid h H; rewrite lookup_empty in H; discriminate H |].
    split; [intros pid h H; rewrite lookup_empty in H; discriminate H |].
    intros pid. rewrite lookup_empty. reflexivity.
  - apply Forall_app in Hrange. destruct Hrange as [Hcs Hc].
    inversion Hc as [| ? ? Hc' _]; subst.
    destruct (IH Hcs) as (ph & Hrun & Hwf & Hb & Hinv).
    rewrite speed_run_snoc, Hrun. cbn [speed_step].
    pose proof (Hinv (seen_id c)) as Hcount. cbv zeta in Hcount.
    destruct (calculate_speed_in_range (seen_id c) (seen_x c) (seen_y c)
                (seen_time c) ph Hsqrt Hwf Hb Hc')
      as (s & ph' & -> & Hph' & Hwf' & Hb').
    cbn [fmap option_fmap option_map snd].
    exists ph'. split; [reflexivity |].
    split; [exact Hwf' |]. split; [exact Hb' |].
    subst ph'.
    set (hist := default empty_history (ph !! seen_id c)).
    assert (Hh : length (positions hist)
                 = Nat.min (length (sightings_of (seen_id c) cs)) 10
                 /\ length (times hist) = length (positions hist)).
    { subst hist. destruct (ph !! seen_id c) as [h |]; cbn.
      - destruct Hcount as (-> & -> & _). split; reflexivity.
      - rewrite Hcount. split; reflexivity. }
    destruct Hh as [Hpos Htimes].
    intros pid. unfold sightings_of. rewrite filter_app, filter_cons, filter_nil.
    destruct (decide (seen_id c = pid)) as [<- | Hne].
    + rewrite lookup_insert_eq. cbn [positions times].
      fold (sightings_of (seen_id c) cs).
      rewrite !keep_last_10_length, !length_app. cbn [length].
      destruct (Nat.ltb_spec 10 (length (positions hist) + 1)); lia.
    + rewrite lookup_insert_ne by exact Hne. rewrite app_nil_r. apply Hinv.
Qed.

End Runs.

(** X9: over every sequence of [calculate_speed] calls that starts with
    the empty [position_history] and is made with pixel coordinates of
    magnitude at most [2**30], where [numpy.sqrt] returns on every squared
    distance, no call raises, and the entry of an identity holds as many
    positions as timestamps: the number of calls made for it, capped at
    10. An identity never seen has no entry. *)
Theorem position_history_keeps_last_10 (np_sqrt : Z -> option Q) (cs : list Sighting) :
  sqrt_defined np_sqrt -> sightings_in_range cs ->
  exists ph : gmap Z History,
    speed_run np_sqrt cs = Some ph /\
    forall pid : Z,
      match ph !! pid with
      | Some h =>
          length (positions h) = Nat.min (length (sightings_of pid cs)) 10 /\
          length (times h) = length (positions h) /\
          (0 < length (positions h) <= 10)%nat
      | None => sightings_of pid cs = []
      end.
Proof.
  intros Hsqrt Hrange.
  destruct (speed_run_invariant np_sqrt cs Hsqrt Hrange) as (ph & Hrun & _ & _ & Hinv).
  exists ph. split; [exact Hrun |].
  intros pid. specialize (Hinv pid). cbv zeta in Hinv.
  destruct (ph !! pid) as [h |].
  - destruct Hinv as (Hp & Ht & Hn). rewrite Hp, Ht. repeat split; lia.
  - apply length_zero_iff_nil. exact Hinv.
Qed.

Lemma isqrt_defined : sqrt_defined isqrt.
Proof.
  intros z [H0 H64]. unfold isqrt.
  destruct (Z.leb_spec 0 z) as [_ | H]; [| lia].
  destruct (Z.ltb_spec z (2 ^ 64)) as [_ | H]; [| lia].
  eexists. reflexivity.
Qed.

Lemma twelve_sightings_in_range : sightings_in_range twelve_sightings.
Proof.
  unfold sightings_in_range.
  repeat (constructor; [unfold in_pixel_range, pixel_range; cbn; lia |]).
  constructor.
Qed.

(** Twelve sightings of identity 7: its entry holds 10 positions. *)
Lemma position_history_keeps_last_10_witness :
  exists ph : gmap Z History,
    speed_run isqrt twelve_sightings = Some ph /\
    (fun h => length (positions h)) <$> ph !! 7 = Some 10%nat.
Proof.
  destruct (position_history_keeps_last_10 isqrt twelve_sightings
              isqrt_defined twelve_sightings_in_range) as (ph & Hrun & Hinv).
  exists ph. split; [exact Hrun |].
  specialize (Hinv 7).
  destruct (ph !! 7) as [h |].
  - destruct Hinv as (Hp & _). cbn. rewrite Hp. reflexivity.
  - vm_compute in Hinv. discriminate Hinv.
Defined.

(** X10: when the square root of a non-negative integer is not negative,
    the speed returned by [calculate_speed] is never negative, whatever
    the order of the timestamps. *)
Theorem speed_is_never_negative
    (np_sqrt : Z -> option Q) (person_id cx cy : Z) (current_time : Q)
    (position_history : gmap Z History) (s : Q) (ph' : gmap Z History) :
  (forall (z : Z) (r : Q), 0 <= z -> np_sqrt z = Some r -> (0 <= r)%Q) ->
  well_formed position_history ->
  calculate_speed np_sqrt person_id cx cy current_time position_history = Some (s, ph') ->
  (0 <= s)%Q.
Proof.
  intros Hsqrt Hwf Hcall.
  destruct (calculate_speed_value np_sqrt person_id cx cy current_time
              position_history s ph' (well_formed_default _ _ Hwf) Hcall)
    as [-> | (d & r & dt & Hd & Hr & Hdt & ->)]; [discriminate |].
  unfold float_div. apply round_double_nonneg.
  apply Qle_shift_div_l; [exact Hdt |].
  rewrite Qmult_0_l. exact (Hsqrt d r Hd Hr).
Qed.

Lemma isqrt_nonneg (z : Z) (r : Q) : 0 <= z -> isqrt z = Some r -> (0 <= r)%Q.
Proof.
  intros _. unfold isqrt.
  destruct ((0 <=? z) && (z <? 2 ^ 64)); [| discriminate].
  intros H. injection H as <-.
  change 0%Q with (inject_Z 0). rewrite <- Zle_Qle. apply Z.sqrt_nonneg.
Qed.

Lemma speed_is_never_negative_witness :
  exists s ph', calculate_speed isqrt 7 3 4 3%Q seen_once = Some (s, ph') /\ (0 <= s)%Q.
Proof.
  destruct (calculate_speed isqrt 7 3 4 3%Q seen_once) as [[s ph'] |] eqn:E;
    [| vm_compute in E; discriminate].
  exists s, ph'. split; [reflexivity |].
  apply (speed_is_never_negative isqrt 7 3 4 3%Q seen_once s ph' isqrt_nonneg
           seen_once_well_formed E).
Defined.

(** X11: the centre computed by [get_person_center] lies inside the
    bounding box, is at most half a pixel below the exact midpoint, and
    does not depend on the order in which the two corners are given. *)
Theorem person_center_inside_box (x1 y1 x2 y2 : Z) :
  let '(cx, cy) := get_person_center x1 y1 x2 y2 in
  (x1 <= x2 -> x1 <= cx <= x2) /\
  (y1 <= y2 -> y1 <= cy <= y2) /\
  2 * cx <= x1 + x2 <= 2 * cx + 1 /\
  2 * cy <= y1 + y2 <= 2 * cy + 1 /\
  get_person_center x2 y2 x1 y1 = (cx, cy).
Proof.
  unfold get_person_center.
  pose proof (Z.div_mod (x1 + x2) 2 ltac:(lia)) as Hx.
  pose proof (Z.mod_pos_bound (x1 + x2) 2 ltac:(lia)) as Hxm.
  pose proof (Z.div_mod (y1 + y2) 2 ltac:(lia)) as Hy.
  pose proof (Z.mod_pos_bound (y1 + y2) 2 ltac:(lia)) as Hym.
  repeat split; try lia.
  rewrite (Z.add_comm x2 x1), (Z.add_comm y2 y1). reflexivity.
Qed.

Lemma person_center_inside_box_witness :
  get_person_center (-3) 10 4 21 = (0, 15) /\ -3 <= 0 <= 4.
Proof.
  split; [reflexivity |].
  apply (person_center_inside_box (-3) 10 4 21). lia.
Defined.

End SpeedSession.

(** ** Postures *)

Module PoseFacts.

Import PoseUtils Scenarios.
Local Open Scope string_scope.
Local Open Scope Z_scope.

Section Posture.

Variables (Keypoints Distance : Type).
Variable len : Keypoints -> nat.
Variable is_zero : Keypoints -> option bool.
Variable abs_diff : Keypoints -> Keypoints -> option Distance.
Variables less greater : Distance -> Z -> option bool.

Local Abbreviation analyze := (analyze_posture Keypoints Distance len is_zero abs_diff less greater).

Lemma get_pose_risk_fold (poses : list (option Keypoints)) (start : nat)
    (acc : gmap nat (string * Z)) (idx : nat) :
  fold_left (fun pose_risks item => <[fst item := analyze (snd item)]> pose_risks)
            (enumerate_from start poses) acc !! idx
  = if decide (start <= idx < start + length poses)%nat
    then analyze <$> poses !! (idx - start)%nat
    else acc !! idx.
Proof.
  revert start acc. induction poses as [| k poses IH]; intros start acc; simpl.
  - rewrite decide_False by lia. reflexivity.
  - rewrite IH. destruct (decide (S start <= idx < S start + length poses)%nat) as [Hin | Hout].
    + rewrite decide_True by lia.
      replace (idx - start)%nat with (S (idx - S start)) by lia. reflexivity.
    + destruct (decide (idx = start)) as [-> | Hne].
      * rewrite decide_True by lia. rewrite lookup_insert_eq, Nat.sub_diag. reflexivity.
      * rewrite decide_False by lia. apply lookup_insert_ne. congruence.
Qed.

End Posture.

(** X12: whatever the tensor operations do, [analyze_posture] returns one
    of ("UNKNOWN", 0), ("BENDING", 25), ("LYING", 50) and ("STANDING", 0),
    never ("KNEELING", 15): every joint is bound to the same [keypoints]
    value, so the two distances are equal and the kneeling test repeats a
    comparison that has just failed. When [d < 30] implies [d < 40] the
    result is not LYING either, and the risk is 0 or 25. *)
Theorem posture_is_never_kneeling
    (Keypoints Distance : Type) (len : Keypoints -> nat)
    (is_zero : Keypoints -> option bool)
    (abs_diff : Keypoints -> Keypoints -> option Distance)
    (less greater : Distance -> Z -> option bool)
    (keypoints : option Keypoints) :
  let result :=
    analyze_posture Keypoints Distance len is_zero abs_diff less greater keypoints in
  (result = ("UNKNOWN", 0) \/ result = ("BENDING", 25)
   \/ result = ("LYING", 50) \/ result = ("STANDING", 0)) /\
  ((forall d : Distance, less d 30 = Some true -> less d 40 = Some true) ->
   result = ("UNKNOWN", 0) \/ result = ("BENDING", 25) \/ result = ("STANDING", 0)).
Proof.
  intros result. subst result. unfold analyze_posture.
  destruct keypoints as [k |]; [| split; intros; tauto].
  destruct (len k <? 17)%nat; [split; intros; tauto |].
  unfold analyze_posture_try.
  destruct (is_zero k) as [[|] |]; cbn [py_or default]; try (split; intros; tauto).
  destruct (abs_diff k k) as [d |]; cbn [default]; [| split; intros; tauto].
  destruct (less d 40) as [[|] |] eqn:E40; cbn [default]; try (split; intros; tauto).
  destruct (less d 30) as [[|] |] eqn:E30; cbn [default].
  - split; [tauto |]. intros Hmono. rewrite (Hmono d E30) in E40. discriminate E40.
  - destruct (greater d 100) as [[|] |]; cbn [py_and default]; split; intros; tauto.
  - split; intros; tauto.
Qed.

Lemma posture_is_never_kneeling_witness :
  analyze_posture Z Z scalar_len scalar_is_zero scalar_abs_diff scalar_less
    scalar_greater (Some 250) = ("BENDING", 25).
Proof.
  destruct (proj2 (posture_is_never_kneeling Z Z scalar_len scalar_is_zero
                     scalar_abs_diff scalar_less scalar_greater (Some 250)))
    as [H | [H | H]].
  - intros d H. unfold scalar_less in *. injection H as H.
    apply Z.ltb_lt in H. f_equal. apply Z.ltb_lt. lia.
  - vm_compute in H. discriminate H.
  - exact H.
  - vm_compute in H. discriminate H.
Defined.

(** X13: the dictionary built by [get_pose_risk] has exactly the indices
    of the poses as keys, and the entry at an index is the analysis of the
    pose at that index. *)
Theorem pose_risk_lookup
    (Keypoints Distance : Type) (len : Keypoints -> nat)
    (is_zero : Keypoints -> option bool)
    (abs_diff : Keypoints -> Keypoints -> option Distance)
    (less greater : Distance -> Z -> option bool)
    (poses : list (option Keypoints)) (idx : nat) :
  get_pose_risk Keypoints Distance len is_zero abs_diff less greater poses !! idx
  = analyze_posture Keypoints Distance len is_zero abs_diff less greater
      <$> poses !! idx.
Proof.
  unfold get_pose_risk. rewrite get_pose_risk_fold.
  destruct (decide (0 <= idx < 0 + length poses)%nat) as [Hin | Hout].
  - rewrite Nat.sub_0_r. reflexivity.
  - rewrite lookup_empty. symmetry.
    rewrite (proj2 (lookup_ge_None poses idx)) by lia. reflexivity.
Qed.

End PoseFacts.

(** ** The frame loop *)

Module FrameFacts.

Import RiskEngine ZoneUtils Main FrameLoop Scenarios.
Import RiskFacts ZoneReports SpeedEstimate SpeedSession.
Local Open Scope string_scope.
Local Open Scope Z_scope.

Lemma calculate_risk_score_range pid cx cy idz zn zr sp po pr w :
  (idz = true -> 0 <= zr) -> 0 <= pr ->
  0 <= score (fst (calculate_risk pid cx cy idz zn zr sp po pr w)) <= 100.
Proof.
  intros Hzr Hpr. rewrite calculate_risk_eq. cbn [fst score].
  set (p0 := fst (get_profile pid w)).
  pose proof (dwell_factor_range idz (first_danger_time p0)
                (snd (time_time (snd (get_profile pid w))))) as Hft.
  cbv zeta in Hft.
  pose proof (factor_speed_range sp).
  pose proof (factor_proximity_range idz cx).
  pose proof (factor_acceleration_range (speeds p0) sp).
  assert (0 <= factor_zone idz zr) by (destruct idz; simpl; [apply Hzr; reflexivity | lia]).
  assert (0 <= factor_posture pr) by (unfold factor_posture; lia).
  lia.
Qed.

Lemma calculate_risk_critical pid cx cy idz zn zr sp po pr w :
  let r := fst (calculate_risk pid cx cy idz zn zr sp po pr w) in
  70 < score r -> status r = "CRITICAL".
Proof.
  intros r H. subst r. revert H. rewrite calculate_risk_eq. cbn [fst score status].
  intros H. destruct (determine_status_cases
                        (Z.min 100
                           (factor_zone idz zr
                            + snd (fst (dwell idz
                                          (first_danger_time (fst (get_profile pid w)))
                                          (snd (time_time (snd (get_profile pid w))))))
                            + factor_speed sp + factor_posture pr
                            + factor_proximity idz cx
                            + factor_acceleration (speeds (fst (get_profile pid w))) sp)))
    as (_ & _ & Hcrit).
  rewrite Hcrit by lia. reflexivity.
Qed.

Lemma calculate_risk_posture_listed pid cx cy idz zn zr sp po pr w :
  factor_get "Posture" (factors (fst (calculate_risk pid cx cy idz zn zr sp po pr w)))
  = listed (Z.min 20 pr).
Proof.
  rewrite calculate_risk_eq. cbn [fst factors].
  match goal with
  | |- context [build_factors ?a ?b ?c ?e ?f ?g] =>
      destruct (build_factors_get a b c e f g) as (_ & _ & _ & Gp & _)
  end.
  rewrite Gp. reflexivity.
Qed.

Lemma calculate_risk_keeps_profiles pid cx cy idz zn zr sp po pr w pid' :
  is_Some (person_profiles w !! pid') \/ pid' = pid ->
  is_Some (person_profiles (snd (calculate_risk pid cx cy idz zn zr sp po pr w)) !! pid').
Proof.
  intros H. destruct (decide (pid' = pid)) as [-> | Hne].
  - destruct (calculate_risk_stored pid cx cy idz zn zr sp po pr w) as (p' & Hp' & _).
    rewrite Hp'. eauto.
  - rewrite calculate_risk_other by exact Hne. destruct H as [H | H]; [exact H | congruence].
Qed.

Lemma center_in_range (t : Track) :
  box_in_range t ->
  TrackerUtils.in_pixel_range
    (TrackerUtils.get_person_center (box_x1 t) (box_y1 t) (box_x2 t) (box_y2 t)).
Proof.
  unfold box_in_range, TrackerUtils.in_pixel_range, TrackerUtils.pixel_range,
    TrackerUtils.get_person_center.
  cbn [fst snd]. change (2 ^ 30) with 1073741824.
  intros (H1 & H2 & H3 & H4).
  pose proof (Z.div_mod (box_x1 t + box_x2 t) 2 ltac:(lia)).
  pose proof (Z.mod_pos_bound (box_x1 t + box_x2 t) 2 ltac:(lia)).
  pose proof (Z.div_mod (box_y1 t + box_y2 t) 2 ltac:(lia)).
  pose proof (Z.mod_pos_bound (box_y1 t + box_y2 t) 2 ltac:(lia)).
  lia.
Qed.

Lemma calculate_speed_stored np_sqrt person_id cx cy current_time position_history
    s ph' :
  let hist := default TrackerUtils.empty_history (position_history !! person_id) in
  let too_long :=
    (10 <? length (TrackerUtils.positions hist ++ [(cx, cy)]))%nat in
  TrackerUtils.calculate_speed np_sqrt person_id cx cy current_time position_history
  = Some (s, ph') ->
  ph' = <[person_id :=
            TrackerUtils.mkHistory
              (TrackerUtils.keep_last_10 (TrackerUtils.positions hist ++ [(cx, cy)])
                 too_long)
              (TrackerUtils.keep_last_10 (TrackerUtils.times hist ++ [current_time])
                 too_long) s]> position_history.
Proof.
  intros hist too_long. unfold TrackerUtils.calculate_speed.
  fold hist. fold too_long. intros H.
  match type of H with
  | match ?e with _ => _ end = _ => destruct e; [| discriminate H]
  end.
  injection H as <- <-. reflexivity.
Qed.

Section Frame.

Variable pointPolygonTest : list (Z * Z) -> Z * Z -> Z.
Variable np_sqrt : Z -> option Q.

(** What STEP 5 and STEP 6 establish for a track, when they return. *)
Lemma analyze_person_spec pose_risks current_time track_idx t state a state' :
  TrackerUtils.well_formed (snd state) ->
  analyze_person pointPolygonTest np_sqrt pose_risks current_time track_idx t state
  = Some (a, state') ->
  TrackerUtils.well_formed (snd state') /\
  well_assessed pointPolygonTest pose_risks (track_idx, t) a /\
  extends [(track_idx, t)] state state'.
Proof.
  intros Hwf. unfold analyze_person, well_assessed. cbn [fst snd].
  destruct (TrackerUtils.get_person_center _ _ _ _) as [cx cy].
  pose proof (configured_zone_risk pointPolygonTest cx cy) as Hzone.
  destruct (is_person_in_danger_zone pointPolygonTest cx cy) as [[idz zn] zr].
  destruct (TrackerUtils.calculate_speed np_sqrt (track_id t) cx cy current_time
              (snd state)) as [[s h'] |] eqn:Hs; [| discriminate].
  apply calculate_speed_stored in Hs.
  destruct (posture_of pose_risks track_idx) as [posture pr] eqn:Epo.
  intros H. injection H as <- <-.
  unfold extends. cbn [fst snd who risk_info speed_px].
  split.
  { rewrite Hs. apply well_formed_insert; [exact Hwf |].
    cbn [TrackerUtils.times TrackerUtils.positions].
    rewrite !keep_last_10_length, !length_app. cbn [length].
    rewrite (well_formed_default _ (track_id t) Hwf). reflexivity. }
  split.
  { split; [reflexivity |]. split.
    - intros Hpr. apply calculate_risk_score_range; [| exact Hpr].
      intros ->. destruct Hzone as [[_ H] | [H _]]; [lia | discriminate H].
    - split; [apply calculate_risk_critical |].
      split.
      + intros Hnone. unfold posture_of in Epo. rewrite Hnone in Epo.
        injection Epo as <- <-. apply calculate_risk_posture_listed.
      + exists (fst state). reflexivity. }
  split; [apply calculate_risk_clock |].
  split; [intros pid H; apply calculate_risk_keeps_profiles; left; exact H |].
  split.
  { intros pid H. rewrite Hs. destruct (decide (track_id t = pid)) as [<- | Hne].
    - rewrite lookup_insert_eq. eauto.
    - rewrite lookup_insert_ne by exact Hne. exact H. }
  constructor; [| constructor]. cbn [snd]. split.
  - apply calculate_risk_keeps_profiles. right. reflexivity.
  - rewrite Hs, lookup_insert_eq. eauto.
Qed.

(** STEP 5 and STEP 6 return for a box in the pixel range. *)
Lemma analyze_person_returns pose_risks current_time track_idx t state :
  TrackerUtils.sqrt_defined np_sqrt ->
  TrackerUtils.well_formed (snd state) ->
  TrackerUtils.bounded_history (snd state) ->
  box_in_range t ->
  exists a state',
    analyze_person pointPolygonTest np_sqrt pose_risks current_time track_idx t state
    = Some (a, state') /\
    TrackerUtils.bounded_history (snd state').
Proof.
  intros Hsqrt Hwf Hb Hbox. unfold analyze_person.
  pose proof (center_in_range t Hbox) as Hc.
  destruct (TrackerUtils.get_person_center _ _ _ _) as [cx cy].
  destruct (is_person_in_danger_zone pointPolygonTest cx cy) as [[idz zn] zr].
  destruct (calculate_speed_in_range np_sqrt (track_id t) cx cy current_time
              (snd state) Hsqrt Hwf Hb Hc) as (s & ph' & Hs & _ & _ & Hb').
  rewrite Hs.
  destruct (posture_of pose_risks track_idx) as [posture pr].
  eexists _, _. split; [reflexivity | exact Hb'].
Qed.

Lemma analyze_people_spec pose_risks current_time items state out state' :
  TrackerUtils.well_formed (snd state) ->
  analyze_people pointPolygonTest np_sqrt pose_risks current_time items state
  = Some (out, state') ->
  TrackerUtils.well_formed (snd state') /\
  Forall2 (well_assessed pointPolygonTest pose_risks) items out /\
  extends items state state'.
Proof.
  revert state out state'.
  induction items as [| [track_idx t] items IH]; intros state out state' Hwf Hrun.
  - cbn in Hrun. injection Hrun as <- <-. split; [exact Hwf |].
    split; [constructor |]. repeat split; auto.
  - cbn [analyze_people] in Hrun.
    destruct (analyze_person pointPolygonTest np_sqrt pose_risks current_time
                track_idx t state) as [[a state1] |] eqn:E1; [| discriminate Hrun].
    destruct (analyze_people pointPolygonTest np_sqrt pose_risks current_time
                items state1) as [[others state2] |] eqn:E2; [| discriminate Hrun].
    injection Hrun as <- <-.
    destruct (analyze_person_spec _ _ _ _ _ _ _ Hwf E1)
      as (Hwf1 & Ha & Hc1 & Hp1 & Hh1 & Hn1).
    destruct (IH _ _ _ Hwf1 E2) as (Hwf2 & Hout & Hc2 & Hp2 & Hh2 & Hn2).
    split; [exact Hwf2 |].
    split; [constructor; assumption |].
    split; [congruence |].
    split; [intros pid H; apply Hp2, Hp1, H |].
    split; [intros pid H; apply Hh2, Hh1, H |].
    constructor; [| exact Hn2].
    apply Forall_cons in Hn1 as [[Hprof Hhist] _]. cbn [snd] in *.
    split; [apply Hp2, Hprof | apply Hh2, Hhist].
Qed.

Lemma analyze_people_returns pose_risks current_time items state :
  TrackerUtils.sqrt_defined np_sqrt ->
  TrackerUtils.well_formed (snd state) ->
  TrackerUtils.bounded_history (snd state) ->
  Forall (fun item => box_in_range (snd item)) items ->
  exists out state',
    analyze_people pointPolygonTest np_sqrt pose_risks current_time items state
    = Some (out, state') /\
    TrackerUtils.bounded_history (snd state').
Proof.
  intros Hsqrt. revert state.
  induction items as [| [track_idx t] items IH]; intros state Hwf Hb Hboxes.
  - exists [], state. split; [reflexivity | exact Hb].
  - apply Forall_cons in Hboxes as [Hbox Hboxes]. cbn [snd] in Hbox.
    cbn [analyze_people].
    destruct (analyze_person_returns pose_risks current_time track_idx t state
                Hsqrt Hwf Hb Hbox) as (a & state1 & E1 & Hb1).
    destruct (analyze_person_spec _ _ _ _ _ _ _ Hwf E1) as (Hwf1 & _).
    rewrite E1.
    destruct (IH state1 Hwf1 Hb1 Hboxes) as (out & state2 & -> & Hb2).
    exists (a :: out), state2. split; [reflexivity | exact Hb2].
Qed.

Lemma enumerate_from_lookup {A : Type} (l : list A) (start i : nat) :
  PoseUtils.enumerate_from start l !! i = (fun x => ((start + i)%nat, x)) <$> l !! i.
Proof.
  revert start i. induction l as [| x l IH]; intros start i; [reflexivity |].
  destruct i as [| i]; simpl.
  - rewrite Nat.add_0_r. reflexivity.
  - rewrite IH. replace (S start + i)%nat with (start + S i)%nat by lia. reflexivity.
Qed.

Lemma enumerate_from_snd {A : Type} (l : list A) (start : nat) :
  (PoseUtils.enumerate_from start l).*2 = l.
Proof.
  revert start. induction l as [| x l IH]; intros start; simpl; [reflexivity |].
  rewrite IH. reflexivity.
Qed.

Lemma enumerate_from_boxes (tracks : list Track) (start : nat) :
  Forall box_in_range tracks ->
  Forall (fun item => box_in_range (snd item)) (PoseUtils.enumerate_from start tracks).
Proof.
  intros H. revert start.
  induction H as [| t tracks Ht _ IH]; intros start; constructor;
    [exact Ht | apply IH].
Qed.

Lemma well_assessed_ids pose_risks (items : list (nat * Track)) out :
  Forall2 (well_assessed pointPolygonTest pose_risks) items out ->
  who <$> out = track_id <$> items.*2.
Proof.
  induction 1 as [| item a items out Ha _ IH]; [reflexivity |].
  cbn [fmap list_fmap]. f_equal; [apply Ha | exact IH].
Qed.

Lemma well_assessed_range pose_risks (items : list (nat * Track)) out :
  (forall idx entry, pose_risks !! idx = Some entry -> 0 <= snd entry) ->
  Forall2 (well_assessed pointPolygonTest pose_risks) items out ->
  Forall (fun a => 0 <= score (risk_info a) <= 100
                   /\ (70 < score (risk_info a) -> status (risk_info a) = "CRITICAL"))
         out.
Proof.
  intros Hpose. induction 1 as [| item a items out Ha _ IH]; constructor; [| exact IH].
  destruct Ha as (_ & Hsc & Hcrit & _). split; [| exact Hcrit].
  apply Hsc. unfold posture_of.
  destruct (pose_risks !! fst item) as [entry |] eqn:E; [| simpl; lia].
  apply (Hpose _ _ E).
Qed.

(** One iteration that returns, written out. *)
Lemma process_frame_spec tracks pose_risks st assessments critical st' :
  TrackerUtils.well_formed (position_history st) ->
  process_frame pointPolygonTest np_sqrt tracks pose_risks st
  = Some (assessments, critical, st') ->
  let now := clock (engine st) (ticks (engine st)) in
  let entry := (snd (time_time (engine st)), position_history st) in
  exists w1 h1,
    critical = critical_people (scores_of assessments) /\
    st' = mkLoopState
            (if (frame_count st + 1) mod 30 =? 0
             then snd (cleanup_old_people 60 w1) else w1)
            h1
            (handle_critical_alerts critical now (alert st))
            (frame_count st + 1) /\
    TrackerUtils.well_formed h1 /\
    Forall2 (well_assessed pointPolygonTest pose_risks)
      (PoseUtils.enumerate_from 0 tracks) assessments /\
    extends (PoseUtils.enumerate_from 0 tracks) entry (w1, h1).
Proof.
  intros Hwf Hrun now entry. unfold process_frame in Hrun. cbn [time_time] in Hrun.
  fold now in Hrun.
  destruct (analyze_people pointPolygonTest np_sqrt pose_risks now
              (PoseUtils.enumerate_from 0 tracks) _)
    as [[out [w1 h1]] |] eqn:E; [| discriminate Hrun].
  injection Hrun as <- <- <-.
  destruct (analyze_people_spec pose_risks now (PoseUtils.enumerate_from 0 tracks)
              entry out (w1, h1) Hwf E) as (Hwf1 & Hall & Hext).
  exists w1, h1. split; [reflexivity |]. split; [reflexivity |].
  split; [exact Hwf1 |]. split; [exact Hall | exact Hext].
Qed.

(** One iteration over boxes in the pixel range returns. *)
Lemma process_frame_returns tracks pose_risks st :
  TrackerUtils.sqrt_defined np_sqrt ->
  TrackerUtils.well_formed (position_history st) ->
  TrackerUtils.bounded_history (position_history st) ->
  Forall box_in_range tracks ->
  exists assessments critical st',
    process_frame pointPolygonTest np_sqrt tracks pose_risks st
    = Some (assessments, critical, st') /\
    TrackerUtils.bounded_history (position_history st').
Proof.
  intros Hsqrt Hwf Hb Hboxes. unfold process_frame. cbn [time_time].
  destruct (analyze_people_returns pose_risks
              (clock (engine st) (ticks (engine st)))
              (PoseUtils.enumerate_from 0 tracks)
              (snd (time_time (engine st)), position_history st)
              Hsqrt Hwf Hb (enumerate_from_boxes tracks 0 Hboxes))
    as (out & [w1 h1] & Hrun & Hb1).
  cbn [time_time snd] in Hrun. rewrite Hrun.
  eexists _, _, _. split; [reflexivity |]. exact Hb1.
Qed.

End Frame.

Lemma empty_history_well_formed : TrackerUtils.well_formed ∅.
Proof. intros pid h H. rewrite lookup_empty in H. discriminate H. Qed.

Lemma empty_history_bounded : TrackerUtils.bounded_history ∅.
Proof. intros pid h H. rewrite lookup_empty in H. discriminate H. Qed.

Lemma two_tracks_in_range : Forall box_in_range two_tracks.
Proof.
  repeat (constructor;
          [unfold box_in_range, TrackerUtils.pixel_range; cbn; lia |]).
  constructor.
Qed.

(** X14: the scoring part of one iteration of the frame loop (the loop of
    STEP 5, 6 and 8 over the tracks, the alert counter and the periodic
    cleanup; detection, tracking, pose estimation and drawing are not
    part of it) raises no exception when [numpy.sqrt] returns on the
    integers below [2**64], every entry of [position_history] has as many
    timestamps as positions, and the stored positions and the corners of
    the boxes are of magnitude at most [2**30]; and it keeps these
    properties of [position_history]. It counts the frame, assesses every
    track once and in track order, and leaves an entry in
    [position_history] for every track of the frame. *)
Theorem frame_never_raises
    (pointPolygonTest : list (Z * Z) -> Z * Z -> Z) (np_sqrt : Z -> option Q)
    (tracks : list Track) (pose_risks : gmap nat (string * Z)) (st : LoopState) :
  TrackerUtils.sqrt_defined np_sqrt ->
  TrackerUtils.well_formed (position_history st) ->
  TrackerUtils.bounded_history (position_history st) ->
  Forall box_in_range tracks ->
  exists assessments critical st',
    process_frame pointPolygonTest np_sqrt tracks pose_risks st
    = Some (assessments, critical, st') /\
    TrackerUtils.well_formed (position_history st') /\
    TrackerUtils.bounded_history (position_history st') /\
    frame_count st' = frame_count st + 1 /\
    who <$> assessments = track_id <$> tracks /\
    critical = critical_people (scores_of assessments) /\
    Forall (fun t => is_Some (position_history st' !! track_id t)) tracks.
Proof.
  intros Hsqrt Hwf Hb Hboxes.
  destruct (process_frame_returns pointPolygonTest np_sqrt tracks pose_risks st
              Hsqrt Hwf Hb Hboxes) as (out & critical & st' & Hrun & Hb').
  destruct (process_frame_spec pointPolygonTest np_sqrt tracks pose_risks st
              out critical st' Hwf Hrun)
    as (w1 & h1 & Hcrit & Hst & Hwf1 & Hall & _ & _ & _ & Hnew).
  exists out, critical, st'. split; [exact Hrun |].
  subst st'. cbn [position_history frame_count] in *.
  split; [exact Hwf1 |]. split; [exact Hb' |]. split; [reflexivity |].
  split; [| split; [exact Hcrit |]].
  - rewrite (well_assessed_ids _ _ _ _ Hall), enumerate_from_snd. reflexivity.
  - cbn [snd] in Hnew. rewrite <- (enumerate_from_snd tracks 0).
    apply Forall_fmap. eapply Forall_impl; [exact Hnew |].
    intros item [_ H]. exact H.
Qed.

Lemma frame_never_raises_witness :
  exists assessments critical st',
    process_frame crossing_test isqrt two_tracks one_pose (start clock_seconds)
    = Some (assessments, critical, st') /\
    frame_count st' = 1.
Proof.
  destruct (frame_never_raises crossing_test isqrt two_tracks one_pose
              (start clock_seconds) isqrt_defined empty_history_well_formed
              empty_history_bounded two_tracks_in_range)
    as (assessments & critical & st' & Hrun & _ & _ & Hcount & _).
  exists assessments, critical, st'. split; [exact Hrun | exact Hcount].
Defined.

(** X15: when no pose entry has a negative risk, every score produced by
    a frame is in [0,100], and every pair of [critical_people] belongs to
    an assessment of the frame whose score is above 70 and whose status is
    CRITICAL. *)
Theorem frame_scores_in_range
    (pointPolygonTest : list (Z * Z) -> Z * Z -> Z) (np_sqrt : Z -> option Q)
    (tracks : list Track) (pose_risks : gmap nat (string * Z)) (st : LoopState)
    (assessments : list Assessment) (critical : list (Z * Z)) (st' : LoopState) :
  TrackerUtils.well_formed (position_history st) ->
  (forall (idx : nat) (entry : string * Z),
      pose_risks !! idx = Some entry -> 0 <= snd entry) ->
  process_frame pointPolygonTest np_sqrt tracks pose_risks st
  = Some (assessments, critical, st') ->
  Forall (fun a => 0 <= score (risk_info a) <= 100) assessments /\
  Forall (fun person =>
            70 < snd person <= 100 /\
            exists a, a ∈ assessments /\ who a = fst person
                      /\ score (risk_info a) = snd person
                      /\ status (risk_info a) = "CRITICAL") critical.
Proof.
  intros Hwf Hpose Hrun.
  destruct (process_frame_spec pointPolygonTest np_sqrt tracks pose_risks st
              assessments critical st' Hwf Hrun)
    as (w1 & h1 & -> & _ & _ & Hall & _).
  pose proof (well_assessed_range _ _ _ _ Hpose Hall) as Hrange.
  split.
  - eapply Forall_impl; [exact Hrange |]. intros a [H _]. exact H.
  - apply Forall_forall. intros [id sc] Hin.
    unfold critical_people in Hin.
    apply list_elem_of_In, filter_In in Hin as [Hin Hgt].
    apply list_elem_of_In in Hin. unfold scores_of in Hin.
    apply list_elem_of_fmap in Hin as (a & Heq & Ha). injection Heq as -> ->.
    cbn [fst snd] in *. apply Z.ltb_lt in Hgt.
    rewrite Forall_forall in Hrange. destruct (Hrange a Ha) as [Hr Hc].
    split; [lia |]. exists a. repeat split; [exact Ha | apply Hc; exact Hgt].
Qed.

Lemma one_pose_nonnegative (idx : nat) (entry : string * Z) :
  one_pose !! idx = Some entry -> 0 <= snd entry.
Proof.
  unfold one_pose. intros H. apply lookup_singleton_Some in H as [_ <-]. simpl. lia.
Qed.

Lemma frame_scores_in_range_witness :
  exists assessments critical st',
    process_frame crossing_test isqrt two_tracks one_pose (start clock_seconds)
    = Some (assessments, critical, st') /\
    Forall (fun a => 0 <= score (risk_info a) <= 100) assessments.
Proof.
  destruct (process_frame crossing_test isqrt two_tracks one_pose (start clock_seconds))
    as [[[assessments critical] st'] |] eqn:E; [| vm_compute in E; discriminate].
  exists assessments, critical, st'. split; [reflexivity |].
  apply (frame_scores_in_range crossing_test isqrt two_tracks one_pose
           (start clock_seconds) assessments critical st'
           empty_history_well_formed one_pose_nonnegative E).
Defined.

(** X16: a frame changes the alert statistics exactly as the alert block
    does on the frame's clock reading and its [(track_id, score)] pairs:
    the counter grows by at most one per frame, however many identities
    are critical, and a frame without critical identities leaves the
    statistics untouched. *)
Theorem at_most_one_alert_per_frame
    (pointPolygonTest : list (Z * Z) -> Z * Z -> Z) (np_sqrt : Z -> option Q)
    (tracks : list Track) (pose_risks : gmap nat (string * Z)) (st : LoopState)
    (assessments : list Assessment) (critical : list (Z * Z)) (st' : LoopState) :
  process_frame pointPolygonTest np_sqrt tracks pose_risks st
  = Some (assessments, critical, st') ->
  let now := clock (engine st) (ticks (engine st)) in
  alert st' = frame_step (alert st) (mkFrame now (scores_of assessments)) /\
  (total_alerts (alert st') = total_alerts (alert st)
   \/ total_alerts (alert st') = total_alerts (alert st) + 1) /\
  (critical = [] -> alert st' = alert st).
Proof.
  intros Hrun now. unfold process_frame in Hrun. cbn [time_time] in Hrun.
  destruct (analyze_people _ _ _ _ _ _) as [[out [w1 h1]] |]; [| discriminate Hrun].
  injection Hrun as <- <- <-. cbn [alert]. fold now.
  split; [reflexivity |]. split.
  - unfold handle_critical_alerts.
    destruct (critical_people (scores_of out)); [left; reflexivity |].
    destruct (Qgtb _ _); [right | left]; reflexivity.
  - intros ->. reflexivity.
Qed.

Lemma at_most_one_alert_per_frame_witness :
  exists assessments critical st',
    process_frame crossing_test isqrt two_tracks one_pose (start clock_seconds)
    = Some (assessments, critical, st') /\
    alert st' = initial.
Proof.
  destruct (process_frame crossing_test isqrt two_tracks one_pose (start clock_seconds))
    as [[[assessments critical] st'] |] eqn:E; [| vm_compute in E; discriminate].
  exists assessments, critical, st'. split; [reflexivity |].
  refine (proj2 (proj2 (at_most_one_alert_per_frame crossing_test isqrt two_tracks
                          one_pose (start clock_seconds) assessments critical st' E)) _).
  vm_compute in E. injection E as _ <- _. reflexivity.
Defined.

(** X17: the posture of a track is looked up by the position of the track
    in the frame's track list, and it reaches the score. The assessment at
    a position is the result of [calculate_risk] for the track at that
    position, on the centre of its box, the zone of the centre, the speed
    of the assessment, and the posture and posture risk of the pose
    dictionary at that position: the entry found there, and STANDING with
    risk 0 when there is none. Its posture contribution is the posture
    risk capped at 20, listed when it is positive; a track without a pose
    entry lists no posture contribution. *)
Theorem posture_follows_track_index
    (pointPolygonTest : list (Z * Z) -> Z * Z -> Z) (np_sqrt : Z -> option Q)
    (tracks : list Track) (pose_risks : gmap nat (string * Z)) (st : LoopState)
    (assessments : list Assessment) (critical : list (Z * Z)) (st' : LoopState)
    (idx : nat) (a : Assessment) :
  TrackerUtils.well_formed (position_history st) ->
  process_frame pointPolygonTest np_sqrt tracks pose_risks st
  = Some (assessments, critical, st') ->
  assessments !! idx = Some a ->
  exists t : Track,
    tracks !! idx = Some t /\ who a = track_id t /\
    (exists w : World,
        let '(cx, cy) :=
          TrackerUtils.get_person_center (box_x1 t) (box_y1 t) (box_x2 t) (box_y2 t) in
        let '(in_danger, zone_name, zone_risk) :=
          is_person_in_danger_zone pointPolygonTest cx cy in
        risk_info a
        = fst (calculate_risk (track_id t) cx cy in_danger zone_name zone_risk
                 (speed_px a)
                 (match pose_risks !! idx with
                  | Some entry => fst entry
                  | None => "STANDING"
                  end)
                 (match pose_risks !! idx with
                  | Some entry => snd entry
                  | None => 0
                  end) w)) /\
    (forall (posture : string) (posture_risk : Z),
        pose_risks !! idx = Some (posture, posture_risk) ->
        factor_get "Posture" (factors (risk_info a)) = listed (Z.min 20 posture_risk)) /\
    (pose_risks !! idx = None -> factor_get "Posture" (factors (risk_info a)) = 0).
Proof.
  intros Hwf Hrun Ha.
  destruct (process_frame_spec pointPolygonTest np_sqrt tracks pose_risks st
              assessments critical st' Hwf Hrun)
    as (w1 & h1 & _ & _ & _ & Hall & _).
  destruct (Forall2_lookup_r _ _ _ _ _ Hall Ha)
    as ([i t] & Hitem & Hwho & _ & _ & Hnone & (w & Hcall)).
  rewrite enumerate_from_lookup in Hitem.
  destruct (tracks !! idx) as [t' |] eqn:Et; [| discriminate Hitem].
  injection Hitem as <- <-. cbn [fst snd] in *.
  exists t'. split; [reflexivity |]. split; [exact Hwho |].
  assert (Hcall' :
    let '(cx, cy) :=
      TrackerUtils.get_person_center (box_x1 t') (box_y1 t') (box_x2 t') (box_y2 t') in
    let '(in_danger, zone_name, zone_risk) :=
      is_person_in_danger_zone pointPolygonTest cx cy in
    risk_info a
    = fst (calculate_risk (track_id t') cx cy in_danger zone_name zone_risk
             (speed_px a)
             (match pose_risks !! idx with
              | Some entry => fst entry
              | None => "STANDING"
              end)
             (match pose_risks !! idx with
              | Some entry => snd entry
              | None => 0
              end) w)).
  { revert Hcall. unfold posture_of.
    destruct (TrackerUtils.get_person_center _ _ _ _) as [cx cy].
    destruct (is_person_in_danger_zone pointPolygonTest cx cy) as [[idz zn] zr].
    destruct (pose_risks !! idx) as [[posture pr] |]; intros H; exact H. }
  split; [exists w; exact Hcall' |].
  split; [| exact Hnone].
  intros posture pr Hsome. revert Hcall'. rewrite Hsome. cbn [fst snd].
  destruct (TrackerUtils.get_person_center _ _ _ _) as [cx cy].
  destruct (is_person_in_danger_zone pointPolygonTest cx cy) as [[idz zn] zr].
  intros ->. apply calculate_risk_posture_listed.
Qed.

(** The first track has the pose entry (BENDING, 25): its posture
    contribution is 20. The second has none: no posture contribution. *)
Lemma posture_follows_track_index_witness :
  exists assessments critical st' a0 a1,
    process_frame crossing_test isqrt two_tracks one_pose (start clock_seconds)
    = Some (assessments, critical, st') /\
    assessments !! 0%nat = Some a0 /\
    assessments !! 1%nat = Some a1 /\
    factor_get "Posture" (factors (risk_info a0)) = 20 /\
    factor_get "Posture" (factors (risk_info a1)) = 0.
Proof.
  destruct (process_frame crossing_test isqrt two_tracks one_pose (start clock_seconds))
    as [[[assessments critical] st'] |] eqn:E; [| vm_compute in E; discriminate].
  destruct (assessments !! 0%nat) as [a0 |] eqn:Ea0;
    [| vm_compute in E; injection E as <- _ _; discriminate Ea0].
  destruct (assessments !! 1%nat) as [a1 |] eqn:Ea1;
    [| vm_compute in E; injection E as <- _ _; discriminate Ea1].
  exists assessments, critical, st', a0, a1.
  split; [reflexivity |]. split; [exact Ea0 |]. split; [exact Ea1 |].
  destruct (posture_follows_track_index crossing_test isqrt two_tracks one_pose
              (start clock_seconds) assessments critical st' 0 a0
              empty_history_well_formed E Ea0) as (t0 & _ & _ & _ & Hsome0 & _).
  destruct (posture_follows_track_index crossing_test isqrt two_tracks one_pose
              (start clock_seconds) assessments critical st' 1 a1
              empty_history_well_formed E Ea1) as (t1 & _ & _ & _ & _ & Hnone1).
  split.
  - apply (Hsome0 "BENDING" 25). reflexivity.
  - apply Hnone1. reflexivity.
Defined.

(** X18: profiles are evicted only on every 30th frame. On a frame whose
    number is not a multiple of 30, every identity that had a profile
    before the frame still has one after it, and every track of the frame
    has a profile. *)
Theorem profiles_survive_between_cleanups
    (pointPolygonTest : list (Z * Z) -> Z * Z -> Z) (np_sqrt : Z -> option Q)
    (tracks : list Track) (pose_risks : gmap nat (string * Z)) (st : LoopState)
    (assessments : list Assessment) (critical : list (Z * Z)) (st' : LoopState) :
  TrackerUtils.well_formed (position_history st) ->
  process_frame pointPolygonTest np_sqrt tracks pose_risks st
  = Some (assessments, critical, st') ->
  (frame_count st + 1) mod 30 <> 0 ->
  (forall pid : Z,
      is_Some (person_profiles (engine st) !! pid) ->
      is_Some (person_profiles (engine st') !! pid)) /\
  Forall (fun t => is_Some (person_profiles (engine st') !! track_id t)) tracks.
Proof.
  intros Hwf Hrun Hmod.
  destruct (process_frame_spec pointPolygonTest np_sqrt tracks pose_risks st
              assessments critical st' Hwf Hrun)
    as (w1 & h1 & _ & -> & _ & _ & _ & Hkeep & _ & Hnew).
  cbn [engine].
  destruct (Z.eqb_spec ((frame_count st + 1) mod 30) 0) as [H0 | _]; [contradiction |].
  cbn [fst snd time_time person_profiles] in Hkeep, Hnew.
  split; [exact Hkeep |].
  rewrite <- (enumerate_from_snd tracks 0).
  apply Forall_fmap. eapply Forall_impl; [exact Hnew |].
  intros item [H _]. exact H.
Qed.

Lemma profiles_survive_between_cleanups_witness :
  exists assessments critical st',
    process_frame crossing_test isqrt two_tracks one_pose (start clock_seconds)
    = Some (assessments, critical, st') /\
    Forall (fun t => is_Some (person_profiles (engine st') !! track_id t)) two_tracks.
Proof.
  destruct (process_frame crossing_test isqrt two_tracks one_pose (start clock_seconds))
    as [[[assessments critical] st'] |] eqn:E; [| vm_compute in E; discriminate].
  exists assessments, critical, st'. split; [reflexivity |].
  apply (profiles_survive_between_cleanups crossing_test isqrt two_tracks one_pose
           (start clock_seconds) assessments critical st' empty_history_well_formed E).
  vm_compute. discriminate.
Defined.

(** The frames bring boxes in the pixel range. *)
Lemma two_frames_in_range :
  Forall (fun frame : list Track * gmap nat (string * Z) =>
            Forall box_in_range (fst frame)) two_frames.
Proof.
  repeat (constructor; [exact two_tracks_in_range |]). constructor.
Qed.

(** X20: from the state in which the program starts, the scoring part of
    the frame loop (STEP 5, 6 and 8, the alert counter and the periodic
    cleanup of every iteration; detection, tracking, pose estimation and
    drawing are not part of it) raises no exception over frames whose
    boxes have corner coordinates of magnitude at most [2**30], when
    [numpy.sqrt] returns on the integers below [2**64], whatever poses
    the frames bring. After the frames [frame_count] is their number and
    the alert counter is at most their number. *)
Theorem loop_never_raises
    (pointPolygonTest : list (Z * Z) -> Z * Z -> Z) (np_sqrt : Z -> option Q)
    (clk : nat -> Q) (frames : list (list Track * gmap nat (string * Z))) :
  TrackerUtils.sqrt_defined np_sqrt ->
  Forall (fun frame : list Track * gmap nat (string * Z) =>
            Forall box_in_range (fst frame)) frames ->
  exists st' : LoopState,
    loop_run pointPolygonTest np_sqrt frames (start clk) = Some st' /\
    frame_count st' = Z.of_nat (length frames) /\
    0 <= total_alerts (alert st') <= Z.of_nat (length frames) /\
    TrackerUtils.well_formed (position_history st') /\
    TrackerUtils.bounded_history (position_history st').
Proof.
  intros Hsqrt.
  induction frames as [| [tracks pose_risks] frames IH] using rev_ind; intros Hboxes.
  - exists (start clk). split; [reflexivity |]. cbn.
    split; [lia |]. split; [lia |].
    split; [apply empty_history_well_formed | apply empty_history_bounded].
  - apply Forall_app in Hboxes. destruct Hboxes as [Hframes Hlast].
    apply Forall_cons in Hlast as [Htracks _]. cbn [fst] in Htracks.
    destruct (IH Hframes) as (st & Hrun & Hcount & Halerts & Hwf & Hb).
    unfold loop_run in *. rewrite fold_left_app, Hrun. cbn [fold_left loop_step fst snd].
    destruct (process_frame_returns pointPolygonTest np_sqrt tracks pose_risks st
                Hsqrt Hwf Hb Htracks) as (out & critical & st' & Hframe & Hb').
    destruct (process_frame_spec pointPolygonTest np_sqrt tracks pose_risks st
                out critical st' Hwf Hframe)
      as (w1 & h1 & Hcrit & Hst & Hwf1 & _).
    rewrite Hframe. cbn [fmap option_fmap option_map snd].
    exists st'. split; [reflexivity |].
    rewrite length_app. cbn [length].
    subst st'. cbn [frame_count alert position_history] in *.
    split; [lia |]. split; [| split; [exact Hwf1 | exact Hb']].
    unfold handle_critical_alerts.
    destruct critical; [lia |].
    destruct (Qgtb _ _); cbn [total_alerts]; lia.
Qed.

(** Two frames from the start: both are counted and no alert is due. *)
Lemma loop_never_raises_witness :
  exists st' : LoopState,
    loop_run crossing_test isqrt two_frames (start clock_seconds) = Some st' /\
    frame_count st' = 2.
Proof.
  destruct (loop_never_raises crossing_test isqrt clock_seconds two_frames
              isqrt_defined two_frames_in_range)
    as (st' & Hrun & Hcount & _).
  exists st'. split; [exact Hrun | exact Hcount].
Defined.

End FrameFacts.
